(** * DermaIQ database scraping: the ingredients clean-up pipeline and the
    scraper's retry and selector logic, embedded from the Python sources.

    Python strings are sequences of Unicode code points; a string is a
    [list N].  The regular expressions of the scripts are kept as data
    (the patterns of the source, one constructor per operator) and run by
    a backtracking matcher with the priority order of Python's [re]. *)

From Stdlib Require Import NArith ZArith List Ascii String Bool Lia.
From stdpp Require Import base option list strings gmap.

Set Default Proof Using "Type".

(** ** Python strings *)

Module Py.

Definition pystr := list N.

Definition ch (a : ascii) : N := N_of_ascii a.

(** An ASCII literal of the source as a Python string. *)
Definition str (s : string) : pystr := map ch (list_ascii_of_string s).

Definition in_range (lo hi c : N) : bool := ((lo <=? c) && (c <=? hi))%N.

(** [str.isspace] of one character, which is also the class [\s] of [re]
    on [str] patterns. *)
Definition is_space (c : N) : bool :=
  in_range 9 13 c || in_range 28 32 c || (c =? 133)%N || (c =? 160)%N
  || (c =? 5760)%N || in_range 8192 8202 c || (c =? 8232)%N || (c =? 8233)%N
  || (c =? 8239)%N || (c =? 8287)%N || (c =? 12288)%N.

Definition is_digit (c : N) : bool := in_range 48 57 c.
Definition is_upper (c : N) : bool := in_range 65 90 c.
Definition is_lower (c : N) : bool := in_range 97 122 c.

(** The class [[a-zA-Z0-9]]. *)
Definition is_alnum (c : N) : bool := is_lower c || is_upper c || is_digit c.

Definition is_ascii (c : N) : bool := (c <? 128)%N.

(** What the interpreter's Unicode database decides for characters outside
    ASCII; the database is not part of the repository and varies with the
    interpreter, so it is a parameter of the development. *)
Class UnicodeDb := {
  (** [str.isalnum] of a character above U+007F *)
  uni_isalnum : N -> bool;
  (** [str.lower] of a string that is not pure ASCII *)
  uni_lower : pystr -> pystr
}.

(** The database that classifies no character above U+007F; closed
    examples are stated with it, on inputs whose characters the matcher
    classifies without consulting the database. *)
Definition ascii_db : UnicodeDb :=
  {| uni_isalnum := fun _ => false; uni_lower := fun s => s |}.

Section Strings.
Context {U : UnicodeDb}.

(** The class [\w]: [str.isalnum] or the underscore. *)
Definition is_word (c : N) : bool :=
  if is_ascii c then is_alnum c || (c =? 95)%N else uni_isalnum c.

Definition ascii_lower (c : N) : N := if is_upper c then (c + 32)%N else c.

(** [s.lower()] *)
Definition lower (s : pystr) : pystr :=
  if forallb is_ascii s then map ascii_lower s else uni_lower s.

End Strings.

Fixpoint drop_while (p : N -> bool) (s : pystr) : pystr :=
  match s with
  | c :: t => if p c then drop_while p t else s
  | [] => []
  end.

Definition lstrip (s : pystr) : pystr := drop_while is_space s.

Definition rstrip (s : pystr) : pystr := reverse (lstrip (reverse s)).

(** [s.strip()] *)
Definition strip (s : pystr) : pystr := rstrip (lstrip s).

(** [s.split(sep)] for a one-character separator. *)
Fixpoint split (sep : N) (s : pystr) : list pystr :=
  match s with
  | [] => [[]]
  | c :: t =>
      if (c =? sep)%N then [] :: split sep t
      else match split sep t with
           | h :: r => (c :: h) :: r
           | [] => [[c]]
           end
  end.

(** [sep.join(items)] *)
Fixpoint join (sep : pystr) (items : list pystr) : pystr :=
  match items with
  | [] => []
  | [x] => x
  | x :: rest => x ++ sep ++ join sep rest
  end.

Fixpoint starts_with (p s : pystr) : bool :=
  match p, s with
  | [], _ => true
  | a :: p', b :: s' => (a =? b)%N && starts_with p' s'
  | _ :: _, [] => false
  end.

(** [p in s] *)
Fixpoint contains (p s : pystr) : bool :=
  starts_with p s ||
  match s with
  | [] => false
  | _ :: t => contains p t
  end.

(** Truth value of a string: non-empty. *)
Definition truthy (s : pystr) : bool :=
  match s with [] => false | _ => true end.

End Py.

Import Py.

(** ** Regular expressions, as [re] runs them *)

Module Re.

(** The operators the scripts' patterns use.  [Star true r] is [r*],
    [Star false r] is [r*?]; [Group r] is the (single) capturing group;
    [Bol], [Eol] and [WordB] are [^], [$] and [\b] without [re.MULTILINE]. *)
Inductive regex :=
| Eps
| Chr (p : N -> bool)
| Seq (r1 r2 : regex)
| Alt (r1 r2 : regex)
| Star (greedy : bool) (r : regex)
| Group (r : regex)
| Bol
| Eol
| WordB.

Declare Scope re_scope.
Delimit Scope re_scope with re.
Bind Scope re_scope with regex.
Infix "~~" := Seq (at level 60, right associativity) : re_scope.
Infix "<|>" := Alt (at level 65, right associativity) : re_scope.

Definition plus (r : regex) : regex := (r ~~ Star true r)%re.
Definition plus_lazy (r : regex) : regex := (r ~~ Star false r)%re.
Definition opt (r : regex) : regex := (r <|> Eps)%re.

(** [r{n,}] *)
Fixpoint at_least (n : nat) (r : regex) : regex :=
  match n with
  | 0 => Star true r
  | S n' => (r ~~ at_least n' r)%re
  end.

Definition lit (c : N) : regex := Chr (N.eqb c).

(** Simple case folding of [re.IGNORECASE] on [str] patterns, for the
    characters that occur as literals in the scripts' patterns: the ASCII
    letters, with the three characters that fold onto them (U+0130 and
    U+0131 onto i, U+017F onto s, U+212A onto k), and e-acute. *)
Definition fold_ci (c : N) : N :=
  if is_upper c then (c + 32)%N
  else if (c =? 304)%N || (c =? 305)%N then 105%N
  else if (c =? 383)%N then 115%N
  else if (c =? 8490)%N then 107%N
  else if (c =? 201)%N then 233%N
  else c.

Definition lit_ci (c : N) : regex := Chr (fun x => (fold_ci x =? fold_ci c)%N).

Fixpoint seq_of (f : N -> regex) (s : pystr) : regex :=
  match s with
  | [] => Eps
  | [c] => f c
  | c :: t => (f c ~~ seq_of f t)%re
  end.

(** A literal word of a pattern, and the same under [re.IGNORECASE]. *)
Definition lits (s : string) : regex := seq_of lit (str s).
Definition lits_ci (s : string) : regex := seq_of lit_ci (str s).

Definition any : regex := Chr (fun _ => true).
Definition space : regex := Chr is_space.
Definition digit : regex := Chr is_digit.

(** A position in the subject: the character before it (none at the
    start), its index, what is left to read, and the span of group 1. *)
Record mstate := MState {
  m_prev : option N;
  m_pos : nat;
  m_rest : pystr;
  m_cap : option (nat * nat)
}.

Definition advance (c : N) (t : pystr) (s : mstate) : mstate :=
  MState (Some c) (S (m_pos s)) t (m_cap s).

Definition set_cap (start : nat) (s : mstate) : mstate :=
  MState (m_prev s) (m_pos s) (m_rest s) (Some (start, m_pos s)).

Definition cont := mstate -> option mstate.

(** [$]: at the end, or before a newline that ends the subject. *)
Definition at_eol (s : mstate) : bool :=
  match m_rest s with
  | [] => true
  | [c] => (c =? 10)%N
  | _ => false
  end.

Section Matcher.
Context {U : UnicodeDb}.

Definition word_opt (o : option N) : bool :=
  match o with Some c => is_word c | None => false end.

Definition at_wordb (s : mstate) : bool :=
  xorb (word_opt (m_prev s)) (word_opt (head (m_rest s))).

(** The loop of a repetition.  [fuel] bounds the iterations by the
    characters left (an iteration that reads nothing is refused, as no
    body of the scripts' repetitions matches the empty string). *)
Fixpoint star_loop (greedy : bool) (body : mstate -> cont -> option mstate)
    (fuel : nat) (s : mstate) (k : cont) : option mstate :=
  match fuel with
  | 0 => k s
  | S fuel' =>
      if greedy then
        match body s (fun s' =>
                 if length (m_rest s') <? length (m_rest s)
                 then star_loop greedy body fuel' s' k else None) with
        | Some r => Some r
        | None => k s
        end
      else
        match k s with
        | Some r => Some r
        | None =>
            body s (fun s' =>
                 if length (m_rest s') <? length (m_rest s)
                 then star_loop greedy body fuel' s' k else None)
        end
  end.

(** The backtracking matcher: [run r s k] matches [r] at [s] and hands
    every way of doing so to [k], in [re]'s order of preference, until
    [k] accepts one. *)
Fixpoint run (r : regex) (s : mstate) (k : cont) {struct r} : option mstate :=
  match r with
  | Eps => k s
  | Chr p =>
      match m_rest s with
      | c :: t => if p c then k (advance c t s) else None
      | [] => None
      end
  | Seq r1 r2 => run r1 s (fun s' => run r2 s' k)
  | Alt r1 r2 =>
      match run r1 s k with
      | Some x => Some x
      | None => run r2 s k
      end
  | Star g r1 => star_loop g (run r1) (S (length (m_rest s))) s k
  | Group r1 => run r1 s (fun s' => k (set_cap (m_pos s) s'))
  | Bol => match m_prev s with None => k s | Some _ => None end
  | Eol => if at_eol s then k s else None
  | WordB => if at_wordb s then k s else None
  end.

(** A match starting exactly at the position: where it ends, and group 1. *)
Definition match_here (r : regex) (prev : option N) (pos : nat) (rest : pystr)
  : option mstate :=
  run r (MState prev pos rest None) Some.

(** [re.search]: the first position with a match, as (start, final state). *)
Fixpoint search_from (r : regex) (prev : option N) (pos : nat) (rest : pystr)
  : option (nat * mstate) :=
  match match_here r prev pos rest with
  | Some e => Some (pos, e)
  | None =>
      match rest with
      | [] => None
      | c :: t => search_from r (Some c) (S pos) t
      end
  end.

Definition search (r : regex) (s : pystr) : option (nat * mstate) :=
  search_from r None 0 s.

(** [re.match]: a match at the start only. *)
Definition match_start (r : regex) (s : pystr) : option mstate :=
  match_here r None 0 s.

(** [m.group(1)] *)
Definition group1 (s : pystr) (e : mstate) : pystr :=
  match m_cap e with
  | Some (a, b) => take (b - a) (drop a s)
  | None => []
  end.

(** [re.sub(r, repl, s)] for a literal replacement: left to right, the
    matches do not overlap.  [skip] counts the characters still inside
    the last match.  None of the scripts' substitution patterns matches
    the empty string; an empty match is replaced and the scan moves on. *)
Fixpoint sub_from (r : regex) (repl : pystr) (prev : option N) (pos : nat)
    (rest : pystr) (skip : nat) : pystr :=
  match skip with
  | S skip' =>
      match rest with
      | [] => []
      | c :: t => sub_from r repl (Some c) (S pos) t skip'
      end
  | 0 =>
      match match_here r prev pos rest with
      | Some e =>
          match m_pos e - pos with
          | S len =>
              repl ++ match rest with
                      | [] => []
                      | c :: t => sub_from r repl (Some c) (S pos) t len
                      end
          | 0 =>
              repl ++ match rest with
                      | [] => []
                      | c :: t => c :: sub_from r repl (Some c) (S pos) t 0
                      end
          end
      | None =>
          match rest with
          | [] => []
          | c :: t => c :: sub_from r repl (Some c) (S pos) t 0
          end
      end
  end.

Definition sub (r : regex) (repl : pystr) (s : pystr) : pystr :=
  sub_from r repl None 0 s 0.

End Matcher.

Arguments star_loop : simpl never.

End Re.

Import Re.

(** ** Python values held by a record field *)

Inductive pyval :=
| PNone
| PNaN
| PBool (b : bool)
| PInt (n : Z)
| PFloat (mantissa exponent : Z)
| PStr (s : pystr)
| PList (l : list pystr).

(** ** The patterns of the clean-up scripts *)

Module Patterns.

Definition not_angle : regex := Chr (fun c => negb ((c =? 60) || (c =? 62))%N).
Definition bullet : regex := lit 8226.
Definition fil_end : regex := (lits_ci "(FIL" <|> lits_ci "(F.I.L")%re.

(** r"(?:INGREDIENTS|ACTIVE|Active).*?((?:AQUA|WATER)[\s/]+(?:WATER|EAU|AQUA)[^<>]*(?:,|\s+•\s+)[^<>]*" r")" *)
Definition pattern1 : regex :=
  ((lits_ci "INGREDIENTS" <|> lits_ci "ACTIVE" <|> lits_ci "Active")
   ~~ Star false any
   ~~ Group ((lits_ci "AQUA" <|> lits_ci "WATER")
             ~~ plus (Chr (fun c => is_space c || (c =? 47)%N))
             ~~ (lits_ci "WATER" <|> lits_ci "EAU" <|> lits_ci "AQUA")
             ~~ Star true not_angle
             ~~ (lit 44 <|> plus space ~~ bullet ~~ plus space)
             ~~ Star true not_angle))%re.

(** r"(?:[0-9]{5,})\s*[- ]\s*(.+?)(?:read more|$|\(FIL|\(F\.I\.L)" *)
Definition pattern2 : regex :=
  (at_least 5 digit
   ~~ Star true space
   ~~ Chr (fun c => (c =? 45) || (c =? 32))%N
   ~~ Star true space
   ~~ Group (plus_lazy any)
   ~~ (lits_ci "read more" <|> Eol <|> fil_end))%re.

Section WithDb.
Context {U : UnicodeDb}.

(** r"Active\s*(?:\w+\s*" r")+\s*(?:-\s*" r")?(.+?)(?:\(FIL|\(F\.I\.L)" *)
Definition pattern3 : regex :=
  (lits_ci "Active"
   ~~ Star true space
   ~~ plus (plus (Chr is_word) ~~ Star true space)
   ~~ Star true space
   ~~ opt (lit 45 ~~ Star true space)
   ~~ Group (plus_lazy any)
   ~~ fil_end)%re.

End WithDb.

(** r"Ingredients[:\s]+(.+?)(?:How to use|Hazards|$)" *)
Definition pattern4 : regex :=
  (lits_ci "Ingredients"
   ~~ plus (Chr (fun c => (c =? 58)%N || is_space c))
   ~~ Group (plus_lazy any)
   ~~ (lits_ci "How to use" <|> lits_ci "Hazards" <|> Eol))%re.

(** r"<[^>]+>" *)
Definition html_tag : regex :=
  (lit 60 ~~ plus (Chr (fun c => negb (c =? 62)%N)) ~~ lit 62)%re.

(** r"\s+" *)
Definition spaces : regex := plus space.

Definition ingredients_aigu : regex :=
  seq_of lit_ci (str "ingr" ++ [233%N] ++ str "dients:").

(** r"ingredients:|\bingrédients:|\bingredients\b|:|\*|\+|\." *)
Definition boilerplate_short : regex :=
  (lits_ci "ingredients:"
   <|> WordB ~~ ingredients_aigu
   <|> WordB ~~ lits_ci "ingredients" ~~ WordB
   <|> lit 58 <|> lit 42 <|> lit 43 <|> lit 46)%re.

(** r"ingredients:|\bingrédients:|\bingredients\b|:|\*|\+|\.|\bINGREDIENTS\b" *)
Definition boilerplate : regex :=
  (lits_ci "ingredients:"
   <|> WordB ~~ ingredients_aigu
   <|> WordB ~~ lits_ci "ingredients" ~~ WordB
   <|> lit 58 <|> lit 42 <|> lit 43 <|> lit 46
   <|> WordB ~~ lits_ci "INGREDIENTS" ~~ WordB)%re.

(** r"\s+•\s+" *)
Definition bullet_sep : regex := (plus space ~~ bullet ~~ plus space)%re.

(** r"\s*\|\s*" *)
Definition pipe_sep : regex := (Star true space ~~ lit 124 ~~ Star true space)%re.

Definition non_alnum : regex := Chr (fun c => negb (is_alnum c)).

(** r"^[^a-zA-Z0-9]+" *)
Definition leading_symbols : regex := (Bol ~~ plus non_alnum)%re.

(** r"[^a-zA-Z0-9]+$" *)
Definition trailing_symbols : regex := (plus non_alnum ~~ Eol)%re.

End Patterns.

(** ** batch_fix_ingredients.py (the two functions are the same, character
    for character, in fix_ingredients_list.py) *)

Module BatchFix.
Import Patterns.

Section WithDb.
Context {U : UnicodeDb}.

(** The loop over the section patterns: the first that matches gives the
    text, [match.group(1).strip()]. *)
Fixpoint first_section (patterns : list regex) (text : pystr) : option pystr :=
  match patterns with
  | [] => None
  | p :: rest =>
      match search p text with
      | Some (_, e) => Some (strip (group1 text e))
      | None => first_section rest text
      end
  end.

(** The three [re.sub] calls of the clean-up and the final [strip]. *)
Definition scrub (text : pystr) : pystr :=
  strip (sub boilerplate [] (sub spaces (str " ") (sub html_tag [] text))).

Definition clean_ingredients_text (ingredients_text : pyval) : pystr :=
  match ingredients_text with
  | PStr text =>
      scrub (default text (first_section [pattern1; pattern2; pattern3] text))
  | _ => []
  end.

(** The body of the loop over [ingredients_text.split(',')]. *)
Definition clean_item (item : pystr) : pystr :=
  sub trailing_symbols [] (sub leading_symbols [] (strip item)).

Definition keep_item (item : pystr) : bool :=
  truthy item && (1 <? length item).

Definition extract_ingredients_list (ingredients_text : pystr) : list pystr :=
  if truthy ingredients_text then
    let text := sub pipe_sep (str ", ") (sub bullet_sep (str ", ") ingredients_text) in
    filter (fun item => keep_item item = true) (map clean_item (split 44 text))
  else [].

End WithDb.
End BatchFix.


(** ** Records: a row of the product table, or a scraped product *)

Definition assignment : Type := string * pyval.

(** [d[k] = v] for each assignment, in order. *)
Definition assign_all (d : gmap string pyval) (l : list assignment) : gmap string pyval :=
  foldl (fun d a => <[a.1 := a.2]> d) d l.

(** [row.get(k)]: [None] when the row has no such field. *)
Definition row_get (k : string) (row : gmap string pyval) : pyval :=
  default PNone (row !! k).

(** [not isinstance(v, str) or not v.strip()]: the guard of the clean-up
    scripts for a missing ingredients text. *)
Definition missing_text (v : pyval) : bool :=
  match v with
  | PStr s => negb (truthy (strip s))
  | _ => true
  end.

(** [[ing.strip() for ing in text.split(',') if ing.strip()]] *)
Definition comma_items (text : pystr) : list pystr :=
  filter (fun ing => truthy ing = true) (map strip (split 44 text)).

(** The three assignments every clean-up script makes for a row whose
    ingredients list came out non-empty. *)
Definition fixed_fields (cleaned_text : pystr) (ingredients_list : list pystr)
  : list assignment :=
  [ ("ingredients"%string, PStr cleaned_text);
    ("ingredients_count"%string, PInt (Z.of_nat (length ingredients_list)));
    ("ingredients_list"%string, PStr (join (str ", ") ingredients_list)) ].

(** Conversion of a row for the JSON file, at the end of each clean-up
    script's [main]: a string [ingredients_list] becomes a list. *)
Definition json_fields (item : gmap string pyval) : list assignment :=
  match item !! "ingredients_list"%string with
  | Some (PStr s) => [("ingredients_list"%string, PList (comma_items s))]
  | _ => []
  end.

Module BatchFixRows.
Import BatchFix.

Section WithDb.
Context {U : UnicodeDb}.

(** One iteration of the loop of [process_batch]: the record appended to
    [results], and whether [success_count] is incremented. *)
Definition process_row (row : gmap string pyval) : gmap string pyval * bool :=
  let product_data := row in
  let ingredients_text := row_get "ingredients" row in
  if missing_text ingredients_text then (product_data, false)
  else
    let cleaned_text := clean_ingredients_text ingredients_text in
    let ingredients_list := extract_ingredients_list cleaned_text in
    match ingredients_list with
    | [] => (product_data, false)
    | _ => (assign_all product_data (fixed_fields cleaned_text ingredients_list), true)
    end.

Definition process_batch (batch_df : list (gmap string pyval))
  : list (gmap string pyval) * nat :=
  foldl (fun acc row =>
           let '(product_data, fixed) := process_row row in
           (acc.1 ++ [product_data], if fixed then S acc.2 else acc.2))
        ([], 0) batch_df.

(** What [process_batch] may change in a row: nothing outside the three
    ingredients fields, and nothing at all when the ingredients text is
    missing or yields an empty list. *)
Definition row_frame (row out : gmap string pyval) : Prop :=
  (forall k : string,
      k ∉ ["ingredients"; "ingredients_count"; "ingredients_list"]%string ->
      out !! k = row !! k)
  /\ (missing_text (row_get "ingredients" row) = true
      \/ extract_ingredients_list
           (clean_ingredients_text (row_get "ingredients" row)) = [] ->
      out = row).

(** The loop of [main] that prepares the JSON file. *)
Definition to_serializable (item : gmap string pyval) : gmap string pyval :=
  assign_all item (json_fields item).

End WithDb.
End BatchFixRows.

(** ** final_fix_ingredients.py and fix_sample.py *)

Module FinalFix.
Import Patterns BatchFix.

Section WithDb.
Context {U : UnicodeDb}.

(** [extract_and_clean_ingredients], for the list of section patterns of
    the script. *)
Definition extract_and_clean_with (patterns : list regex) (ingredients_text : pyval)
  : pystr * list pystr :=
  match ingredients_text with
  | PStr text =>
      if truthy (strip text) then
        let cleaned_text :=
          sub boilerplate []
            (sub spaces (str " ")
               (sub html_tag [] (default text (first_section patterns text)))) in
        let normalized_text :=
          sub pipe_sep (str ", ") (sub bullet_sep (str ", ") cleaned_text) in
        (cleaned_text,
         filter (fun item => keep_item item = true)
                (map clean_item (split 44 normalized_text)))
      else ([], [])
  | _ => ([], [])
  end.

(** final_fix_ingredients.py *)
Definition extract_and_clean_ingredients : pyval -> pystr * list pystr :=
  extract_and_clean_with [pattern1; pattern2; pattern3; pattern4].

(** fix_sample.py *)
Definition extract_and_clean_ingredients_sample : pyval -> pystr * list pystr :=
  extract_and_clean_with [pattern1; pattern2; pattern3].

(** What [process_batch] assigns to the row [idx] of [df]; the row has an
    [ingredients] cell ([row['ingredients']], a missing value being [NaN]). *)
Definition row_fields (ingredients_text : pyval) : list assignment :=
  let '(cleaned_text, ingredients_list) :=
    extract_and_clean_ingredients ingredients_text in
  match ingredients_list with
  | [] => []
  | _ => fixed_fields cleaned_text ingredients_list
  end.

End WithDb.
End FinalFix.

(** ** fix_ingredients_list.py *)

Module FixIngredientsList.
Import BatchFix.

Section WithDb.
Context {U : UnicodeDb}.

(** What one iteration of the loop of [fix_database] assigns to its row. *)
Definition row_fields (ingredients_text : pyval) : list assignment :=
  if missing_text ingredients_text then []
  else
    let cleaned_text := clean_ingredients_text ingredients_text in
    let ingredients_list := extract_ingredients_list cleaned_text in
    match ingredients_list with
    | [] => []
    | _ => fixed_fields cleaned_text ingredients_list
    end.

End WithDb.
End FixIngredientsList.

(** ** test_ingredients_list.py *)

Module TestIngredientsList.


Section WithDb.
Context {U : UnicodeDb}.


End WithDb.
End TestIngredientsList.

(** ** cosmetics_scraper.py *)

Module Scraper.

Definition MAX_RETRIES : nat := 3.

(** *** The parsed page

    The document and the network are the environment of the scraper: a
    page is given by what the queries of the script return on it. *)

(** A heading found by the first query of [extract_ingredients]: its
    [.string], its [get_text(strip=True)], the same text of its enclosing
    [div] (if any) and the tag name and text of its next sibling (if any). *)
Record header := Header {
  h_string : option pystr;
  h_text : pystr;
  h_parent_div : option pystr;
  h_next : option (string * pystr)
}.

(** An accordion item: the [.text] of its title element and the
    [get_text(strip=True)] of its content element, when it has them. *)
Record accordion_item := AccordionItem {
  a_title : option pystr;
  a_content : option pystr
}.

(** An object of a JSON-LD script: a product with a description (of any
    JSON type), or anything else. *)
Inductive json_ld_item :=
| JProduct (description : pyval)
| JOther.

(** What [json.loads(script.string)] makes of a script. *)
Inductive json_ld_script :=
| JInvalid
| JDict (d : json_ld_item)
| JList (l : list json_ld_item)
| JScalar.

Record soup := Soup {
  (** [soup.select(selector)]: the [.text] of each match, in document order *)
  select : string -> list pystr;
  (** [soup.find_all(['h2', 'h3', 'h4', 'strong', 'b'])] *)
  headers : list header;
  (** [soup.select('.accordion__item, .accordion-item, .product-accordion__item')] *)
  accordion_items : list accordion_item;
  (** [get_text(strip=True)] of each of [soup.find_all(['p', 'div'])] *)
  paragraphs : list pystr;
  (** [soup.find_all('script', {'type': 'application/ld+json'})], parsed *)
  json_ld : list json_ld_script;
  (** [get_text(strip=True)] of each of [soup.find_all(['div', 'p', 'span'])] *)
  text_blocks : list pystr;
  (** [get_text(strip=True)] of each product information section *)
  info_sections : list pystr;
  (** what the heading and keyword searches of [scrape_boots_product] leave
      in [hazards_section], [how_to_use_section], [product_details_section] *)
  hazards_section : option pystr;
  how_to_use_section : option pystr;
  product_details_section : option pystr
}.

(** [soup.select_one(selector)] *)
Definition select_one (s : soup) (selector : string) : option pystr :=
  head (select s selector).

Definition dq : string := String (ascii_of_nat 34) EmptyString.

Definition ingredients_selectors : list string :=
  [ ".product-ingredients"; ".ingredients-list"; ".product-composition";
    ".composition-list";
    "[data-testid=" ++ dq ++ "ingredients" ++ dq ++ "]";
    "[data-testid=" ++ dq ++ "product-ingredients" ++ dq ++ "]";
    ".product-details-tile__product-info-section"; ".product-info-block";
    ".product-details__description" ]%string.

(** *** Patterns *)

(** r"ingredients", with [re.IGNORECASE] *)
Definition ingredients_word : regex := lits_ci "ingredients".

(** r"^[:\.\s]+" *)
Definition leading_punct : regex :=
  (Bol ~~ plus (Chr (fun c => (c =? 58) || (c =? 46) || is_space c)%N))%re.

(** r"ingredients\s*:(.+?)(?:\.|$)", with [re.IGNORECASE | re.DOTALL] *)
Definition labelled_ingredients : regex :=
  (lits_ci "ingredients" ~~ Star true space ~~ lit 58
   ~~ Group (plus_lazy any) ~~ (lit 46 <|> Eol))%re.

(** r"ingredients\s*:", with [re.IGNORECASE] *)
Definition ingredients_label : regex :=
  (lits_ci "ingredients" ~~ Star true space ~~ lit 58)%re.

(** r"ingredients\s*:(.+)", with [re.IGNORECASE | re.DOTALL] *)
Definition labelled_rest : regex :=
  (lits_ci "ingredients" ~~ Star true space ~~ lit 58 ~~ Group (plus any))%re.

Definition chemical_names : list string :=
  [ "acid"; "extract"; "oil"; "butter"; "glycerin"; "water"; "aqua";
    "alcohol"; "vitamin"; "sodium"; "potassium"; "calcium"; "zinc"; "iron";
    "copper"; "magnesium" ]%string.

Fixpoint alternatives (l : list regex) : regex :=
  match l with
  | [] => Chr (fun _ => false)
  | [r] => r
  | r :: rest => (r <|> alternatives rest)%re
  end.

(** r"\b(acid|extract|...|magnesium)\b", with [re.IGNORECASE] *)
Definition chemical_pattern : regex :=
  (WordB ~~ Group (alternatives (map lits_ci chemical_names)) ~~ WordB)%re.

(** The class [[A-Za-z\s]] under [re.IGNORECASE]. *)
Definition letter_or_space : regex :=
  Chr (fun c => is_lower (fold_ci c) || is_space c).

(** r"Made in ([A-Za-z\s]+)" and the four other country patterns, with
    [re.IGNORECASE] *)
Definition country_patterns : list regex :=
  [ (lits_ci "Made in " ~~ Group (plus letter_or_space))%re;
    (lits_ci "Country of Origin" ~~ opt (lit 58) ~~ Star true space
     ~~ Group (plus letter_or_space))%re;
    (lits_ci "Manufactured in " ~~ Group (plus letter_or_space))%re;
    (lits_ci "Product of " ~~ Group (plus letter_or_space))%re;
    (lits_ci "Produced in " ~~ Group (plus letter_or_space))%re ].

Definition not_newline : regex := Chr (fun c => negb (c =? 10)%N).

(** r"\s*\|\s*Boots.*$" *)
Definition boots_suffix : regex :=
  (Star true space ~~ lit 124 ~~ Star true space ~~ lits "Boots"
   ~~ Star true not_newline ~~ Eol)%re.

(** r"^([^-]+)\s*-\s*.+" *)
Definition brand_prefix : regex :=
  (Bol ~~ Group (plus (Chr (fun c => negb (c =? 45)%N)))
   ~~ Star true space ~~ lit 45 ~~ Star true space ~~ plus not_newline)%re.

(** *** extract_ingredients *)

Fixpoint first_some {A B} (f : A -> option B) (l : list A) : option B :=
  match l with
  | [] => None
  | x :: rest => match f x with Some y => Some y | None => first_some f rest end
  end.

Definition or_else {A} (a : option A) (b : option A) : option A :=
  match a with Some x => Some x | None => b end.

(** [s.index(p)]; the scripts call it after [p in s]. *)
Fixpoint index (p s : pystr) : option nat :=
  if starts_with p s then Some 0
  else match s with
       | [] => None
       | _ :: t => S <$> index p t
       end.

(** [',' in text and len(text) > 20 and len(text) < 3000] *)
Definition looks_like_ingredients (text : pystr) : bool :=
  contains [44%N] text && (20 <? length text) && (length text <? 3000).

Definition keep_if (ok : pystr -> bool) (text : pystr) : option pystr :=
  if ok text then Some text else None.

Section WithDb.
Context {U : UnicodeDb}.

(** The filter of the heading query:
    [lambda s: s and re.search(r'ingredients', s, re.IGNORECASE)]. *)
Definition is_ingredient_header (h : header) : bool :=
  match h_string h with
  | Some s => truthy s && bool_decide (is_Some (search ingredients_word s))
  | None => false
  end.

(** The body of the loop over the ingredient headings. *)
Definition from_header (h : header) : option pystr :=
  or_else
    (match h_parent_div h with
     | Some parent_text =>
         match index (h_text h) parent_text with
         | Some i =>
             keep_if looks_like_ingredients
               (sub leading_punct []
                  (strip (drop (i + length (h_text h)) parent_text)))
         | None => None
         end
     | None => None
     end)
    (match h_next h with
     | Some (name, text) =>
         if bool_decide (name ∈ ["p"; "div"; "span"; "ul"]%string)
         then keep_if looks_like_ingredients text
         else None
     | None => None
     end).

(** The body of the loop over the elements a selector matched, on the
    [.text] of the element. *)
Definition from_selected (text : pystr) : option pystr :=
  if contains (str "ingredients") (lower text) then
    or_else
      (match search labelled_ingredients text with
       | Some (_, e) => keep_if looks_like_ingredients (strip (group1 text e))
       | None => None
       end)
      (keep_if (fun elem_text =>
                  contains [44%N] elem_text && (length elem_text <? 3000)
                  && bool_decide (is_Some (search chemical_pattern elem_text)))
               (strip text))
  else None.

(** The loop over the selectors, for any list of selectors. *)
Definition from_selectors (s : soup) (selectors : list string) : option pystr :=
  first_some (fun selector => first_some from_selected (select s selector)) selectors.

Definition from_accordion (item : accordion_item) : option pystr :=
  match a_title item, a_content item with
  | Some title, Some content =>
      if contains (str "ingredient") (lower title)
      then keep_if looks_like_ingredients content
      else None
  | _, _ => None
  end.

Definition from_paragraph (p_text : pystr) : option pystr :=
  if bool_decide (is_Some (search ingredients_label p_text)) && contains [44%N] p_text
  then match search labelled_rest p_text with
       | Some (_, e) => keep_if looks_like_ingredients (strip (group1 p_text e))
       | None => None
       end
  else None.

(** What the body of the loop over the JSON-LD scripts does with one
    object: return a text, go on, or raise (caught by the bare [except]
    of the loop, which then goes on with the next script). *)
Inductive json_step :=
| JFound (text : pystr)
| JNext
| JRaise.

Definition from_json_item (item : json_ld_item) : json_step :=
  match item with
  | JProduct (PStr desc) =>
      match search labelled_ingredients desc with
      | Some (_, e) => JFound (strip (group1 desc e))
      | None => JNext
      end
  | JProduct _ => JRaise
  | JOther => JNext
  end.

Fixpoint from_json_items (items : list json_ld_item) : json_step :=
  match items with
  | [] => JNext
  | item :: rest =>
      match from_json_item item with
      | JNext => from_json_items rest
      | step => step
      end
  end.

Definition from_json_script (script : json_ld_script) : option pystr :=
  match script with
  | JDict d => match from_json_item d with JFound t => Some t | _ => None end
  | JList l => match from_json_items l with JFound t => Some t | _ => None end
  | JInvalid | JScalar => None
  end.

Definition common_ingredients : list string :=
  [ "aqua"; "water"; "glycerin"; "alcohol"; "parfum"; "fragrance"; "sodium";
    "acid"; "extract"; "oil"; "butter"; "vitamin" ]%string.

Definition from_text_block (elem_text : pystr) : option pystr :=
  if contains [44%N] elem_text && (20 <? length elem_text)
     && (length elem_text <? 3000)
  then
    let matches :=
      length (filter (fun ing => contains (lower (str ing)) (lower elem_text) = true)
                     common_ingredients) in
    if 3 <=? matches then Some elem_text else None
  else None.

Definition extract_ingredients (s : soup) : option pystr :=
  or_else (first_some from_header (filter (fun h => is_ingredient_header h = true) (headers s)))
  (or_else (from_selectors s ingredients_selectors)
  (or_else (first_some from_accordion (accordion_items s))
  (or_else (first_some from_paragraph (paragraphs s))
  (or_else (first_some from_json_script (json_ld s))
           (first_some from_text_block (text_blocks s)))))).

(** *** The ingredients fields of a scraped product *)

Definition opt_str (o : option pystr) : pyval :=
  match o with Some s => PStr s | None => PNone end.

(** Truth value of a field. *)
Definition truthy_val (v : pyval) : bool :=
  match v with
  | PStr s => truthy s
  | PList l => match l with [] => false | _ => true end
  | PInt n => negb (n =? 0)%Z
  | PBool b => b
  | PFloat m _ => negb (m =? 0)%Z
  | PNaN => true
  | PNone => false
  end.

(** The count and the list computed from an ingredients text: the
    boilerplate is deleted, the text split at commas. *)
Definition count_fields (ingredients_text : pystr) : list assignment :=
  let ingredients_list :=
    comma_items (sub Patterns.boilerplate_short [] ingredients_text) in
  [ ("ingredients_count"%string, PInt (Z.of_nat (length ingredients_list)));
    ("ingredients_list"%string, PList ingredients_list) ].

(** What [scrape_boots_product] and [scrape_with_extended_timeout] assign
    after [extract_ingredients]. *)
Definition ingredients_fields (found : option pystr) : list assignment :=
  ("ingredients"%string, opt_str found)
  :: match found with
     | Some text => if truthy text then count_fields text else []
     | None => []
     end.

(** What [main] assigns to a product loaded from the progress file that
    has ingredients and no list yet. *)
Definition backfill_fields (product : gmap string pyval) : list assignment :=
  match product !! "ingredients"%string, product !! "ingredients_list"%string with
  | Some (PStr text), None => if truthy text then count_fields text else []
  | _, _ => []
  end.

(** *** Code under [try]: the product dictionary is updated in place, and
    an exception leaves the updates made so far. *)

Definition Try (A : Type) : Type :=
  gmap string pyval -> option A * gmap string pyval.

Definition try_ret {A} (x : A) : Try A := fun pd => (Some x, pd).

Definition try_bind {A B} (m : Try A) (f : A -> Try B) : Try B :=
  fun pd =>
    match m pd with
    | (Some x, pd') => f x pd'
    | (None, pd') => (None, pd')
    end.

Definition raise {A} : Try A := fun pd => (None, pd).

(** [product_data[k] = v] *)
Definition set_field (k : string) (v : pyval) : Try unit :=
  fun pd => (Some tt, <[k := v]> pd).

Definition set_fields (l : list assignment) : Try unit :=
  fun pd => (Some tt, assign_all pd l).

(** [product_data[k]] *)
Definition get_field (k : string) : Try pyval :=
  fun pd => (Some (row_get k pd), pd).

Notation "x <- m ;; k" := (try_bind m (fun x => k))
  (at level 100, m at next level, right associativity).
Notation "m ;;; k" := (try_bind m (fun _ => k))
  (at level 100, right associativity).

(** The blocks of the [try] body of [scrape_boots_product]. *)
Inductive stage :=
| AtName | AtBrand | AtIngredients | AtCountry | AtHazards | AtHowToUse
| AtDetails.

Global Instance stage_eq_dec : EqDecision stage.
Proof. solve_decision. Defined.

(** A fetched page: the parsed document, and the block in which a call
    into the parser or the network library raises, if one does. *)
Record page := Page {
  p_soup : soup;
  p_fault : option stage
}.

(** What [requests.get] does: raise, or return a response. *)
Inductive response :=
| NetworkError
| Http (status : Z) (pg : page).

Definition enter (pg : page) (st : stage) : Try unit :=
  if bool_decide (p_fault pg = Some st) then raise else try_ret tt.

Fixpoint first_group (patterns : list regex) (text : pystr) : option pystr :=
  match patterns with
  | [] => None
  | p :: rest =>
      match search p text with
      | Some (_, e) => Some (group1 text e)
      | None => first_group rest text
      end
  end.

(** The loop over the product information sections that looks for the
    country of origin. *)
Fixpoint country_loop (sections : list pystr) : Try unit :=
  match sections with
  | [] => try_ret tt
  | section_text :: rest =>
      (match first_group country_patterns section_text with
       | Some g => set_field "country_of_origin" (PStr (strip g))
       | None => try_ret tt
       end) ;;;
      (country <- get_field "country_of_origin" ;;
       if truthy_val country then try_ret tt else country_loop rest)
  end.

(** The [try] body of [scrape_boots_product] after a response with status
    200; it yields whether the record holds meaningful data. *)
Definition extract_page (pg : page) : Try bool :=
  let s := p_soup pg in
  enter pg AtName ;;;
  (match select_one s "h1.product-details-tile__title" with
   | Some text => set_field "product_name" (PStr (strip text))
   | None => try_ret tt
   end) ;;;
  enter pg AtBrand ;;;
  (match select_one s "a.product-details-tile__brand" with
   | Some text => set_field "brand" (PStr (strip text))
   | None => try_ret tt
   end) ;;;
  enter pg AtIngredients ;;;
  set_fields (ingredients_fields (extract_ingredients s)) ;;;
  enter pg AtCountry ;;;
  country_loop (info_sections s) ;;;
  enter pg AtHazards ;;;
  set_field "hazards_and_cautions" (opt_str (hazards_section s)) ;;;
  enter pg AtHowToUse ;;;
  set_field "how_to_use" (opt_str (how_to_use_section s)) ;;;
  enter pg AtDetails ;;;
  set_field "product_details" (opt_str (product_details_section s)) ;;;
  (name <- get_field "product_name" ;;
   brand <- get_field "brand" ;;
   ingredients <- get_field "ingredients" ;;
   try_ret (truthy_val name || truthy_val brand || truthy_val ingredients)).

Definition initial_product_data (url timestamp : pystr) : gmap string pyval :=
  assign_all ∅
    [ ("url", PStr url); ("product_name", PNone); ("brand", PNone);
      ("ingredients", PNone); ("ingredients_count", PNone);
      ("country_of_origin", PNone); ("hazards_and_cautions", PNone);
      ("how_to_use", PNone); ("product_details", PNone);
      ("scrape_timestamp", PStr timestamp) ]%string.

(** The [while retries < MAX_RETRIES] loop.  [responses n] is what the
    n-th request of the call meets; [requests] counts the executions of
    the loop body so far.  The loop is run with [fuel]; it yields [None]
    when the fuel runs out before the loop ends. *)
Fixpoint retry_loop (fuel : nat) (responses : nat -> response)
    (requests retries : nat) (product_data : gmap string pyval)
  : option (gmap string pyval * nat) :=
  if retries <? MAX_RETRIES then
    match fuel with
    | 0 => None
    | S fuel' =>
        match responses requests with
        | NetworkError =>
            retry_loop fuel' responses (S requests) (retries + 1) product_data
        | Http status pg =>
            if (status =? 429)%Z then
              retry_loop fuel' responses (S requests) (retries + 1) product_data
            else if negb (status =? 200)%Z then
              retry_loop fuel' responses (S requests) (retries + 1) product_data
            else
              match extract_page pg product_data with
              | (Some true, pd) => Some (pd, S requests)
              | (Some false, pd) =>
                  retry_loop fuel' responses (S requests) (retries + 1) pd
              | (None, pd) =>
                  retry_loop fuel' responses (S requests) (retries + 1) pd
              end
        end
    end
  else Some (product_data, requests).

(** [scrape_boots_product(url)]: the record returned and the number of
    executions of the loop body. *)
Definition scrape_boots_product (fuel : nat) (url timestamp : pystr)
    (responses : nat -> response) : option (gmap string pyval * nat) :=
  retry_loop fuel responses 0 0 (initial_product_data url timestamp).

(** *** scrape_with_extended_timeout *)

Definition product_name_selectors : list string :=
  [ "h1.product-details-tile__title"; "h1.product-title"; "h1.product-name";
    "h1.product__title"; "title" ]%string.

Definition brand_selectors : list string :=
  [ "a.product-details-tile__brand"; ".product-brand"; ".brand-name";
    ".product-info__brand" ]%string.

(** A cascade: the selectors are tried in order until [select_one] finds
    an element. *)
Fixpoint first_selected (s : soup) (selectors : list string)
  : option (string * pystr) :=
  match selectors with
  | [] => None
  | selector :: rest =>
      match select_one s selector with
      | Some text => Some (selector, text)
      | None => first_selected s rest
      end
  end.

Definition product_name_of (s : soup) : option pystr :=
  match first_selected s product_name_selectors with
  | Some (selector, text) =>
      let product_name := strip text in
      Some (if bool_decide (selector = "title"%string)
            then sub boots_suffix [] product_name
            else product_name)
  | None => None
  end.

Definition brand_of (s : soup) : option pystr :=
  match first_selected s brand_selectors with
  | Some (_, text) => Some (strip text)
  | None => None
  end.

(** The brand guessed from the product name when no selector gave one. *)
Definition brand_from_name : Try unit :=
  brand <- get_field "brand" ;;
  product_name <- get_field "product_name" ;;
  match product_name with
  | PStr name =>
      if negb (truthy_val brand) && truthy name then
        match match_start brand_prefix name with
        | Some e => set_field "brand" (PStr (strip (group1 name e)))
        | None =>
            if contains (str "boots") (lower name)
            then set_field "brand" (PStr (str "Boots"))
            else try_ret tt
        end
      else try_ret tt
  | _ => try_ret tt
  end.

(** The [try] body after a response with status 200. *)
Definition extract_page_extended (pg : page) : Try unit :=
  let s := p_soup pg in
  enter pg AtName ;;;
  (match product_name_of s with
   | Some name => set_field "product_name" (PStr name)
   | None => try_ret tt
   end) ;;;
  enter pg AtBrand ;;;
  (match brand_of s with
   | Some brand => set_field "brand" (PStr brand)
   | None => try_ret tt
   end) ;;;
  brand_from_name ;;;
  enter pg AtIngredients ;;;
  set_fields (ingredients_fields (extract_ingredients s)).

Definition scrape_with_extended_timeout (url timestamp : pystr) (r : response)
  : gmap string pyval :=
  let product_data := initial_product_data url timestamp in
  match r with
  | NetworkError => product_data
  | Http status pg =>
      if negb (status =? 200)%Z then product_data
      else (extract_page_extended pg product_data).2
  end.

(** *** read_product_urls_from_boots_csv *)

(** A cell of the table [pd.read_csv] returns: a missing value, a string
    or a number. *)
Inductive cell :=
| CNull
| CStr (s : pystr)
| CNum (n : Z).

Global Instance cell_eq_dec : EqDecision cell.
Proof. solve_decision. Defined.

(** The file at the path: absent, unreadable (one of the calls that open
    or parse it raises), or a table: its columns in order, each with its
    name and cells. *)
Inductive csv_file :=
| Missing
| Unreadable
| Table (columns : list (pystr * list cell)).

(** [series.dropna()] *)
Definition dropna (l : list cell) : list cell :=
  filter (fun c => c <> CNull) l.

(** [series.unique()]: the values in order of first appearance. *)
Fixpoint unique_from (seen l : list cell) : list cell :=
  match l with
  | [] => []
  | x :: t =>
      if bool_decide (x ∈ seen) then unique_from seen t
      else x :: unique_from (x :: seen) t
  end.

Definition unique (l : list cell) : list cell := unique_from [] l.

(** [df[name]] *)
Fixpoint column (name : pystr) (columns : list (pystr * list cell))
  : option (list cell) :=
  match columns with
  | [] => None
  | (n, cells) :: rest =>
      if bool_decide (n = name) then Some cells else column name rest
  end.

(** The column the URLs are read from: 'oct-link href 2', or else the
    first whose lower-cased name holds both 'oct-link' and 'href'. *)
Definition url_column (columns : list (pystr * list cell)) : option pystr :=
  let names := map fst columns in
  if bool_decide (str "oct-link href 2" ∈ names) then Some (str "oct-link href 2")
  else head (filter (fun col => contains (str "oct-link") (lower col)
                                && contains (str "href") (lower col) = true)
                    names).

(** The body of the [try]: [None] when an exception reaches the [except]
    clause. *)
Definition read_urls_body (f : csv_file) : option (list cell) :=
  match f with
  | Missing => Some []
  | Unreadable => None
  | Table columns =>
      match url_column columns with
      | Some name => (fun cells => unique (dropna cells)) <$> column name columns
      | None => Some []
      end
  end.

Definition read_product_urls_from_boots_csv (f : csv_file) : list cell :=
  default [] (read_urls_body f).

End WithDb.
End Scraper.

(** ** backup/boots_advanced_scraper.py: navigate_with_retry *)

Module Advanced.

(** What a call does, in order: the random delay before the request, an
    attempt to navigate, or a sleep of [base] times the random factor
    (between 1 and 3) drawn at that attempt. *)
Inductive nav_event :=
| Delay
| Attempt (attempt : nat)
| Backoff (base : Z) (draw : nat).

(** [range(n)] *)
Definition range (n : Z) : list nat := seq 0 (Z.to_nat n).

(** The [for attempt in range(max_retries + 1)] loop; [succeeds attempt]
    tells whether the attempt goes through without an exception. *)
Fixpoint attempts_loop (max_retries : Z) (succeeds : nat -> bool)
    (attempts : list nat) : option bool * list nav_event :=
  match attempts with
  | [] => (None, [])
  | attempt :: rest =>
      if succeeds attempt then (Some true, [Attempt attempt])
      else if (Z.of_nat attempt <? max_retries)%Z then
        let '(result, events) := attempts_loop max_retries succeeds rest in
        (result, Attempt attempt :: Backoff (2 ^ Z.of_nat attempt) attempt :: events)
      else (None, [Attempt attempt])
  end.

(** [navigate_with_retry(url, max_retries)]: the result ([True] or
    [None]) and what was done.  [self_max_retries] is [self.max_retries];
    [allowed] is false when robots.txt is respected and forbids the URL. *)
Definition navigate_with_retry (self_max_retries : Z) (allowed : bool)
    (max_retries : option Z) (succeeds : nat -> bool)
  : option bool * list nav_event :=
  let max_retries := default self_max_retries max_retries in
  if allowed then
    let '(result, events) :=
      attempts_loop max_retries succeeds (range (max_retries + 1)) in
    (result, Delay :: events)
  else (None, []).

Definition is_attempt (e : nav_event) : bool :=
  match e with Attempt _ => true | _ => false end.

(** The events of [k] failed attempts, each followed by its back-off, and
    of one more attempt. *)
Definition retried (k : nat) : list nav_event :=
  flat_map (fun i => [Attempt i; Backoff (2 ^ Z.of_nat i) i]) (seq 0 k)
  ++ [Attempt k].

End Advanced.

(** ** Auxiliary notions used to state and prove facts about the matcher *)

Module ReAux.

(** Every match of [r] reads at least one character that satisfies [p]. *)
Fixpoint Requires (p : N -> bool) (r : regex) : Prop :=
  match r with
  | Chr q => forall c, q c = true -> p c = true
  | Seq r1 r2 => Requires p r1 \/ Requires p r2
  | Alt r1 r2 => Requires p r1 /\ Requires p r2
  | Group r1 => Requires p r1
  | _ => False
  end.

(** [p*] followed by [k], read off the subject directly: the longest run
    first, then shorter ones. *)
Fixpoint greedy_chr (p : N -> bool) (prev : option N) (pos : nat)
    (rest : pystr) (cap : option (nat * nat)) (k : cont) : option mstate :=
  match rest with
  | c :: t =>
      if p c then
        match greedy_chr p (Some c) (S pos) t cap k with
        | Some r => Some r
        | None => k (MState prev pos rest cap)
        end
      else k (MState prev pos rest cap)
  | [] => k (MState prev pos [] cap)
  end.

(** The text with its trailing run of characters satisfying [p] removed. *)
Fixpoint drop_trailing (p : N -> bool) (s : pystr) : pystr :=
  match s with
  | [] => []
  | c :: t => if forallb p s then [] else c :: drop_trailing p t
  end.

Definition not_alnum (c : N) : bool := negb (is_alnum c).

(** The continuation of [$] at the end of a pattern. *)
Definition eol_cont : cont := fun s => if at_eol s then Some s else None.

Definition not_space (c : N) : bool := negb (is_space c).

End ReAux.

(** ** Notions the claims are stated with *)

Module Notions.

(** A normalized ingredient name: no comma, at least two characters, an
    ASCII letter or digit at both ends. *)
Definition normalized_name (item : pystr) : Prop :=
  (44%N ∉ item) /\ (2 <= length item)
  /\ (exists c, head item = Some c /\ is_alnum c = true)
  /\ (exists c, last item = Some c /\ is_alnum c = true).

Definition alnum_opt (o : option N) : bool :=
  match o with Some c => is_alnum c | None => false end.


(** A piece of a split string that is a name with white space around it. *)
Definition padded (piece name : pystr) : Prop :=
  exists l r, piece = l ++ name ++ r
              /\ forallb is_space l = true /\ forallb is_space r = true.

(** The word [w] stands at the start of [s], letter case apart. *)
Fixpoint starts_with_ci (w s : pystr) : bool :=
  match w, s with
  | [], _ => true
  | a :: w', b :: s' => (fold_ci b =? fold_ci a)%N && starts_with_ci w' s'
  | _ :: _, [] => false
  end.

(** The word [w] occurs in [s], letter case apart. *)
Fixpoint contains_ci (w s : pystr) : bool :=
  starts_with_ci w s ||
  match s with
  | [] => false
  | _ :: t => contains_ci w t
  end.

(** [n] characters of the class stand at the start of [s]. *)
Fixpoint run_at (p : N -> bool) (n : nat) (s : pystr) : bool :=
  match n with
  | 0 => true
  | S n' => match s with c :: t => p c && run_at p n' t | [] => false end
  end.

(** Somewhere in [s] stand [n] characters of the class in a row. *)
Fixpoint has_run (p : N -> bool) (n : nat) (s : pystr) : bool :=
  run_at p n s ||
  match s with
  | [] => false
  | _ :: t => has_run p n t
  end.

Definition space_opt (o : option N) : bool :=
  match o with Some c => is_space c | None => false end.

(** Every white-space character is a single blank, followed by none. *)
Fixpoint single_spaced (s : pystr) : bool :=
  match s with
  | [] => true
  | c :: t =>
      (if is_space c then (c =? 32)%N && negb (space_opt (head t)) else true)
      && single_spaced t
  end.

(** The characters the boilerplate pattern deletes one by one. *)
Definition is_deleted (c : N) : bool :=
  ((c =? 58) || (c =? 42) || (c =? 43) || (c =? 46))%N.

(** A cleaned text on which a further clean-up finds nothing to do: no
    opening angle bracket, single blanks only, no five digits in a row,
    and neither "active" nor "ingredients" in any letter case. *)
Definition settled (text : pystr) : bool :=
  forallb (fun c => negb (c =? 60)%N) text
  && single_spaced text
  && negb (has_run is_digit 5 text)
  && negb (contains_ci (str "active") text)
  && negb (contains_ci (str "ingredients") text).

(** The ingredients field of a row is absent, is not a string, or is a
    string of white space only. *)
Definition ingredients_missing (row : gmap string pyval) : Prop :=
  match row !! "ingredients"%string with
  | Some (PStr s) => forallb is_space s = true
  | _ => True
  end.

(** The number of elements of a value of the field [ingredients_list]: of
    the list, or of its comma-joined string as the scripts read it back. *)
Definition list_length (v : pyval) : option nat :=
  match v with
  | PList items => Some (length items)
  | PStr s => Some (length (comma_items s))
  | _ => None
  end.

(** Wherever a list of assignments sets [ingredients_list], it also sets
    [ingredients_count], to the number of elements of the list. *)
Definition list_with_count (l : list assignment) : Prop :=
  forall v, ("ingredients_list"%string, v) ∈ l ->
    exists n, list_length v = Some n
      /\ ("ingredients_count"%string, PInt (Z.of_nat n)) ∈ l.

(** A record that has an [ingredients_list] has its number of elements as
    [ingredients_count]. *)
Definition count_matches (pd : gmap string pyval) : Prop :=
  forall v, pd !! "ingredients_list"%string = Some v ->
    exists n, list_length v = Some n
      /\ pd !! "ingredients_count"%string = Some (PInt (Z.of_nat n)).

(** A computation under [try] assigns to no field outside [keys]. *)
Definition touches_only {A} (keys : list string) (m : Scraper.Try A) : Prop :=
  forall pd k, k ∉ keys -> (m pd).2 !! k = pd !! k.

(** A computation under [try] keeps the property [I] of the record. *)
Definition preserves {A} (I : gmap string pyval -> Prop) (m : Scraper.Try A) : Prop :=
  forall pd, I pd -> I (m pd).2.

(** The fields [scrape_boots_product] initializes to [None]. *)
Definition optional_fields : list string :=
  [ "product_name"; "brand"; "ingredients"; "ingredients_count";
    "country_of_origin"; "hazards_and_cautions"; "how_to_use";
    "product_details" ]%string.

(** The keys the [try] body may assign. *)
Definition scraped_keys : list string :=
  [ "product_name"; "brand"; "ingredients"; "ingredients_count";
    "ingredients_list"; "country_of_origin"; "hazards_and_cautions";
    "how_to_use"; "product_details" ]%string.

(** The keys assigned outside the ingredients block. *)
Definition other_keys : list string :=
  [ "product_name"; "brand"; "country_of_origin"; "hazards_and_cautions";
    "how_to_use"; "product_details" ]%string.

Definition found {A} (o : option A) : bool :=
  match o with Some _ => true | None => false end.

Definition stage_index (st : Scraper.stage) : nat :=
  match st with
  | Scraper.AtName => 0
  | Scraper.AtBrand => 1
  | Scraper.AtIngredients => 2
  | Scraper.AtCountry => 3
  | Scraper.AtHazards => 4
  | Scraper.AtHowToUse => 5
  | Scraper.AtDetails => 6
  end.

(** The block [st] of the [try] body is run on the page: no call raises
    in it or before it. *)
Definition reached (pg : Scraper.page) (st : Scraper.stage) : bool :=
  match Scraper.p_fault pg with
  | None => true
  | Some fault => stage_index st <? stage_index fault
  end.

Section WithDb.
Context {U : UnicodeDb}.

(** A product name from which [scrape_with_extended_timeout] guesses a
    brand. *)
Definition brand_in_name (name : pystr) : bool :=
  truthy name
  && (found (match_start Scraper.brand_prefix name)
      || contains (str "boots") (lower name)).

(** For a field of the record: the block of [scrape_boots_product] that
    assigns it, and whether the document has what the block assigns a
    value other than [None] from. *)
Definition field_source (s : Scraper.soup) (k : string)
  : option (Scraper.stage * bool) :=
  if (k =? "product_name")%string then
    Some (Scraper.AtName,
          found (Scraper.select_one s "h1.product-details-tile__title"))
  else if (k =? "brand")%string then
    Some (Scraper.AtBrand,
          found (Scraper.select_one s "a.product-details-tile__brand"))
  else if (k =? "ingredients")%string then
    Some (Scraper.AtIngredients, found (Scraper.extract_ingredients s))
  else if (k =? "ingredients_count")%string then
    Some (Scraper.AtIngredients,
          match Scraper.extract_ingredients s with
          | Some text => truthy text
          | None => false
          end)
  else if (k =? "country_of_origin")%string then
    Some (Scraper.AtCountry,
          existsb (fun section_text =>
                     found (Scraper.first_group Scraper.country_patterns section_text))
                  (Scraper.info_sections s))
  else if (k =? "hazards_and_cautions")%string then
    Some (Scraper.AtHazards, found (Scraper.hazards_section s))
  else if (k =? "how_to_use")%string then
    Some (Scraper.AtHowToUse, found (Scraper.how_to_use_section s))
  else if (k =? "product_details")%string then
    Some (Scraper.AtDetails, found (Scraper.product_details_section s))
  else None.

(** The same for [scrape_with_extended_timeout], which assigns the name,
    the brand and the ingredients fields only. *)
Definition field_source_extended (s : Scraper.soup) (k : string)
  : option (Scraper.stage * bool) :=
  if (k =? "product_name")%string then
    Some (Scraper.AtName,
          found (Scraper.first_selected s Scraper.product_name_selectors))
  else if (k =? "brand")%string then
    Some (Scraper.AtBrand,
          found (Scraper.first_selected s Scraper.brand_selectors)
          || match Scraper.product_name_of s with
             | Some name => brand_in_name name
             | None => false
             end)
  else if (k =? "ingredients")%string then
    Some (Scraper.AtIngredients, found (Scraper.extract_ingredients s))
  else if (k =? "ingredients_count")%string then
    Some (Scraper.AtIngredients,
          match Scraper.extract_ingredients s with
          | Some text => truthy text
          | None => false
          end)
  else None.

Definition yields_by (sources : Scraper.soup -> string -> option (Scraper.stage * bool))
    (pg : Scraper.page) (k : string) : bool :=
  match sources (Scraper.p_soup pg) k with
  | Some (st, present) => reached pg st && present
  | None => false
  end.

(** Scraping the page extracts the field [k]: its block is run and the
    document has a source for it. *)
Definition yields : Scraper.page -> string -> bool := yields_by field_source.

Definition yields_extended : Scraper.page -> string -> bool :=
  yields_by field_source_extended.

End WithDb.

(** The response is a page that is scraped: status 200. *)
Definition scraped_page (r : Scraper.response) : option Scraper.page :=
  match r with
  | Scraper.Http status pg => if (status =? 200)%Z then Some pg else None
  | Scraper.NetworkError => None
  end.

(** The number of attempts to navigate among the events of a call. *)
Definition attempts_made (events : list Advanced.nav_event) : nat :=
  length (filter (fun e => Advanced.is_attempt e = true) events).

End Notions.

(** ** Example pages *)

Module Examples.
Import Scraper.

(** A page on which the first ingredients selector matches an element
    that does not mention ingredients, and the second the list. *)
Definition two_selector_page : soup :=
  {| select := fun selector =>
       if bool_decide (selector = ".product-ingredients"%string)
       then [str "Contains nuts"]
       else if bool_decide (selector = ".ingredients-list"%string)
       then [str "Ingredients: Aqua, Glycerin, Parfum, Alcohol"]
       else [];
     headers := []; accordion_items := []; paragraphs := []; json_ld := [];
     text_blocks := []; info_sections := [];
     hazards_section := None; how_to_use_section := None;
     product_details_section := None |}.

(** A page with a title and a brand element. *)
Definition titled_page : soup :=
  {| select := fun selector =>
       if bool_decide (selector = "title"%string)
       then [str "Day Cream | Boots"]
       else if bool_decide (selector = ".brand-name"%string)
       then [str " No7 "]
       else [];
     headers := []; accordion_items := []; paragraphs := []; json_ld := [];
     text_blocks := []; info_sections := [];
     hazards_section := None; how_to_use_section := None;
     product_details_section := None |}.

(** A row of a product table that has a list, and neither an ingredients
    text nor a count. *)
Definition listed_row : gmap string pyval :=
  {[ "product_name"%string := PStr (str "Day Cream");
     "ingredients"%string := PNaN;
     "ingredients_count"%string := PNaN;
     "ingredients_list"%string := PStr (str "Aqua, Glycerin") ]}.

(** A row with an ingredients text. *)
Definition raw_row : gmap string pyval :=
  {[ "product_name"%string := PStr (str "Day Cream");
     "ingredients"%string := PStr (str "Ingredients: Aqua, Glycerin, Parfum.") ]}.

(** A page with a name and nothing else, met after a network error. *)
Definition named_page : page :=
  {| p_soup :=
       {| select := fun selector =>
            if bool_decide (selector = "h1.product-details-tile__title"%string)
            then [str " Day Cream "] else [];
          headers := []; accordion_items := []; paragraphs := [];
          json_ld := []; text_blocks := []; info_sections := [];
          hazards_section := None; how_to_use_section := None;
          product_details_section := None |};
     p_fault := None |}.

Definition error_then_named : nat -> response :=
  fun i => match i with 0 => NetworkError | _ => Http 200 named_page end.

(** A table with the URL column, a missing value and a repeated URL. *)
Definition url_table : csv_file :=
  Table [ (str "name", [CStr (str "a"); CStr (str "b"); CStr (str "c"); CStr (str "d")]);
          (str "oct-link href 2",
           [CStr (str "https://x/1"); CNull; CStr (str "https://x/2");
            CStr (str "https://x/1")]) ].

End Examples.

(** * The rest of the scripts *)

(** ** cosmetics_scraper.py: saving the records *)

Module Saving.
Import Scraper.

(** [', '.join(v)] and [[str(x) for x in v]] iterate over the value: a
    list gives its elements, a string its characters, anything else
    raises [TypeError].  (A list is a list of strings here; the elements
    of a list loaded from a JSON file may be of other types, which the
    type of values does not describe.) *)
Definition iterate (v : pyval) : option (list pystr) :=
  match v with
  | PList l => Some l
  | PStr s => Some (map (fun c => [c]) s)
  | _ => None
  end.

(** The body of the loop of [save_to_csv]: the copy of a product that goes
    into the table, [None] when [join] raises. *)
Definition csv_copy (product : gmap string pyval) : option (gmap string pyval) :=
  match product !! "ingredients_list"%string with
  | None | Some PNone => Some product
  | Some v =>
      items ← iterate v;
      Some (<["ingredients_list"%string := PStr (join (str ", ") items)]> product)
  end.

(** The body of the loop of [save_to_json]. *)
Definition serializable_product (product : gmap string pyval)
  : option (gmap string pyval) :=
  match product !! "ingredients_list"%string with
  | None => Some product
  | Some v =>
      items ← iterate v;
      Some (<["ingredients_list"%string := PList items]> product)
  end.

(** What a call leaves in the file: nothing (an empty list of products is
    not saved), or the rows. *)
Inductive saved :=
| NotSaved
| Saved (rows : list (gmap string pyval)).

(** [save_to_csv] and [save_to_json] up to the call that writes the file;
    [None] when the loop raises. *)
Definition save_with (copy : gmap string pyval -> option (gmap string pyval))
    (product_data_list : list (gmap string pyval)) : option saved :=
  match product_data_list with
  | [] => Some NotSaved
  | _ => Saved <$> mapM copy product_data_list
  end.

Definition save_to_csv := save_with csv_copy.
Definition save_to_json := save_with serializable_product.

End Saving.

(** ** cosmetics_scraper.py: main *)

Module ScraperMain.
Import Scraper.

(** The test [main] and [retry_failed_urls] make of a record:
    [product_data and (product_data.get('product_name') or
    product_data.get('brand') or product_data.get('ingredients'))]. *)
Definition has_data (product_data : gmap string pyval) : bool :=
  negb (bool_decide (product_data = ∅))
  && (truthy_val (row_get "product_name" product_data)
      || truthy_val (row_get "brand" product_data)
      || truthy_val (row_get "ingredients" product_data)).

Section WithDb.
Context {U : UnicodeDb}.

(** The body of the loop of [main] over the products loaded from the
    progress file: a product with an ingredients value that is true and no
    [ingredients_list] gets its count and list; [None] when [re.sub] raises
    [TypeError], the value not being a string. *)
Definition backfill (product : gmap string pyval) : option (gmap string pyval) :=
  match product !! "ingredients"%string, product !! "ingredients_list"%string with
  | Some v, None =>
      if truthy_val v then
        match v with
        | PStr ingredients_text => Some (assign_all product (count_fields ingredients_text))
        | _ => None
        end
      else Some product
  | _, _ => Some product
  end.

(** A value that can be put into a set: a list cannot. *)
Definition hashable (v : pyval) : bool :=
  match v with PList _ => false | _ => true end.

(** [all_product_data] after the block that loads the progress.
    [progress] is what [json.load] gives, a list of products, or [None]
    when there is no file or it cannot be read; [backup_raises] tells
    whether writing the backup raises.  An exception anywhere in the block
    (in the loop, in the set comprehension over the URLs, in the backup)
    leaves the empty list. *)
Definition load_progress (progress : option (list (gmap string pyval)))
    (backup_raises : bool) : list (gmap string pyval) :=
  match progress with
  | Some products =>
      match mapM backfill products with
      | Some all_product_data =>
          if forallb (fun product => hashable (row_get "url" product)) all_product_data
             && negb backup_raises
          then all_product_data
          else []
      | None => []
      end
  | None => []
  end.

End WithDb.

Definition SAVE_INTERVAL : nat := 10.

(** The three lists [main] fills while it collects the results. *)
Record lists := Lists {
  all_product_data : list (gmap string pyval);
  failed_urls : list pystr;
  redirect_urls : list pystr
}.

(** What one iteration of the loop over the completed tasks meets: the URL
    of the task (a string), what [future.result()] gives (the record, or
    [None] when it raises), and which of the calls that write a file
    raise: the write into the log in the [try] body, the saving of the
    progress, the write into the log in the [except] clause. *)
Record completed := Completed {
  c_url : pystr;
  c_result : option (gmap string pyval);
  c_log_raises : bool;
  c_save_raises : bool;
  c_handler_raises : bool
}.

Definition is_redirect (url : pystr) : bool :=
  contains (str "webapp/wcs/stores/servlet/ProductDisplay") url.

(** The [try] body of the iteration with index [i]: whether it ends
    without an exception, and the lists after it.  [save_product_data]
    raises when [save_to_csv] does, or when writing the files does. *)
Definition try_body (i : nat) (c : completed) (l : lists) : bool * lists :=
  match c_result c with
  | None => (false, l)
  | Some product_data =>
      let '(written, l1) :=
        if has_data product_data then
          (true, Lists (all_product_data l ++ [product_data])
                       (failed_urls l) (redirect_urls l))
        else if is_redirect (c_url c) then
          (negb (c_log_raises c),
           Lists (all_product_data l) (failed_urls l) (redirect_urls l ++ [c_url c]))
        else
          (negb (c_log_raises c),
           Lists (all_product_data l) (failed_urls l ++ [c_url c]) (redirect_urls l))
      in
      if written then
        if ((i + 1) mod SAVE_INTERVAL =? 0) then
          match Saving.save_to_csv (all_product_data l1) with
          | Some _ => (negb (c_save_raises c), l1)
          | None => (false, l1)
          end
        else (true, l1)
      else (false, l1)
  end.

(** One iteration: the [try] body, and the [except] clause when the body
    raised.  [None] when the [except] clause itself raises, which ends
    [main]. *)
Definition iteration (i : nat) (c : completed) (l : lists) : option lists :=
  let '(ended, l1) := try_body i c l in
  if ended then Some l1
  else if c_handler_raises c then None
  else Some (Lists (all_product_data l1) (failed_urls l1 ++ [c_url c])
                   (redirect_urls l1)).

(** The loop over [enumerate(as_completed(future_to_url))], from the
    index [i] on. *)
Fixpoint collect (i : nat) (tasks : list completed) (l : lists) : option lists :=
  match tasks with
  | [] => Some l
  | c :: rest =>
      match iteration i c l with
      | Some l1 => collect (S i) rest l1
      | None => None
      end
  end.

(** The record of a task, when the task has given one with data. *)
Definition with_data (c : completed) : option (gmap string pyval) :=
  match c_result c with
  | Some product_data => if has_data product_data then Some product_data else None
  | None => None
  end.

(** What a retry meets: the URL the record is scraped from (the URL
    itself, or the one the direct URL of a redirect URL leads to; [None]
    when the [try] body raises before the scraping), the time, and the
    response to the scraping request. *)
Record retry := Retry {
  r_url : option pystr;
  r_timestamp : pystr;
  r_response : response
}.

Section WithDb.
Context {U : UnicodeDb}.

(** The record of a retry, when the [try] body comes to scrape. *)
Definition retry_record (r : retry) : option (gmap string pyval) :=
  url ← r_url r;
  Some (scrape_with_extended_timeout url (r_timestamp r) (r_response r)).

(** The loop of [retry_failed_urls] over [urls_to_retry]; [meet i url] is
    what the retry of the URL at the index [i] meets. *)
Fixpoint retries (meet : nat -> pystr -> retry) (i : nat) (urls_to_retry : list pystr)
    (all_product_data : list (gmap string pyval)) (successful_retries : nat)
  : list (gmap string pyval) * nat :=
  match urls_to_retry with
  | [] => (all_product_data, successful_retries)
  | url :: rest =>
      match retry_record (meet i url) with
      | Some product_data =>
          if has_data product_data then
            retries meet (S i) rest (all_product_data ++ [product_data])
                    (S successful_retries)
          else retries meet (S i) rest all_product_data successful_retries
      | None => retries meet (S i) rest all_product_data successful_retries
      end
  end.


End WithDb.

(** Where the URL of a task without data belongs. *)
Definition to_redirect (c : completed) : bool :=
  match with_data c with
  | Some _ => false
  | None => is_redirect (c_url c)
  end.

Definition to_failed (c : completed) : bool :=
  match with_data c with
  | Some _ => false
  | None => negb (is_redirect (c_url c))
  end.

(** An iteration in which no call raises: the task has given a record,
    which [save_to_csv] can write, and the files are written. *)
Definition quiet (c : completed) : Prop :=
  (exists product_data,
      c_result c = Some product_data /\ is_Some (Saving.csv_copy product_data))
  /\ c_log_raises c = false /\ c_save_raises c = false.

End ScraperMain.

(** ** The batches of the clean-up scripts *)

Module Batches.

(** [range(0, stop, step)] for a positive [step]: the multiples of [step]
    below [stop]; there are [(stop + step - 1) // step] of them. *)
Definition range_by (stop step : nat) : list nat :=
  map (fun k => k * step) (seq 0 ((stop + step - 1) / step)).

(** [df.iloc[i:end]], the table being the list of its rows. *)
Definition iloc {A} (df : list A) (i end_ : nat) : list A := drop i (take end_ df).

End Batches.

(** ** batch_fix_ingredients.py: main *)

Module BatchFixMain.
Import BatchFix BatchFixRows Batches.

Definition batch_size : nat := 100.

Section WithDb.
Context {U : UnicodeDb}.

(** The loop over the batches: [all_results], [total_processed] and
    [total_success] when it ends. *)
Definition main_loop (df : list (gmap string pyval))
  : list (gmap string pyval) * nat * nat :=
  let total_rows := length df in
  foldl (fun '(all_results, total_processed, total_success) i =>
           let end_ := (i + batch_size) `min` total_rows in
           let batch_df := iloc df i end_ in
           let '(batch_results, success_count) := process_batch batch_df in
           (all_results ++ batch_results,
            total_processed + length batch_results,
            total_success + success_count))
        ([], 0, 0) (range_by total_rows batch_size).

End WithDb.
End BatchFixMain.

(** ** final_fix_ingredients.py: process_batch and main *)

Module FinalFixMain.
Import BatchFix FinalFix Batches.

Definition batch_size : nat := 100.

Section WithDb.
Context {U : UnicodeDb}.

(** The loop of [process_batch] over the rows of the copied batch, each
    with its index: [df] is updated in place at the index; a row without
    an [ingredients] cell raises [KeyError], which leaves the updates made
    so far. *)
Fixpoint batch_rows (rows : list (nat * gmap string pyval)) (updated_count : nat)
    (df : list (gmap string pyval)) : option nat * list (gmap string pyval) :=
  match rows with
  | [] => (Some updated_count, df)
  | (idx, row) :: rest =>
      match row !! "ingredients"%string with
      | None => (None, df)
      | Some ingredients_text =>
          let '(cleaned_text, ingredients_list) :=
            extract_and_clean_ingredients ingredients_text in
          match ingredients_list with
          | [] => batch_rows rest updated_count df
          | _ =>
              batch_rows rest (S updated_count)
                (alter (fun r => assign_all r (fixed_fields cleaned_text ingredients_list))
                       idx df)
          end
      end
  end.

(** [process_batch(df, start_idx, end_idx)]: the count it returns ([None]
    when it raises) and [df] afterwards.  The index of the table is the
    position of the row, as [pd.read_csv] makes it. *)
Definition process_batch (df : list (gmap string pyval)) (start_idx end_idx : nat)
  : option nat * list (gmap string pyval) :=
  let batch_df := iloc df start_idx end_idx in
  batch_rows (zip (seq start_idx (length batch_df)) batch_df) 0 df.

(** The loop of [main] over the batches.  The progress file written after
    every fifth batch is left out: the loop is followed up to an exception
    of [process_batch]. *)
Fixpoint batches (total_products : nat) (starts : list nat) (total_updated : nat)
    (df : list (gmap string pyval)) : option nat * list (gmap string pyval) :=
  match starts with
  | [] => (Some total_updated, df)
  | start_idx :: rest =>
      let end_idx := (start_idx + batch_size) `min` total_products in
      match process_batch df start_idx end_idx with
      | (Some batch_updated, df') =>
          batches total_products rest (total_updated + batch_updated) df'
      | (None, df') => (None, df')
      end
  end.

Definition main_loop (df : list (gmap string pyval))
  : option nat * list (gmap string pyval) :=
  let total_products := length df in
  batches total_products (range_by total_products batch_size) 0 df.

End WithDb.
End FinalFixMain.

(** ** fix_sample.py: main *)

Module FixSampleMain.
Import BatchFix FinalFix.

Definition sample_size : nat := 50.

(** The two tables of [main]: [df], and the sample [df.sample(sample_size)]
    drew from it, a table of its own whose rows keep their index in [df]. *)
Record tables := Tables {
  df : list (gmap string pyval);
  df_sample : list (nat * gmap string pyval)
}.

Section WithDb.
Context {U : UnicodeDb}.

(** The loop over [df_sample.iterrows()]: the updates are made in [df], at
    the index of the row. *)
Fixpoint sample_loop (rows : list (nat * gmap string pyval)) (updated_count : nat)
    (t : tables) : option nat * tables :=
  match rows with
  | [] => (Some updated_count, t)
  | (idx, row) :: rest =>
      match row !! "ingredients"%string with
      | None => (None, t)
      | Some ingredients_text =>
          let '(cleaned_text, ingredients_list) :=
            extract_and_clean_ingredients_sample ingredients_text in
          match ingredients_list with
          | [] => sample_loop rest updated_count t
          | _ =>
              sample_loop rest (S updated_count)
                (Tables
                   (alter (fun r => assign_all r (fixed_fields cleaned_text ingredients_list))
                          idx (df t))
                   (df_sample t))
          end
      end
  end.

(** [main] up to the call that writes the sample: the count it prints and
    the rows it writes, [None] when an exception ends the script.
    [picked] are the positions [df.sample] draws; it raises when the table
    has fewer rows than the sample. *)
Definition main (table : list (gmap string pyval)) (picked : list nat)
  : option (nat * list (gmap string pyval)) :=
  if length table <? sample_size then None
  else
    let t := Tables table (omap (fun i => pair i <$> table !! i) picked) in
    match sample_loop (df_sample t) 0 t with
    | (Some updated_count, t') => Some (updated_count, (df_sample t').*2)
    | (None, _) => None
    end.

End WithDb.
End FixSampleMain.

(** ** fix_ingredients_list.py: fix_database *)

Module FixDatabase.
Import BatchFix.

(** [pd.notna] of a cell *)
Definition notna (v : pyval) : bool :=
  match v with PNone | PNaN => false | _ => true end.

(** [working_df.loc[idx, ...] = ...]: the row with the label [idx] is
    updated. *)
Definition update_label (idx : nat) (f : gmap string pyval -> gmap string pyval)
    (working_df : list (nat * gmap string pyval)) : list (nat * gmap string pyval) :=
  map (fun labelled => if decide (labelled.1 = idx) then (labelled.1, f labelled.2)
                       else labelled)
      working_df.

(** [df.head(n)]: the first [n] rows, or all but the last [-n] when [n] is
    negative. *)
Definition head_rows {A} (n : Z) (rows : list A) : list A :=
  if (0 <=? n)%Z then take (Z.to_nat n) rows
  else take (length rows - Z.to_nat (- n)) rows.

(** The table the function works on: in test mode the head of the rows
    with an ingredients value, each with its label; otherwise all the
    rows.  [None] when a row has no [ingredients] cell, which raises in
    test mode (a table without rows is taken to have the column). *)
Definition select_working (test_mode : bool) (sample_size : Z)
    (df : list (gmap string pyval)) : option (list (nat * gmap string pyval)) :=
  if test_mode then
    if forallb (fun row => bool_decide (is_Some (row !! "ingredients"%string))) df then
      Some (head_rows sample_size
              (filter (fun labelled => notna (row_get "ingredients" labelled.2) = true)
                      (imap pair df)))
    else None
  else Some (imap pair df).

Section WithDb.
Context {U : UnicodeDb}.

(** The loop over [working_df.iterrows()]: [updated_count],
    [success_count] and the table when it ends; [None] for the counts when
    a row has no [ingredients] cell. *)
Fixpoint fix_rows (rows : list (nat * gmap string pyval))
    (updated_count success_count : nat) (working_df : list (nat * gmap string pyval))
  : option (nat * nat) * list (nat * gmap string pyval) :=
  match rows with
  | [] => (Some (updated_count, success_count), working_df)
  | (idx, row) :: rest =>
      match row !! "ingredients"%string with
      | None => (None, working_df)
      | Some ingredients_text =>
          if missing_text ingredients_text then
            fix_rows rest updated_count success_count working_df
          else
            let cleaned_text := clean_ingredients_text ingredients_text in
            let ingredients_list := extract_ingredients_list cleaned_text in
            match ingredients_list with
            | [] => fix_rows rest (S updated_count) success_count working_df
            | _ =>
                fix_rows rest (S updated_count) (S success_count)
                  (update_label idx
                     (fun r => assign_all r (fixed_fields cleaned_text ingredients_list))
                     working_df)
            end
      end
  end.

(** [fix_database] up to the call that writes the table: the counts and
    the rows written, [None] when an exception is caught. *)
Definition fix_database (df : list (gmap string pyval)) (test_mode : bool)
    (sample_size : Z) : option (nat * nat * list (gmap string pyval)) :=
  working_df ← select_working test_mode sample_size df;
  match fix_rows working_df 0 0 working_df with
  | (Some (updated_count, success_count), working_df') =>
      Some (updated_count, success_count, working_df'.*2)
  | (None, _) => None
  end.

End WithDb.
End FixDatabase.

(** ** final_fix_ingredients.py and fix_ingredients_list.py: the rows for
    the JSON file *)

Module JsonRows.
Import BatchFixRows.

(** The test [if pd.isna(val):].  For a scalar, [pd.isna] tells whether it
    is missing.  For a list it returns an array with one entry per
    element, and the truth value of an array is that of its entry when it
    has one, and raises [ValueError] when it has more; what the truth value
    of an empty array is depends on the version of numpy, and is the
    parameter [empty_array]. *)
Definition isna_test (empty_array : option bool) (val : pyval) : option bool :=
  match val with
  | PNone | PNaN => Some true
  | PList [] => empty_array
  | PList [_] => Some false
  | PList _ => None
  | _ => Some false
  end.

(** One iteration of [for key, val in row_dict.items(): if pd.isna(val):
    row_dict[key] = None], and the loop; [None] when the test raises.  The
    items are visited in the order of the map, which the outcome does not
    depend on. *)
Definition nan_step (empty_array : option bool)
    (acc : option (gmap string pyval)) (item : string * pyval)
  : option (gmap string pyval) :=
  row_dict ← acc;
  missing ← isna_test empty_array item.2;
  Some (if missing : bool then <[item.1 := PNone]> row_dict else row_dict).

Definition nan_to_none (empty_array : option bool) (row_dict : gmap string pyval)
  : option (gmap string pyval) :=
  foldl (nan_step empty_array) (Some row_dict) (map_to_list row_dict).

(** The body of the loop over the rows: the dictionary appended to
    [serializable_data]. *)
Definition json_row (empty_array : option bool) (row : gmap string pyval)
  : option (gmap string pyval) :=
  nan_to_none empty_array (to_serializable row).

(** The loop over the rows of the table. *)
Definition json_rows (empty_array : option bool) (df : list (gmap string pyval))
  : option (list (gmap string pyval)) :=
  mapM (json_row empty_array) df.

End JsonRows.

(** ** backup/boots_advanced_scraper.py: _extract_product_id *)

Module ProductId.
Import Scraper.

Section WithDb.
Context {U : UnicodeDb}.

(** [str.isdecimal] of a character above U+007F: the class [\d] of a [str]
    pattern holds the decimal digits of the Unicode database. *)
Variable uni_isdecimal : N -> bool.

Definition is_decimal (c : N) : bool :=
  if (c <? 128)%N then is_digit c else uni_isdecimal c.

(** The class [[-/]] *)
Definition dash_or_slash : regex := Chr (fun c => (c =? 45) || (c =? 47))%N.

(** r'(\d+)$' *)
Definition pattern1 : regex := (Group (plus (Chr is_decimal)) ~~ Eol)%re.

(** r'[-/](\d+)[-/]' *)
Definition pattern2 : regex :=
  (dash_or_slash ~~ Group (plus (Chr is_decimal)) ~~ dash_or_slash)%re.

(** The third pattern: [[-/](\d+)], then a non-capturing group of any
    number of characters of [[^0-9/]], then [$]. *)
Definition pattern3 : regex :=
  (dash_or_slash ~~ Group (plus (Chr is_decimal))
   ~~ Star true (Chr (fun c => negb (is_digit c || (c =? 47)%N))) ~~ Eol)%re.

(** The first pattern found in the URL gives its group; the empty string
    when none is found. *)
Definition _extract_product_id (url : pystr) : pystr :=
  default [] (first_group [pattern1; pattern2; pattern3] url).

End WithDb.
End ProductId.

(** ** What a match of a pattern reads *)

Module ReSem.

Section WithDb.
Context {U : UnicodeDb}.

(** [Matches r s s']: the pattern [r] matches from the position [s] to
    the position [s'], whatever the order in which [re] tries the ways of
    matching. *)
Inductive Matches : regex -> mstate -> mstate -> Prop :=
| M_Eps s : Matches Eps s s
| M_Chr (p : N -> bool) c t s :
    m_rest s = c :: t -> p c = true -> Matches (Chr p) s (advance c t s)
| M_Seq r1 r2 s s1 s2 :
    Matches r1 s s1 -> Matches r2 s1 s2 -> Matches (Seq r1 r2) s s2
| M_AltL r1 r2 s s' : Matches r1 s s' -> Matches (Alt r1 r2) s s'
| M_AltR r1 r2 s s' : Matches r2 s s' -> Matches (Alt r1 r2) s s'
| M_Star0 g r s : Matches (Star g r) s s
| M_StarS g r s s1 s2 :
    Matches r s s1 -> Matches (Star g r) s1 s2 -> Matches (Star g r) s s2
| M_Group r s s' : Matches r s s' -> Matches (Group r) s (set_cap (m_pos s) s')
| M_Bol s : m_prev s = None -> Matches Bol s s
| M_Eol s : at_eol s = true -> Matches Eol s s
| M_WordB s : at_wordb s = true -> Matches WordB s s.

End WithDb.

(** Every character class of the pattern lies within [p]. *)
Fixpoint chars_in (p : N -> bool) (r : regex) : Prop :=
  match r with
  | Chr q => forall c, q c = true -> p c = true
  | Seq r1 r2 | Alt r1 r2 => chars_in p r1 /\ chars_in p r2
  | Star _ r1 | Group r1 => chars_in p r1
  | _ => True
  end.

(** The capturing group of the pattern reads characters of [p] only. *)
Fixpoint group_in (p : N -> bool) (r : regex) : Prop :=
  match r with
  | Group r1 => chars_in p r1
  | Seq r1 r2 | Alt r1 r2 => group_in p r1 /\ group_in p r2
  | Star _ r1 => group_in p r1
  | _ => True
  end.


(** The position [s] is a position of the subject [text]. *)
Definition at_text (text : pystr) (s : mstate) : Prop :=
  m_pos s <= length text /\ m_rest s = drop (m_pos s) text.

(** What the position has as group 1 consists of characters of [p]. *)
Definition cap_in (p : N -> bool) (text : pystr) (s : mstate) : Prop :=
  match m_cap s with
  | Some (a, b) => Forall (fun c => p c = true) (take (b - a) (drop a text))
  | None => True
  end.

End ReSem.

(** ** Notions the further properties are stated with *)

Module MoreNotions.
Import Scraper.

(** The field [ingredients_list] of a record the scraper made: absent, or
    the list of the comma-separated pieces of some text. *)
Definition scraper_list (product_data : gmap string pyval) : Prop :=
  match product_data !! "ingredients_list"%string with
  | None => True
  | Some (PList items) => exists text, items = comma_items text
  | Some _ => False
  end.

Section WithDb.
Context {U : UnicodeDb}.

(** A record one of the two scraping functions returned. *)
Definition scraped (product_data : gmap string pyval) : Prop :=
  (exists fuel url timestamp responses requests,
      scrape_boots_product fuel url timestamp responses
      = Some (product_data, requests))
  \/ (exists url timestamp r,
         product_data = scrape_with_extended_timeout url timestamp r).

End WithDb.

Section WithDb.
Context {U : UnicodeDb}.

(** The row as final_fix_ingredients.py leaves it. *)
Definition final_row (row : gmap string pyval) : gmap string pyval :=
  assign_all row (FinalFix.row_fields (row_get "ingredients" row)).

(** The row is one the script updates: its text yields a list. *)
Definition final_updated (row : gmap string pyval) : bool :=
  match (FinalFix.extract_and_clean_ingredients (row_get "ingredients" row)).2 with
  | [] => false
  | _ => true
  end.

(** The row as fix_ingredients_list.py leaves it. *)
Definition fixed_row (row : gmap string pyval) : gmap string pyval :=
  assign_all row (FixIngredientsList.row_fields (row_get "ingredients" row)).

(** The row has an ingredients text: the loop of [fix_database] does not
    skip it. *)
Definition has_text (row : gmap string pyval) : bool :=
  negb (missing_text (row_get "ingredients" row)).

(** The text of the row yields a list. *)
Definition has_list (row : gmap string pyval) : bool :=
  has_text row
  && match BatchFix.extract_ingredients_list
             (BatchFix.clean_ingredients_text (row_get "ingredients" row)) with
     | [] => false
     | _ => true
     end.

(** The number of rows with a text, and of rows whose text yields a list. *)
Definition with_text (rows : list (gmap string pyval)) : nat :=
  length (filter (fun row => has_text row = true) rows).

Definition with_list (rows : list (gmap string pyval)) : nat :=
  length (filter (fun row => has_list row = true) rows).

(** The sampled row yields a list, in fix_sample.py. *)
Definition sample_updated (row : gmap string pyval) : bool :=
  match (FinalFix.extract_and_clean_ingredients_sample (row_get "ingredients" row)).2 with
  | [] => false
  | _ => true
  end.

(** The number of rows of the table that it updates. *)
Definition updated_rows (df : list (gmap string pyval)) : nat :=
  length (filter (fun row => final_updated row = true) df).

End WithDb.

(** A character an ingredient name of the clean-up scripts may hold: none
    of ':', '*', '+', '.', ',' and '|', and no white space but the blank. *)
Definition name_char (c : N) : bool :=
  negb (Notions.is_deleted c) && negb (c =? 44)%N && negb (c =? 124)%N
  && (negb (is_space c) || (c =? 32)%N).

(** The class [[A-Za-z\s]] under [re.IGNORECASE]. *)
Definition is_letter_or_space (c : N) : bool := is_lower (fold_ci c) || is_space c.

(** What the field [country_of_origin] may hold: [None], or a string of
    letters and white space without white space at its ends. *)
Definition country_value (v : option pyval) : Prop :=
  match v with
  | Some PNone => True
  | Some (PStr s) =>
      Forall (fun c => is_letter_or_space c = true) s /\ strip s = s
  | _ => False
  end.



End MoreNotions.

(** ** Further examples *)

Module MoreExamples.
Import Scraper.

(** A page whose only content is an accordion item with the ingredients. *)
Definition accordion_page : soup :=
  {| select := fun _ => []; headers := [];
     accordion_items :=
       [ {| a_title := Some (str "Ingredients");
            a_content := Some (str "Aqua, Glycerin, Parfum, Alcohol Denat") |} ];
     paragraphs := []; json_ld := []; text_blocks := []; info_sections := [];
     hazards_section := None; how_to_use_section := None;
     product_details_section := None |}.

(** Three requests that meet the server's refusal. *)
Definition refused : nat -> response := fun _ => Http 403 (Page accordion_page None).

(** A refusal, then the page. *)
Definition refused_then_page : nat -> response :=
  fun i => match i with
           | 0 => Http 403 (Page accordion_page None)
           | _ => Http 200 (Page accordion_page None)
           end.

(** A table of two rows, one with an ingredients text and one without. *)
Definition two_rows : list (gmap string pyval) :=
  [ {[ "ingredients"%string := PStr (str "Aqua, Glycerin") ]};
    {[ "ingredients"%string := PNaN ]} ].

(** Three completed tasks: a record with data, an empty result for a
    redirect URL, and a task that raised. *)
Definition three_tasks : list ScraperMain.completed :=
  [ ScraperMain.Completed (str "https://www.boots.com/a")
      (Some {[ "brand"%string := PStr (str "Boots") ]}) false false false;
    ScraperMain.Completed (str "https://www.boots.com/webapp/wcs/stores/servlet/ProductDisplay?productId=1")
      (Some ∅) false false false;
    ScraperMain.Completed (str "https://www.boots.com/c") None false false false ].

(** A page whose information section names the country. *)
Definition origin_page : page :=
  {| p_soup :=
       {| select := fun _ => []; headers := []; accordion_items := [];
          paragraphs := []; json_ld := []; text_blocks := [];
          info_sections := [str "Made in France. Store in a cool place"];
          hazards_section := None; how_to_use_section := None;
          product_details_section := None |};
     p_fault := None |}.


(** A progress file whose second product has a number as ingredients. *)
Definition bad_progress : list (gmap string pyval) :=
  [ {[ "url"%string := PStr (str "https://www.boots.com/a");
       "ingredients"%string := PStr (str "Aqua, Glycerin") ]};
    {[ "url"%string := PStr (str "https://www.boots.com/b");
       "ingredients"%string := PInt 5 ]} ].

(** A table of fifty rows with the same ingredients text. *)
Definition fifty_rows : list (gmap string pyval) :=
  replicate 50 {[ "ingredients"%string := PStr (str "Aqua, Glycerin") ]}.

End MoreExamples.

(** * Facts *)

(** ** The matcher *)

Module ReFacts.
Import ReAux.

Section WithDb.
Context {U : UnicodeDb}.

Implicit Types (r : regex) (s : mstate) (k : cont) (p : N -> bool).

Lemma star_loop_S g (body : mstate -> cont -> option mstate) fuel s k :
  star_loop g body (S fuel) s k =
  let again := body s (fun s' => if length (m_rest s') <? length (m_rest s)
                                 then star_loop g body fuel s' k else None) in
  if g then match again with Some x => Some x | None => k s end
  else match k s with Some x => Some x | None => again end.
Proof. by destruct g. Qed.

(** A continuation that refuses every later position makes the match fail. *)
Lemma star_loop_none g (body : mstate -> cont -> option mstate) fuel s k :
  (forall s1 k1, (forall s2, m_rest s2 `suffix_of` m_rest s1 -> k1 s2 = None) ->
                 body s1 k1 = None) ->
  (forall s2, m_rest s2 `suffix_of` m_rest s -> k s2 = None) ->
  star_loop g body fuel s k = None.
Proof.
  intros Hbody. revert s. induction fuel as [|fuel IH]; intros s Hk.
  - by apply Hk.
  - rewrite star_loop_S. cbv zeta.
    assert (body s (fun s' => if length (m_rest s') <? length (m_rest s)
                              then star_loop g body fuel s' k else None) = None) as Hb.
    { apply Hbody. intros s2 Hs2. destruct (_ <? _); [|done].
      apply IH. intros s3 Hs3. apply Hk. by etrans. }
    destruct g; rewrite Hb; [by apply Hk|]. by rewrite (Hk s).
Qed.

Lemma run_none r : forall s k,
  (forall s2, m_rest s2 `suffix_of` m_rest s -> k s2 = None) -> run r s k = None.
Proof.
  induction r as [|p|r1 IH1 r2 IH2|r1 IH1 r2 IH2|g r1 IH1|r1 IH1| | |];
    intros s k Hk; simpl.
  - by apply Hk.
  - destruct s as [prev pos [|c t] cap]; simpl in *; [done|].
    destruct (p c); [|done]. apply Hk. simpl. by apply suffix_cons_r.
  - apply IH1. intros s2 H2. apply IH2. intros s3 H3. apply Hk. by etrans.
  - rewrite IH1 by done. by apply IH2.
  - apply star_loop_none; [|done]. intros s1 k1 H1. by apply IH1.
  - apply IH1. intros s2 H2. by apply Hk.
  - destruct (m_prev s); [done|]. by apply Hk.
  - destruct (at_eol s); [|done]. by apply Hk.
  - destruct (at_wordb s); [|done]. by apply Hk.
Qed.

(** A pattern that requires a character the subject does not have fails. *)
Lemma run_requires p r : Requires p r -> forall s k,
  Forall (fun c => p c = false) (m_rest s) -> run r s k = None.
Proof.
  induction r as [|q|r1 IH1 r2 IH2|r1 IH1 r2 IH2|g r1 IH1|r1 IH1| | |];
    simpl; try done.
  - intros Hq s k Hs. destruct s as [prev pos [|c t] cap]; simpl in *; [done|].
    destruct (q c) eqn:Eq; [|done]. apply Hq in Eq.
    apply Forall_cons in Hs as [Hc _]. congruence.
  - intros [H|H] s k Hs; [by apply IH1|].
    apply run_none. intros s2 H2. apply IH2; [done|].
    destruct H2 as [l El]. rewrite El in Hs. by apply Forall_app in Hs as [_ ?].
  - intros [H1 H2] s k Hs. rewrite IH1 by done. by apply IH2.
  - intros H s k Hs. by apply IH1.
Qed.

Lemma search_from_none r : forall rest prev pos,
  (forall prev' pos' rest', rest' `suffix_of` rest ->
     match_here r prev' pos' rest' = None) ->
  search_from r prev pos rest = None.
Proof.
  induction rest as [|c t IH]; intros prev pos H; simpl.
  - by rewrite H.
  - rewrite H by done. apply IH. intros prev' pos' rest' Hs.
    apply H. by apply suffix_cons_r.
Qed.

Lemma sub_from_none r repl : forall rest prev pos,
  (forall prev' pos' rest', rest' `suffix_of` rest ->
     match_here r prev' pos' rest' = None) ->
  sub_from r repl prev pos rest 0 = rest.
Proof.
  induction rest as [|c t IH]; intros prev pos H; simpl.
  - by rewrite H.
  - rewrite H by done. f_equal. apply IH. intros prev' pos' rest' Hs.
    apply H. by apply suffix_cons_r.
Qed.

Lemma match_here_requires p r prev pos rest :
  Requires p r -> Forall (fun c => p c = false) rest ->
  match_here r prev pos rest = None.
Proof. intros Hr Hs. by apply (run_requires p r Hr). Qed.

Lemma search_requires p r text :
  Requires p r -> Forall (fun c => p c = false) text -> search r text = None.
Proof.
  intros Hr Hs. apply search_from_none. intros prev pos rest [l ->].
  apply (match_here_requires p); [done|]. by apply Forall_app in Hs as [_ ?].
Qed.

Lemma sub_requires p r repl text :
  Requires p r -> Forall (fun c => p c = false) text -> sub r repl text = text.
Proof.
  intros Hr Hs. apply sub_from_none. intros prev pos rest [l ->].
  apply (match_here_requires p); [done|]. by apply Forall_app in Hs as [_ ?].
Qed.

(** With an empty replacement a substitution only deletes characters. *)
Lemma sub_from_sublist r : forall rest prev pos skip,
  sub_from r [] prev pos rest skip `sublist_of` rest.
Proof.
  induction rest as [|c t IH]; intros prev pos skip.
  - destruct skip; simpl; [|done]. destruct (match_here _ _ _ _); [|done].
    by destruct (_ - _).
  - destruct skip as [|skip]; simpl.
    + destruct (match_here _ _ _ _) as [e|].
      * destruct (m_pos e - pos); simpl.
        -- by apply sublist_skip.
        -- by apply sublist_cons.
      * by apply sublist_skip.
    + by apply sublist_cons.
Qed.

Lemma sub_sublist r text : sub r [] text `sublist_of` text.
Proof. apply sub_from_sublist. Qed.

Lemma run_Seq r1 r2 s k : run (r1 ~~ r2) s k = run r1 s (fun s' => run r2 s' k).
Proof. done. Qed.

Lemma run_Alt r1 r2 s k :
  run (r1 <|> r2) s k =
  match run r1 s k with Some x => Some x | None => run r2 s k end.
Proof. done. Qed.

Lemma run_Group r s k :
  run (Group r) s k = run r s (fun s' => k (set_cap (m_pos s) s')).
Proof. done. Qed.

Lemma run_Bol s k :
  run Bol s k = match m_prev s with None => k s | Some _ => None end.
Proof. done. Qed.

Lemma run_Eol s k : run Eol s k = if at_eol s then k s else None.
Proof. done. Qed.

Lemma run_WordB s k : run WordB s k = if at_wordb s then k s else None.
Proof. done. Qed.

Lemma run_Eps s k : run Eps s k = k s.
Proof. done. Qed.

Lemma run_Chr p s k :
  run (Chr p) s k =
  match m_rest s with
  | c :: t => if p c then k (advance c t s) else None
  | [] => None
  end.
Proof. done. Qed.

(** A greedy repetition of a character class is [greedy_chr]. *)
Lemma star_chr p k : forall rest prev pos cap fuel,
  length rest < fuel ->
  star_loop true (run (Chr p)) fuel (MState prev pos rest cap) k
  = greedy_chr p prev pos rest cap k.
Proof.
  induction rest as [|c t IH]; intros prev pos cap fuel Hf;
    (destruct fuel as [|fuel]; [simpl in Hf; lia|]);
    rewrite star_loop_S; cbv zeta; rewrite run_Chr;
    cbn [m_rest m_pos m_prev m_cap advance length greedy_chr].
  - done.
  - destruct (p c); [|done].
    assert ((length t <? S (length t)) = true) as -> by (apply Nat.ltb_lt; lia).
    change (advance c t _) with (MState (Some c) (S pos) t cap).
    rewrite IH by (simpl in Hf; lia). done.
Qed.

Lemma run_star_chr p s k :
  run (Star true (Chr p)) s k
  = greedy_chr p (m_prev s) (m_pos s) (m_rest s) (m_cap s) k.
Proof. destruct s as [prev pos rest cap]. simpl. apply star_chr. lia. Qed.

(** With a continuation that accepts everything, the class is read as far
    as it goes. *)
Lemma greedy_chr_accept p : forall rest prev pos cap,
  exists e, greedy_chr p prev pos rest cap Some = Some e
    /\ m_pos e = pos + length rest - length (drop_while p rest)
    /\ m_rest e = drop_while p rest /\ m_cap e = cap.
Proof.
  induction rest as [|c t IH]; intros prev pos cap; simpl.
  - eexists; split_and!; try done. simpl. lia.
  - destruct (p c) eqn:E.
    + destruct (IH (Some c) (S pos) cap) as (e & -> & Hpos & Hrest & Hcap).
      exists e. split_and!; try done. rewrite Hpos. lia.
    + eexists; split_and!; try done. simpl. lia.
Qed.

Lemma drop_while_length p text : length (drop_while p text) <= length text.
Proof. induction text as [|c t IH]; simpl; [lia|]. destruct (p c); simpl; lia. Qed.

End WithDb.
End ReFacts.

(** ** Character classes and what the patterns require *)

Module CharFacts.
Import ReAux ReFacts Patterns.

Lemma is_space_cases c :
  is_space c = true ->
  (9 <= c <= 13 \/ 28 <= c <= 32 \/ c = 133 \/ c = 160 \/ c = 5760
   \/ 8192 <= c <= 8202 \/ c = 8232 \/ c = 8233 \/ c = 8239 \/ c = 8287
   \/ c = 12288)%N.
Proof.
  unfold is_space, in_range.
  rewrite !orb_true_iff, !andb_true_iff, !N.leb_le, !N.eqb_eq. tauto.
Qed.

Lemma in_range_false lo hi c : (c < lo \/ hi < c)%N -> in_range lo hi c = false.
Proof.
  intros H. unfold in_range. apply andb_false_iff.
  rewrite !N.leb_gt. lia.
Qed.

Lemma eqb_false a b : a <> b -> (a =? b)%N = false.
Proof. apply N.eqb_neq. Qed.

(** Case folding leaves white space alone. *)
Lemma fold_ci_space c : is_space c = true -> fold_ci c = c.
Proof.
  intros H%is_space_cases. unfold fold_ci, is_upper.
  rewrite in_range_false by lia.
  rewrite !eqb_false by lia. done.
Qed.

Lemma is_alnum_not_space c : is_alnum c = true -> is_space c = false.
Proof.
  intros H. destruct (is_space c) eqn:E; [|done].
  apply is_space_cases in E. unfold is_alnum, is_lower, is_upper, is_digit in H.
  rewrite !in_range_false in H by lia. done.
Qed.

Lemma is_digit_not_space c : is_digit c = true -> not_space c = true.
Proof.
  intros H. unfold not_space. rewrite is_alnum_not_space; [done|].
  unfold is_alnum. rewrite H. by rewrite !orb_true_r.
Qed.

Lemma lit_requires (p : N -> bool) l : p l = true -> Requires p (lit l).
Proof. intros H c Hc. apply N.eqb_eq in Hc. by subst. Qed.

Lemma lit_ci_requires_not_space l :
  is_space (fold_ci l) = false -> Requires not_space (lit_ci l).
Proof.
  intros Hl c Hc. apply N.eqb_eq in Hc. unfold not_space.
  destruct (is_space c) eqn:E; [|done].
  rewrite fold_ci_space in Hc by done. congruence.
Qed.

Lemma seq_of_requires p f c t : Requires p (f c) -> Requires p (seq_of f (c :: t)).
Proof. intros H. destruct t; simpl; [done|by left]. Qed.

Lemma at_least_requires p n r : Requires p r -> Requires p (at_least (S n) r).
Proof. intros H. by left. Qed.

(** A literal word of a pattern, with a first character that is not white
    space, requires one. *)
Ltac requires_word :=
  unfold lits_ci, lits, ingredients_aigu, str;
  cbn [list_ascii_of_string map app];
  apply seq_of_requires;
  first [ apply lit_ci_requires_not_space; reflexivity
        | apply lit_requires; reflexivity ].

Lemma pattern1_requires : Requires not_space pattern1.
Proof. left. split; [|split]; requires_word. Qed.

Lemma pattern2_requires : Requires not_space pattern2.
Proof. left. apply (at_least_requires _ 4). intros c. apply is_digit_not_space. Qed.

Lemma pattern3_requires `{U : UnicodeDb} : Requires not_space pattern3.
Proof. left. requires_word. Qed.

Lemma html_tag_requires : Requires not_space html_tag.
Proof. left. by apply lit_requires. Qed.

Lemma boilerplate_requires `{U : UnicodeDb} : Requires not_space boilerplate.
Proof.
  unfold boilerplate.
  split; [requires_word|].
  split; [right; requires_word|].
  split; [right; left; requires_word|].
  split; [by apply lit_requires|].
  split; [by apply lit_requires|].
  split; [by apply lit_requires|].
  split; [by apply lit_requires|].
  right; left; requires_word.
Qed.

Lemma blank_not_space text :
  forallb is_space text = true -> Forall (fun c => not_space c = false) text.
Proof.
  induction text as [|c t IH]; simpl; [done|].
  intros [Hc Ht]%andb_prop. constructor; [|auto]. unfold not_space. by rewrite Hc.
Qed.

Lemma drop_while_all p text : forallb p text = true -> drop_while p text = [].
Proof.
  induction text as [|c t IH]; simpl; [done|].
  intros [-> Ht]%andb_prop. auto.
Qed.

Lemma drop_while_nil p text : drop_while p text = [] -> forallb p text = true.
Proof.
  induction text as [|c t IH]; simpl; [done|].
  destruct (p c); [auto|done].
Qed.

Lemma strip_blank text : forallb is_space text = true -> strip text = [].
Proof.
  intros H. unfold strip, lstrip. by rewrite drop_while_all.
Qed.

Lemma forallb_Forall {A} (p : A -> bool) (text : list A) :
  forallb p text = true <-> Forall (fun c => p c = true) text.
Proof.
  induction text as [|c t IH]; simpl; [done|].
  rewrite andb_true_iff, Forall_cons. by rewrite IH.
Qed.

Lemma strip_nil text : strip text = [] -> forallb is_space text = true.
Proof.
  unfold strip, rstrip, lstrip. intros H.
  apply (f_equal reverse) in H. rewrite reverse_involutive in H.
  change (reverse []) with (@nil N) in H. apply drop_while_nil in H.
  assert (forallb is_space (drop_while is_space text) = true) as H'.
  { apply forallb_Forall. apply forallb_Forall in H. by rewrite Forall_reverse in H. }
  clear H. induction text as [|c t IH]; simpl in *; [done|].
  destruct (is_space c) eqn:E; [auto|]. simpl in H'. rewrite ?E in H'. done.
Qed.

End CharFacts.

(** ** Splitting and trimming *)

Module ItemFacts.
Import ReAux ReFacts Patterns BatchFix.

Lemma drop_while_suffix p text : drop_while p text `suffix_of` text.
Proof.
  induction text as [|c t IH]; simpl; [done|].
  destruct (p c); [by apply suffix_cons_r|done].
Qed.

Lemma drop_while_head p text :
  match drop_while p text with
  | [] => True
  | c :: _ => p c = false
  end.
Proof.
  induction text as [|c t IH]; simpl; [done|].
  destruct (p c) eqn:E; [done|]. done.
Qed.

Lemma drop_while_drop p text :
  drop (length text - length (drop_while p text)) text = drop_while p text.
Proof.
  induction text as [|c t IH]; simpl; [done|].
  destruct (p c) eqn:E.
  - pose proof (drop_while_length p t).
    replace (S (length t) - length (drop_while p t))
      with (S (length t - length (drop_while p t))) by lia.
    done.
  - simpl. by rewrite Nat.sub_diag.
Qed.

Lemma drop_trailing_nil p text :
  drop_trailing p text = [] <-> forallb p text = true.
Proof.
  destruct text as [|c t]; simpl; [done|].
  destruct (p c && forallb p t); split; done.
Qed.

Lemma drop_trailing_sublist p text : drop_trailing p text `sublist_of` text.
Proof.
  induction text as [|c t IH]; simpl; [done|].
  destruct (p c && forallb p t); [apply sublist_nil_l|by apply sublist_skip].
Qed.

(** What is left of a text ends with a character outside the class. *)
Lemma drop_trailing_last p text :
  match last (drop_trailing p text) with
  | None => drop_trailing p text = []
  | Some c => p c = false
  end.
Proof.
  induction text as [|c t IH]; simpl; [done|].
  destruct (p c && forallb p t) eqn:E; [done|].
  destruct (drop_trailing p t) as [|c' t'] eqn:Et.
  - simpl. apply drop_trailing_nil in Et. rewrite Et in E.
    by destruct (p c).
  - rewrite last_cons. by destruct (last (c' :: t')).
Qed.

Lemma drop_trailing_head p c t :
  p c = false -> drop_trailing p (c :: t) = c :: drop_trailing p t.
Proof. intros E. simpl. by rewrite E. Qed.

Lemma split_no_sep sep text : Forall (Forall (fun c => c <> sep)) (split sep text).
Proof.
  induction text as [|c t IH]; simpl.
  - by repeat constructor.
  - destruct (N.eqb_spec c sep) as [->|Hne].
    + by constructor.
    + destruct (split sep t) as [|h r]; [by repeat constructor|].
      apply Forall_cons in IH as [Hh Hr]. constructor; [|done]. by constructor.
Qed.

Lemma Forall_sublist (P : N -> Prop) (l1 l2 : pystr) :
  l1 `sublist_of` l2 -> Forall P l2 -> Forall P l1.
Proof.
  intros Hs H. rewrite Forall_forall in H. apply Forall_forall.
  intros x Hx. apply H. by eapply elem_of_sublist.
Qed.

Lemma drop_while_Forall (P : N -> Prop) p text :
  Forall P text -> Forall P (drop_while p text).
Proof.
  intros H. destruct (drop_while_suffix p text) as [l E].
  rewrite E in H. by apply Forall_app in H as [_ ?].
Qed.

Lemma strip_Forall (P : N -> Prop) text : Forall P text -> Forall P (strip text).
Proof.
  intros H. unfold strip, rstrip, lstrip.
  apply Forall_reverse, drop_while_Forall, Forall_reverse.
  by apply drop_while_Forall.
Qed.

(** A stripped text neither starts nor ends with white space. *)
Lemma strip_head text :
  match head (strip text) with Some c => is_space c = false | None => True end.
Proof.
  unfold strip, rstrip. rewrite head_reverse.
  pose proof (drop_while_head is_space (reverse (lstrip text))) as H.
  unfold lstrip at 1.
  destruct (drop_while is_space (reverse (lstrip text))) as [|c t] eqn:E; [done|].
  pose proof (drop_while_suffix is_space (reverse (lstrip text))) as [l El].
  rewrite E in El.
  destruct (last (c :: t)) as [x|] eqn:Ex; [|done].
  apply last_Some in Ex as [l' El']. rewrite El' in El.
  apply (f_equal reverse) in El. rewrite reverse_involutive in El.
  rewrite !reverse_app in El. simpl in El.
  pose proof (drop_while_head is_space text) as Hh. unfold lstrip in El.
  rewrite El in Hh.
  change (reverse [x]) with [x] in Hh. simpl in Hh. done.
Qed.

Section WithDb.
Context {U : UnicodeDb}.

(** After the start of the subject an anchored pattern matches nowhere, so
    the scan only finishes skipping and copies the rest. *)
Lemma sub_from_bol r : forall rest c pos skip,
  sub_from (Bol ~~ r) [] (Some c) pos rest skip = drop skip rest.
Proof.
  induction rest as [|c' t IH]; intros c pos skip; destruct skip; simpl;
    rewrite ?IH; done.
Qed.

(** [re.sub(r'^[^a-zA-Z0-9]+', '', item)] removes the leading symbols. *)
Lemma sub_leading_symbols text :
  sub leading_symbols [] text = drop_while not_alnum text.
Proof.
  unfold sub. destruct text as [|c t]; [done|].
  cbn [sub_from]. unfold match_here, leading_symbols, plus, non_alnum.
  rewrite run_Seq, run_Bol. cbn [m_prev]. rewrite run_Seq, run_Chr. cbn [m_rest].
  fold not_alnum. change (negb (is_alnum c)) with (not_alnum c).
  destruct (not_alnum c) eqn:Ec; cbn [drop_while]; rewrite ?Ec.
  - rewrite run_star_chr. unfold advance; cbn [m_prev m_pos m_rest m_cap].
    destruct (greedy_chr_accept not_alnum t (Some c) 1 None)
      as (e & -> & Hpos & _ & _).
    rewrite Hpos. pose proof (drop_while_length not_alnum t).
    replace (1 + length t - length (drop_while not_alnum t) - 0)
      with (S (length t - length (drop_while not_alnum t))) by lia.
    cbn [app]. fold leading_symbols. unfold leading_symbols.
    rewrite sub_from_bol. apply drop_while_drop.
  - f_equal. fold (plus (Chr not_alnum)). apply (sub_from_bol _ t c 1 0).
Qed.

Lemma greedy_eol_all p : forall rest prev pos cap,
  forallb p rest = true ->
  exists e, greedy_chr p prev pos rest cap eol_cont = Some e
            /\ m_pos e = pos + length rest.
Proof.
  induction rest as [|c t IH]; intros prev pos cap H; simpl in *.
  - eexists. split; [done|]. simpl. lia.
  - apply andb_prop in H as [Hc Ht]. rewrite Hc.
    destruct (IH (Some c) (S pos) cap Ht) as (e & -> & Hpos).
    exists e. split; [done|]. lia.
Qed.

Lemma greedy_eol_none : forall rest prev pos cap,
  forallb not_alnum rest = false ->
  greedy_chr not_alnum prev pos rest cap eol_cont = None.
Proof.
  induction rest as [|c t IH]; intros prev pos cap H; simpl in *; [done|].
  destruct (not_alnum c) eqn:Ec; simpl in H.
  - rewrite IH by done. unfold eol_cont, at_eol. simpl.
    destruct t; [done|done].
  - unfold eol_cont, at_eol. simpl. destruct t; [|done].
    destruct (N.eqb_spec c 10) as [->|]; [done|done].
Qed.

Lemma sub_from_skip_all r repl : forall rest prev pos,
  (forall prev' pos', match_here r prev' pos' [] = None) ->
  sub_from r repl prev pos rest (length rest) = [].
Proof.
  induction rest as [|c t IH]; intros prev pos H; simpl.
  - by rewrite H.
  - by apply IH.
Qed.

(** [re.sub(r'[^a-zA-Z0-9]+$', '', item)] removes the trailing symbols. *)
Lemma sub_from_trailing_symbols : forall rest prev pos,
  sub_from trailing_symbols [] prev pos rest 0 = drop_trailing not_alnum rest.
Proof.
  induction rest as [|c t IH]; intros prev pos; [done|].
  cbn [sub_from drop_trailing]. unfold match_here, trailing_symbols, plus, non_alnum.
  rewrite !run_Seq, run_Chr. cbn [m_rest]. fold not_alnum. cbn [forallb].
  change (negb (is_alnum c)) with (not_alnum c).
  destruct (not_alnum c) eqn:Ec; cbn [andb].
  - rewrite run_star_chr. unfold advance; cbn [m_prev m_pos m_rest m_cap].
    change (fun s' => run Eol s' Some) with eol_cont.
    destruct (forallb not_alnum t) eqn:Et.
    + destruct (greedy_eol_all not_alnum t (Some c) (S pos) None Et)
        as (e & -> & Hpos).
      rewrite Hpos. replace (S pos + length t - pos) with (S (length t)) by lia.
      cbn [app]. apply sub_from_skip_all. done.
    + rewrite greedy_eol_none by done. f_equal. apply IH.
  - f_equal. apply IH.
Qed.

Lemma sub_trailing_symbols text :
  sub trailing_symbols [] text = drop_trailing not_alnum text.
Proof. apply sub_from_trailing_symbols. Qed.

Lemma clean_item_eq item :
  clean_item item = drop_trailing not_alnum (drop_while not_alnum (strip item)).
Proof. unfold clean_item. by rewrite sub_leading_symbols, sub_trailing_symbols. Qed.

End WithDb.
End ItemFacts.

(** ** The ingredients list *)

Module ListFacts.
Import ReAux Notions ReFacts ItemFacts Patterns BatchFix.

Section WithDb.
Context {U : UnicodeDb}.

Lemma clean_item_no_comma piece :
  Forall (fun c => c <> 44%N) piece -> Forall (fun c => c <> 44%N) (clean_item piece).
Proof.
  intros H. rewrite clean_item_eq.
  eapply Forall_sublist; [apply drop_trailing_sublist|].
  by apply drop_while_Forall, strip_Forall.
Qed.

Lemma clean_item_ends piece :
  clean_item piece <> [] ->
  (exists c, head (clean_item piece) = Some c /\ is_alnum c = true)
  /\ (exists c, last (clean_item piece) = Some c /\ is_alnum c = true).
Proof.
  rewrite clean_item_eq. intros Hne.
  pose proof (drop_while_head not_alnum (strip piece)) as Hh.
  destruct (drop_while not_alnum (strip piece)) as [|c t]; [done|].
  split.
  - rewrite drop_trailing_head by done. exists c. split; [done|].
    unfold not_alnum in Hh. by destruct (is_alnum c).
  - pose proof (drop_trailing_last not_alnum (c :: t)) as Hl.
    destruct (last (drop_trailing not_alnum (c :: t))) as [x|]; [|done].
    exists x. split; [done|]. unfold not_alnum in Hl. by destruct (is_alnum x).
Qed.

Lemma kept_items_normalized text :
  Forall normalized_name
    (filter (fun item => keep_item item = true) (map clean_item (split 44 text))).
Proof.
  apply Forall_forall. intros item Hin.
  apply list_elem_of_filter in Hin as [Hkeep Hin].
  change (map clean_item ?l) with (clean_item <$> l) in Hin.
  apply list_elem_of_fmap in Hin as (piece & -> & Hpiece).
  pose proof (split_no_sep 44 text) as Hsplit.
  rewrite Forall_forall in Hsplit. specialize (Hsplit _ Hpiece).
  unfold keep_item in Hkeep. apply andb_prop in Hkeep as [Hne Hlen].
  apply Nat.ltb_lt in Hlen.
  assert (clean_item piece <> []) as Hne' by (by destruct (clean_item piece)).
  destruct (clean_item_ends piece Hne') as [Hhead Hlast].
  split_and!; [|lia|done|done].
  apply clean_item_no_comma in Hsplit. rewrite Forall_forall in Hsplit.
  intros Hc. by apply (Hsplit _ Hc).
Qed.

End WithDb.
End ListFacts.

(** ** Rows without an ingredients text, and what a batch changes *)

Module RowFacts.
Import ReAux Notions ReFacts CharFacts ItemFacts Patterns BatchFix BatchFixRows.

Lemma assign_all_other (d : gmap string pyval) (l : list assignment) (k : string) :
  k ∉ l.*1 -> assign_all d l !! k = d !! k.
Proof.
  revert d. induction l as [|[k' v] l IH]; intros d Hk; simpl in *; [done|].
  apply not_elem_of_cons in Hk as [Hne Hk].
  rewrite IH by done. by apply lookup_insert_ne.
Qed.

Section WithDb.
Context {U : UnicodeDb}.

(** [re.sub(r'\s+', ' ', text)] on a text of white space only. *)
Lemma sub_spaces_blank text :
  forallb is_space text = true ->
  sub spaces (str " ") text = match text with [] => [] | _ => str " " end.
Proof.
  intros H. unfold sub. destruct text as [|c t]; [done|].
  simpl in H. apply andb_prop in H as [Hc Ht].
  cbn [sub_from]. unfold match_here, spaces, plus, space.
  rewrite run_Seq, run_Chr. cbn [m_rest]. rewrite Hc.
  rewrite run_star_chr. unfold advance; cbn [m_prev m_pos m_rest m_cap].
  destruct (greedy_chr_accept is_space t (Some c) 1 None) as (e & -> & Hpos & _ & _).
  rewrite Hpos, drop_while_all by done. cbn [length].
  replace (1 + length t - 0 - 0) with (S (length t)) by lia.
  rewrite sub_from_skip_all; [by rewrite app_nil_r|]. done.
Qed.

(** A text of white space only is cleaned to the empty string. *)
Lemma clean_blank text :
  forallb is_space text = true -> clean_ingredients_text (PStr text) = [].
Proof.
  intros H. pose proof (blank_not_space text H) as Hns.
  unfold clean_ingredients_text, first_section.
  rewrite (search_requires not_space pattern1); [|apply pattern1_requires|done].
  rewrite (search_requires not_space pattern2); [|apply pattern2_requires|done].
  rewrite (search_requires not_space pattern3); [|apply pattern3_requires|done].
  unfold scrub. cbn [default].
  rewrite (sub_requires not_space html_tag); [|apply html_tag_requires|done].
  rewrite sub_spaces_blank by done.
  rewrite (sub_requires not_space).
  - destruct text; [done|]. by vm_compute.
  - apply boilerplate_requires.
  - destruct text; [done|]. repeat constructor.
Qed.

Lemma clean_missing v : missing_text v = true -> clean_ingredients_text v = [].
Proof.
  destruct v as [| | | | |s|]; try done. simpl. intros H.
  apply clean_blank, strip_nil. by destruct (strip s).
Qed.

Lemma process_row_missing row :
  missing_text (row_get "ingredients" row) = true -> process_row row = (row, false).
Proof. intros H. unfold process_row. by rewrite H. Qed.

Lemma process_batch_fold batch : forall acc n,
  (foldl (fun acc row =>
            let '(product_data, fixed) := process_row row in
            (acc.1 ++ [product_data], if fixed then S acc.2 else acc.2))
         (acc, n) batch).1
  = acc ++ map (fun row => (process_row row).1) batch.
Proof.
  induction batch as [|row batch IH]; intros acc n; simpl.
  - by rewrite app_nil_r.
  - destruct (process_row row) as [pd fixed]. simpl.
    rewrite IH. by rewrite <- app_assoc.
Qed.

(** The results of a batch are the rows' records, in the rows' order. *)
Lemma process_batch_results batch :
  (process_batch batch).1 = map (fun row => (process_row row).1) batch.
Proof. unfold process_batch. by rewrite process_batch_fold. Qed.

Lemma process_row_frame row : row_frame row (process_row row).1.
Proof.
  unfold row_frame, process_row.
  destruct (missing_text (row_get "ingredients" row)) eqn:Hm; [done|].
  destruct (extract_ingredients_list _) as [|i l] eqn:El; [done|].
  cbn [fst]. split.
  - intros k Hk. apply assign_all_other. by cbn [fixed_fields fmap list_fmap fst].
  - intros [?|?]; done.
Qed.

End WithDb.
End RowFacts.

(** ** Splitting a delimited string *)

Module SplitFacts.
Import ReAux Notions ReFacts CharFacts ItemFacts Patterns BatchFix.

Lemma split_no_comma sep text : sep ∉ text -> split sep text = [text].
Proof.
  induction text as [|c t IH]; intros H; simpl; [done|].
  apply not_elem_of_cons in H as [Hne Ht].
  rewrite eqb_false by done. by rewrite IH.
Qed.

Lemma split_app sep u v :
  sep ∉ u -> split sep (u ++ sep :: v) = u :: split sep v.
Proof.
  induction u as [|c t IH]; intros H; simpl.
  - by rewrite N.eqb_refl.
  - apply not_elem_of_cons in H as [Hne Ht].
    rewrite eqb_false by done. by rewrite IH.
Qed.

(** Stripping a name padded with white space gives the name back, when the
    name neither starts nor ends with white space. *)
Lemma drop_while_pad p (l x : pystr) :
  forallb p l = true ->
  match head x with Some c => p c = false | None => False end ->
  drop_while p (l ++ x) = x.
Proof.
  intros Hl Hx. induction l as [|c l IH]; simpl in *.
  - destruct x as [|c t]; [done|]. simpl in *. by rewrite Hx.
  - apply andb_prop in Hl as [-> Hl]. auto.
Qed.

Lemma strip_pad (l x r : pystr) :
  forallb is_space l = true -> forallb is_space r = true ->
  match head x with Some c => is_space c = false | None => False end ->
  match last x with Some c => is_space c = false | None => False end ->
  strip (l ++ x ++ r) = x.
Proof.
  intros Hl Hr Hh Hlast. unfold strip, rstrip, lstrip.
  rewrite drop_while_pad; [|done|].
  - rewrite reverse_app. rewrite drop_while_pad.
    + apply reverse_involutive.
    + apply forallb_Forall. apply forallb_Forall in Hr. by rewrite Forall_reverse.
    + by rewrite head_reverse.
  - destruct x; [done|]. done.
Qed.


Lemma join_cons sep x y (names : list pystr) :
  join sep (x :: y :: names) = x ++ sep ++ join sep (y :: names).
Proof. done. Qed.

Lemma blank_no_comma (l : pystr) : forallb is_space l = true -> 44%N ∉ l.
Proof.
  intros H Hin. apply forallb_Forall in H. rewrite Forall_forall in H.
  by specialize (H _ Hin).
Qed.



(** The pieces of a comma-joined list of names are the names, padded with
    the white space of the delimiter. *)
Lemma split_join (a b : pystr) :
  forallb is_space a = true -> forallb is_space b = true ->
  forall names l,
    names <> [] -> forallb is_space l = true ->
    Forall (fun name => 44%N ∉ name) names ->
    Forall2 padded (split 44 (l ++ join (a ++ 44%N :: b) names)) names.
Proof.
  intros Ha Hb. induction names as [|x names IH]; intros l Hne Hl Hn; [done|].
  apply Forall_cons in Hn as [Hcx Hn].
  destruct names as [|y names].
  - simpl. rewrite split_no_comma.
    + constructor; [|constructor]. exists l, []. by rewrite app_nil_r.
    + rewrite elem_of_app. intros [?|?]; [by apply (blank_no_comma l)|done].
  - rewrite join_cons.
    replace (l ++ x ++ (a ++ 44%N :: b) ++ join (a ++ 44%N :: b) (y :: names))
      with ((l ++ x ++ a) ++ 44%N :: (b ++ join (a ++ 44%N :: b) (y :: names)))
      by (by rewrite <- !app_assoc).
    rewrite split_app.
    + constructor; [by exists l, a|]. by apply IH.
    + rewrite !elem_of_app. intros [?|[?|?]]; [by apply (blank_no_comma l)|done|
        by apply (blank_no_comma a)].
Qed.


Lemma strip_padded piece name :
  padded piece name ->
  alnum_opt (head name) = true -> alnum_opt (last name) = true ->
  strip piece = name.
Proof.
  intros (l & r & -> & Hl & Hr) Hh Hlast.
  apply strip_pad; try done.
  - destruct (head name) as [c|]; [|done]. by apply is_alnum_not_space.
  - destruct (last name) as [c|]; [|done]. by apply is_alnum_not_space.
Qed.

Lemma padded_strip pieces names :
  Forall2 padded pieces names ->
  Forall (fun name => alnum_opt (head name) = true
                      /\ alnum_opt (last name) = true) names ->
  filter (fun ing => truthy ing = true) (map strip pieces) = names.
Proof.
  intros H. induction H as [|piece name pieces names Hp H IH]; intros Hn; [done|].
  apply Forall_cons in Hn as [[Hh Hl] Hn].
  cbn [map]. rewrite (strip_padded piece name) by done.
  rewrite filter_cons_True.
  - by rewrite IH.
  - by destruct name.
Qed.



Lemma normalized_names_ends names :
  Forall normalized_name names ->
  Forall (fun name => alnum_opt (head name) = true
                      /\ alnum_opt (last name) = true) names.
Proof.
  intros H. eapply Forall_impl; [exact H|].
  intros name (_ & _ & (c & -> & Hc) & (c' & -> & Hc')). done.
Qed.

(** Splitting the comma-joined string of a list of normalized names gives
    the list back. *)
Lemma comma_items_normalized names :
  Forall normalized_name names ->
  comma_items (join (str ", ") names) = names.
Proof.
  intros Hn. unfold comma_items.
  destruct names as [|x names]; [done|].
  apply padded_strip; [|by apply normalized_names_ends].
  apply (split_join [] (str " ") eq_refl eq_refl (x :: names) []); [done..|].
  eapply Forall_impl; [exact Hn|]. by intros name (? & _).
Qed.


Section WithDb.
Context {U : UnicodeDb}.







End WithDb.
End SplitFacts.

(** ** Texts the clean-up leaves alone *)

Module SettledFacts.
Import ReAux Notions ReFacts CharFacts ItemFacts Patterns BatchFix.

Lemma starts_with_ci_app w x s :
  starts_with_ci (w ++ x) s = true -> starts_with_ci w s = true.
Proof.
  revert s. induction w as [|a w IH]; intros s; simpl; [done|].
  destruct s as [|b s]; [done|].
  intros [-> H]%andb_prop. simpl. eauto.
Qed.

Lemma contains_ci_suffix w text rest :
  contains_ci w text = false -> rest `suffix_of` text ->
  starts_with_ci w rest = false.
Proof.
  intros H [l ->]. induction l as [|c l IH]; simpl in H.
  - destruct rest; simpl in H; by apply orb_false_elim in H as [? _].
  - apply orb_false_elim in H as [_ H]. auto.
Qed.

Lemma has_run_suffix p n text rest :
  has_run p n text = false -> rest `suffix_of` text -> run_at p n rest = false.
Proof.
  intros H [l ->]. induction l as [|c l IH]; simpl in H.
  - destruct rest; simpl in H; by apply orb_false_elim in H as [? _].
  - apply orb_false_elim in H as [_ H]. auto.
Qed.

Lemma fold_ci_deleted c l :
  is_deleted l = true -> fold_ci c = fold_ci l -> c = l.
Proof.
  unfold is_deleted. rewrite !orb_true_iff, !N.eqb_eq.
  intros Hl. assert (fold_ci l = l) as -> by (by destruct Hl as [[[->| ->]| ->]| ->]).
  unfold fold_ci, is_upper, in_range.
  destruct (N.leb_spec 65 c), (N.leb_spec c 90); simpl; try lia;
    destruct (N.eqb_spec c 304), (N.eqb_spec c 305), (N.eqb_spec c 383),
      (N.eqb_spec c 8490), (N.eqb_spec c 201); simpl; lia.
Qed.

Lemma starts_with_ci_fold w1 w2 s :
  map fold_ci w1 = map fold_ci w2 -> starts_with_ci w1 s = starts_with_ci w2 s.
Proof.
  revert w2 s. induction w1 as [|a w1 IH]; intros [|b w2] s H; try done.
  simpl in H. injection H as Hab H. destruct s as [|c s]; [done|].
  simpl. rewrite Hab. f_equal. by apply IH.
Qed.

Lemma strip_last text :
  match last (strip text) with Some c => is_space c = false | None => True end.
Proof.
  unfold strip, rstrip, lstrip. rewrite last_reverse.
  pose proof (drop_while_head is_space (reverse (drop_while is_space text))) as H.
  by destruct (drop_while is_space (reverse (drop_while is_space text))).
Qed.

Lemma drop_while_id p (x : pystr) :
  match head x with Some c => p c = false | None => True end ->
  drop_while p x = x.
Proof. destruct x as [|c t]; simpl; [done|]. by intros ->. Qed.

(** Stripping twice is stripping once. *)
Lemma strip_idem text : strip (strip text) = strip text.
Proof.
  pose proof (strip_head text) as Hh. pose proof (strip_last text) as Hl.
  generalize dependent (strip text). intros x Hh Hl.
  unfold strip, rstrip, lstrip. rewrite (drop_while_id is_space x) by done.
  rewrite drop_while_id; [apply reverse_involutive|]. by rewrite head_reverse.
Qed.

Section WithDb.
Context {U : UnicodeDb}.

(** A literal word that does not stand at the position does not match. *)
Lemma run_word_ci_none w : forall s k,
  starts_with_ci w (m_rest s) = false -> run (seq_of lit_ci w) s k = None.
Proof.
  induction w as [|a w IH]; intros s k H; [done|].
  destruct s as [prev pos [|b t] cap]; destruct w as [|a' w'];
    cbn [seq_of]; rewrite ?run_Seq; unfold lit_ci at 1; rewrite run_Chr;
    cbn [m_rest] in *; try done.
  - simpl in H. by rewrite andb_true_r in H; rewrite H.
  - change (starts_with_ci (a :: a' :: w') (b :: t))
      with ((fold_ci b =? fold_ci a)%N && starts_with_ci (a' :: w') t) in H.
    destruct (fold_ci b =? fold_ci a)%N; [|done].
    apply IH. exact H.
Qed.

Lemma run_word_ci_seq_none w r s k :
  starts_with_ci w (m_rest s) = false -> run (seq_of lit_ci w ~~ r) s k = None.
Proof. intros H. rewrite run_Seq. by apply run_word_ci_none. Qed.

Lemma run_wordb_none r s k :
  (forall k', run r s k' = None) -> run (WordB ~~ r) s k = None.
Proof.
  intros H. rewrite run_Seq, run_WordB. by destruct (at_wordb s).
Qed.

Lemma run_at_least_none p r n : forall s k,
  run_at p n (m_rest s) = false -> run (at_least n (Chr p) ~~ r) s k = None.
Proof.
  induction n as [|n IH]; intros s k H; [done|].
  cbn [at_least]. rewrite !run_Seq, run_Chr.
  destruct s as [prev pos [|c t] cap]; cbn [m_rest] in *; [done|].
  simpl in H. destruct (p c); [|done]. simpl in H.
  rewrite <- run_Seq. by apply IH.
Qed.

(** On a text with single blanks [re.sub(r'\s+', ' ', text)] changes
    nothing. *)
Lemma sub_spaces_single : forall rest prev pos,
  single_spaced rest = true -> sub_from spaces (str " ") prev pos rest 0 = rest.
Proof.
  induction rest as [|c t IH]; intros prev pos H; [done|].
  simpl in H. apply andb_prop in H as [Hc Ht].
  cbn [sub_from]. unfold match_here, spaces, plus, space.
  rewrite run_Seq, run_Chr. cbn [m_rest].
  destruct (is_space c) eqn:Ec.
  - apply andb_prop in Hc as [->%N.eqb_eq Hh].
    rewrite run_star_chr. unfold advance; cbn [m_prev m_pos m_rest m_cap].
    destruct (greedy_chr_accept is_space t (Some 32%N) (S pos) None)
      as (e & -> & Hpos & _ & _).
    assert (drop_while is_space t = t) as Hd.
    { destruct t as [|c' t']; [done|]. simpl in *. by destruct (is_space c'). }
    rewrite Hpos, Hd.
    replace (S pos + length t - length t - pos) with 1 by lia.
    change (str " " ++ ?x) with (32%N :: x). f_equal. by apply IH.
  - f_equal. by apply IH.
Qed.

(** What the boilerplate pattern does at a character it deletes. *)
Lemma boilerplate_at_deleted c t prev pos :
  is_deleted c = true ->
  exists e, match_here boilerplate prev pos (c :: t) = Some e /\ m_pos e = S pos.
Proof.
  intros Hc. unfold match_here, boilerplate, lits_ci, ingredients_aigu.
  rewrite run_Alt, run_word_ci_none.
  2:{ unfold is_deleted in Hc. rewrite !orb_true_iff, !N.eqb_eq in Hc.
      by destruct Hc as [[[->| ->]| ->]| ->]. }
  rewrite run_Alt, run_wordb_none.
  2:{ intros k'. apply run_word_ci_none.
      unfold is_deleted in Hc. rewrite !orb_true_iff, !N.eqb_eq in Hc.
      by destruct Hc as [[[->| ->]| ->]| ->]. }
  rewrite run_Alt, run_wordb_none.
  2:{ intros k'. apply run_word_ci_seq_none.
      unfold is_deleted in Hc. rewrite !orb_true_iff, !N.eqb_eq in Hc.
      by destruct Hc as [[[->| ->]| ->]| ->]. }
  unfold is_deleted in Hc. rewrite !orb_true_iff, !N.eqb_eq in Hc.
  destruct Hc as [[[->| ->]| ->]| ->];
    repeat (rewrite run_Alt; unfold lit at 1; rewrite run_Chr; cbn [m_rest N.eqb Pos.eqb]);
    by eexists.
Qed.

(** After the boilerplate substitution none of the characters it deletes
    one by one is left. *)
Lemma sub_boilerplate_deleted : forall rest prev pos skip,
  Forall (fun c => is_deleted c = false) (sub_from boilerplate [] prev pos rest skip).
Proof.
  induction rest as [|c t IH]; intros prev pos skip.
  - destruct skip; simpl; [|done]. destruct (match_here _ _ _ _); [|done].
    by destruct (_ - _).
  - destruct skip as [|skip]; cbn [sub_from]; [|by apply IH].
    destruct (is_deleted c) eqn:Ec.
    + destruct (boilerplate_at_deleted c t prev pos Ec) as (e & -> & Hpos).
      rewrite Hpos. replace (S pos - pos) with 1 by lia. by apply IH.
    + destruct (match_here _ _ _ _) as [e|].
      * destruct (m_pos e - pos); simpl; [constructor|]; auto.
      * constructor; auto.
Qed.

(** Where "ingredients" does not stand and no character is one of those
    deleted one by one, the boilerplate pattern does not match. *)
Lemma boilerplate_none prev pos rest :
  starts_with_ci (str "ingredients") rest = false ->
  Forall (fun c => is_deleted c = false) rest ->
  match_here boilerplate prev pos rest = None.
Proof.
  intros Hw Hd. unfold match_here, boilerplate, lits_ci, ingredients_aigu.
  assert (forall x, starts_with_ci (str "ingredients" ++ x) rest = false) as Hwx.
  { intros x. destruct (starts_with_ci (str "ingredients" ++ x) rest) eqn:E; [|done].
    apply starts_with_ci_app in E. congruence. }
  rewrite run_Alt, run_word_ci_none by apply (Hwx [58%N]).
  rewrite run_Alt, run_wordb_none.
  2:{ intros k'. apply (run_requires is_deleted); [|done].
      simpl. do 11 right. intros c Hc%N.eqb_eq.
      by rewrite (fold_ci_deleted c 58). }
  rewrite run_Alt, run_wordb_none
    by (intros k'; apply run_word_ci_seq_none, (Hwx [])).
  assert (forall l k, is_deleted l = true ->
            run (lit l) (MState prev pos rest None) k = None) as Hlit.
  { intros l k Hl. apply (run_requires is_deleted); [|done].
    by apply lit_requires. }
  rewrite run_Alt, Hlit by done. rewrite run_Alt, Hlit by done.
  rewrite run_Alt, Hlit by done. rewrite run_Alt, Hlit by done.
  apply run_wordb_none. intros k'. apply run_word_ci_seq_none.
  rewrite (starts_with_ci_fold _ (str "ingredients")) by done.
  apply (Hwx []).
Qed.

(** None of the section patterns matches in a settled text. *)
Lemma section_pattern_none p text :
  settled text = true ->
  p ∈ [pattern1; pattern2; pattern3; pattern4] ->
  search p text = None.
Proof.
  unfold settled. rewrite !andb_true_iff, !negb_true_iff.
  intros [[[[Hangle Hsp] Hrun] Hact] Hing] Hp.
  rewrite !elem_of_cons, elem_of_nil in Hp.
  destruct Hp as [->|[->|[->|[->|[]]]]].
  - apply search_from_none. intros prev pos rest Hs.
    unfold match_here, pattern1, lits_ci.
    rewrite run_Seq, !run_Alt.
    rewrite run_word_ci_none.
    2:{ rewrite (starts_with_ci_fold _ (str "ingredients")) by done.
        by apply (contains_ci_suffix _ text). }
    rewrite run_word_ci_none.
    2:{ rewrite (starts_with_ci_fold _ (str "active")) by done.
        by apply (contains_ci_suffix _ text). }
    rewrite run_word_ci_none; [done|].
    rewrite (starts_with_ci_fold _ (str "active")) by done.
    by apply (contains_ci_suffix _ text).
  - apply search_from_none. intros prev pos rest Hs.
    unfold match_here, pattern2, digit. apply run_at_least_none.
    by apply (has_run_suffix _ _ text).
  - apply search_from_none. intros prev pos rest Hs.
    unfold match_here, pattern3, lits_ci. apply run_word_ci_seq_none.
    rewrite (starts_with_ci_fold _ (str "active")) by done.
    by apply (contains_ci_suffix _ text).
  - apply search_from_none. intros prev pos rest Hs.
    unfold match_here, pattern4, lits_ci. apply run_word_ci_seq_none.
    rewrite (starts_with_ci_fold _ (str "ingredients")) by done.
    by apply (contains_ci_suffix _ text).
Qed.

Lemma first_section_none patterns text :
  settled text = true ->
  patterns ⊆ [pattern1; pattern2; pattern3; pattern4] ->
  first_section patterns text = None.
Proof.
  intros Hs. induction patterns as [|p rest IH]; intros Hsub; [done|].
  cbn [first_section]. rewrite (section_pattern_none p text Hs).
  - apply IH. intros x Hx. apply Hsub. by apply list_elem_of_further.
  - apply Hsub, list_elem_of_here.
Qed.

(** The three substitutions leave a settled text without deleted
    characters as it is. *)
Lemma substitutions_settled text :
  settled text = true ->
  Forall (fun c => is_deleted c = false) text ->
  sub boilerplate [] (sub spaces (str " ") (sub html_tag [] text)) = text.
Proof.
  unfold settled. rewrite !andb_true_iff, !negb_true_iff.
  intros [[[[Hangle Hsp] Hrun] Hact] Hing] Hdel.
  rewrite (sub_requires (N.eqb 60) html_tag).
  - unfold sub at 2. rewrite sub_spaces_single by done.
    unfold sub. rewrite sub_from_none; [done|].
    intros prev pos rest Hs. apply boilerplate_none.
    + by apply (contains_ci_suffix _ text).
    + destruct Hs as [l ->]. by apply Forall_app in Hdel as [_ ?].
  - left. by apply lit_requires.
  - apply forallb_Forall in Hangle. eapply Forall_impl; [exact Hangle|].
    intros c Hc. simpl in Hc. rewrite N.eqb_sym. by apply negb_true_iff.
Qed.

(** A settled text without deleted characters and without white space at
    its ends is a fixed point of the clean-up. *)
Lemma clean_settled text :
  settled text = true ->
  Forall (fun c => is_deleted c = false) text ->
  strip text = text ->
  clean_ingredients_text (PStr text) = text.
Proof.
  intros Hs Hdel Hstrip. unfold clean_ingredients_text.
  rewrite first_section_none; [|done|].
  - cbn [default]. unfold scrub. by rewrite substitutions_settled.
  - intros p Hp. rewrite !elem_of_cons, elem_of_nil in Hp.
    rewrite !elem_of_cons. tauto.
Qed.

(** What the clean-up returns holds none of the deleted characters and
    has no white space at its ends. *)
Lemma clean_output v :
  Forall (fun c => is_deleted c = false) (clean_ingredients_text v)
  /\ strip (clean_ingredients_text v) = clean_ingredients_text v.
Proof.
  destruct v as [| | | | |s|]; try done. unfold clean_ingredients_text, scrub.
  split; [|apply strip_idem].
  apply strip_Forall. unfold sub at 1. apply sub_boilerplate_deleted.
Qed.

(** The same for the cleaned text of [extract_and_clean_ingredients],
    which is not stripped: a text that is not blank. *)
Lemma extract_and_clean_settled patterns text :
  patterns ⊆ [pattern1; pattern2; pattern3; pattern4] ->
  settled text = true ->
  Forall (fun c => is_deleted c = false) text ->
  text = [] \/ truthy (strip text) = true ->
  (FinalFix.extract_and_clean_with patterns (PStr text)).1 = text.
Proof.
  intros Hsub Hs Hdel Hblank. unfold FinalFix.extract_and_clean_with.
  destruct (truthy (strip text)) eqn:E.
  - cbn [fst]. rewrite first_section_none by done. cbn [default].
    by apply substitutions_settled.
  - destruct Hblank as [->|?]; done.
Qed.

Lemma extract_and_clean_output patterns v :
  Forall (fun c => is_deleted c = false)
         (FinalFix.extract_and_clean_with patterns v).1.
Proof.
  destruct v as [| | | | |s|]; try constructor.
  unfold FinalFix.extract_and_clean_with.
  destruct (truthy (strip s)); [|constructor].
  cbn [fst]. unfold sub at 1. apply sub_boilerplate_deleted.
Qed.

End WithDb.
End SettledFacts.

(** ** The scraper *)

Module ScraperFacts.
Import ReAux Notions ReFacts RowFacts Scraper.

Lemma first_some_app {A B} (f : A -> option B) l1 l2 :
  first_some f (l1 ++ l2) = or_else (first_some f l1) (first_some f l2).
Proof.
  induction l1 as [|x l1 IH]; simpl; [done|]. by destruct (f x).
Qed.

Lemma first_some_none {A B} (f : A -> option B) l :
  Forall (fun x => f x = None) l -> first_some f l = None.
Proof.
  intros H. induction H as [|x l Hx H IH]; simpl; [done|]. by rewrite Hx.
Qed.

(** A cascade stops at the first selector that finds an element. *)
Lemma first_selected_first (s : soup) pre sel post text :
  Forall (fun x => select_one s x = None) pre ->
  select_one s sel = Some text ->
  first_selected s (pre ++ sel :: post) = Some (sel, text).
Proof.
  intros Hpre Hsel. induction Hpre as [|x pre Hx Hpre IH]; simpl.
  - by rewrite Hsel.
  - by rewrite Hx.
Qed.

Lemma first_selected_none (s : soup) selectors :
  Forall (fun x => select_one s x = None) selectors ->
  first_selected s selectors = None.
Proof.
  intros H. induction H as [|x l Hx H IH]; simpl; [done|]. by rewrite Hx.
Qed.

(** *** Code under [try] *)

Lemma touches_ret {A} keys (x : A) : touches_only keys (try_ret x).
Proof. by intros pd k Hk. Qed.

Lemma touches_raise {A} keys : touches_only keys (@raise A).
Proof. by intros pd k Hk. Qed.

Lemma touches_get keys k : touches_only keys (get_field k).
Proof. by intros pd k' Hk. Qed.

Lemma touches_set keys k v : k ∈ keys -> touches_only keys (set_field k v).
Proof.
  intros Hin pd k' Hk. simpl. apply lookup_insert_ne. by intros ->.
Qed.

Lemma touches_set_fields keys l : l.*1 ⊆ keys -> touches_only keys (set_fields l).
Proof.
  intros Hin pd k Hk. simpl. apply assign_all_other. intros Hk'. by apply Hk, Hin.
Qed.

Lemma touches_bind {A B} keys (m : Try A) (f : A -> Try B) :
  touches_only keys m -> (forall x, touches_only keys (f x)) ->
  touches_only keys (try_bind m f).
Proof.
  intros Hm Hf pd k Hk. unfold try_bind. specialize (Hm pd k Hk).
  destruct (m pd) as [[x|] pd']; simpl in *; [|done].
  by rewrite (Hf x pd' k Hk).
Qed.

Lemma touches_enter keys pg st : touches_only keys (enter pg st).
Proof. unfold enter. case_bool_decide; [apply touches_raise|apply touches_ret]. Qed.

Lemma preserves_ret {A} I (x : A) : preserves I (try_ret x).
Proof. by intros pd H. Qed.

Lemma preserves_raise {A} I : preserves I (@raise A).
Proof. by intros pd H. Qed.

Lemma preserves_get I k : preserves I (get_field k).
Proof. by intros pd H. Qed.

Lemma preserves_bind {A B} I (m : Try A) (f : A -> Try B) :
  preserves I m -> (forall x, preserves I (f x)) -> preserves I (try_bind m f).
Proof.
  intros Hm Hf pd H. unfold try_bind. specialize (Hm pd H).
  destruct (m pd) as [[x|] pd']; simpl in *; [|done]. by apply Hf.
Qed.

Lemma preserves_enter I pg st : preserves I (enter pg st).
Proof. unfold enter. case_bool_decide; [apply preserves_raise|apply preserves_ret]. Qed.

(** A computation that does not touch the field [k] keeps what [k] holds. *)
Lemma touches_preserves {A} keys (m : Try A) k (v : option pyval) :
  touches_only keys m -> k ∉ keys -> preserves (fun pd => pd !! k = v) m.
Proof. intros Hm Hk pd H. by rewrite Hm. Qed.

Ltac in_list :=
  unfold scraped_keys, other_keys;
  repeat first [ apply list_elem_of_here | apply list_elem_of_further ].

Section WithDb.
Context {U : UnicodeDb}.

Lemma touches_country_loop keys sections :
  "country_of_origin"%string ∈ keys -> touches_only keys (country_loop sections).
Proof.
  intros Hin. induction sections as [|section_text rest IH]; cbn [country_loop].
  - apply touches_ret.
  - apply touches_bind.
    + destruct (first_group country_patterns section_text);
        [by apply touches_set|apply touches_ret].
    + intros _. apply touches_bind; [apply touches_get|].
      intros c. destruct (truthy_val c); [apply touches_ret|done].
Qed.

Lemma ingredients_fields_keys found :
  (ingredients_fields found).*1 ⊆ scraped_keys.
Proof.
  unfold ingredients_fields, count_fields. destruct found as [text|];
    [destruct (truthy text)|]; cbn [fmap list_fmap fst];
    intros k Hk; rewrite ?elem_of_cons, elem_of_nil in Hk;
    (repeat destruct Hk as [->|Hk]; [in_list..|done]).
Qed.

Ltac touches_step :=
  first
    [ apply touches_enter
    | apply touches_ret
    | apply touches_get
    | apply touches_set; in_list
    | apply touches_country_loop; in_list
    | apply touches_set_fields, ingredients_fields_keys ].

Lemma extract_page_touches pg : touches_only scraped_keys (extract_page pg).
Proof.
  unfold extract_page.
  repeat (apply touches_bind; [|intros ?]);
    try touches_step; try (destruct (select_one _ _); touches_step).
Qed.

Lemma extract_page_extended_touches pg :
  touches_only scraped_keys (extract_page_extended pg).
Proof.
  unfold extract_page_extended, brand_from_name.
  repeat (apply touches_bind; [|intros ?]);
    try touches_step;
    try (destruct (product_name_of _); touches_step);
    try (destruct (brand_of _); touches_step).
  repeat case_match; touches_step.
Qed.

(** *** The retry loop *)

(** The loop ends within the fuel it needs, after at most as many
    executions of its body as retries are left. *)
Lemma retry_loop_ends responses :
  forall fuel requests retries pd,
    MAX_RETRIES - retries <= fuel ->
    exists pd' n,
      retry_loop fuel responses requests retries pd = Some (pd', n)
      /\ n <= requests + (MAX_RETRIES - retries).
Proof.
  induction fuel as [|fuel IH]; intros requests retries pd Hfuel.
  - simpl. destruct (retries <? MAX_RETRIES) eqn:E.
    + apply Nat.ltb_lt in E. lia.
    + exists pd, requests. split; [done|lia].
  - cbn [retry_loop]. destruct (retries <? MAX_RETRIES) eqn:E.
    2:{ exists pd, requests. split; [done|lia]. }
    apply Nat.ltb_lt in E.
    assert (forall pd1, exists pd' n,
              retry_loop fuel responses (S requests) (retries + 1) pd1 = Some (pd', n)
              /\ n <= requests + (MAX_RETRIES - retries)) as Hnext.
    { intros pd1. destruct (IH (S requests) (retries + 1) pd1) as (pd' & n & ? & ?);
        [lia|]. exists pd', n. split; [done|lia]. }
    destruct (responses requests) as [|status pg]; [by apply Hnext|].
    destruct (status =? 429)%Z; [by apply Hnext|].
    destruct (status =? 200)%Z; simpl; [|by apply Hnext].
    destruct (extract_page pg pd) as [[[|]|] pd1]; [|by apply Hnext..].
    exists pd1, (S requests). split; [done|lia].
Qed.

(** Whatever the fuel, a run that ends has executed the body at most as
    many times as retries were left. *)
Lemma retry_loop_bound responses :
  forall fuel requests retries pd pd' n,
    retry_loop fuel responses requests retries pd = Some (pd', n) ->
    n <= requests + (MAX_RETRIES - retries).
Proof.
  induction fuel as [|fuel IH]; intros requests retries pd pd' n.
  - simpl. destruct (retries <? MAX_RETRIES); [done|]. intros [= <- <-]. lia.
  - cbn [retry_loop]. destruct (retries <? MAX_RETRIES) eqn:E;
      [|intros [= <- <-]; lia].
    apply Nat.ltb_lt in E.
    assert (forall pd1,
              retry_loop fuel responses (S requests) (retries + 1) pd1 = Some (pd', n) ->
              n <= requests + (MAX_RETRIES - retries)) as Hnext.
    { intros pd1 Hrun. apply IH in Hrun. lia. }
    destruct (responses requests) as [|status pg]; [by apply Hnext|].
    destruct (status =? 429)%Z; [by apply Hnext|].
    destruct (status =? 200)%Z; simpl; [|by apply Hnext].
    destruct (extract_page pg pd) as [[[|]|] pd1]; [|by apply Hnext..].
    intros [= <- <-]. lia.
Qed.

(** One execution of the body: it returns the record, or goes on with one
    more request made and one retry less. *)
Lemma retry_loop_step responses fuel requests retries pd :
  retries < MAX_RETRIES ->
  (exists pd', retry_loop (S fuel) responses requests retries pd
               = Some (pd', S requests))
  \/ (exists pd', retry_loop (S fuel) responses requests retries pd
                  = retry_loop fuel responses (S requests) (retries + 1) pd').
Proof.
  intros Hlt. cbn [retry_loop]. apply Nat.ltb_lt in Hlt. rewrite Hlt.
  destruct (responses requests) as [|status pg]; [right; by exists pd|].
  destruct (status =? 429)%Z; [right; by exists pd|].
  destruct (status =? 200)%Z; simpl; [|right; by exists pd].
  destruct (extract_page pg pd) as [[[|]|] pd1];
    [left; by exists pd1|right; by exists pd1..].
Qed.

(** The count of requests only grows. *)
Lemma retry_loop_requests responses :
  forall fuel requests retries pd pd' n,
    retry_loop fuel responses requests retries pd = Some (pd', n) ->
    requests <= n.
Proof.
  induction fuel as [|fuel IH]; intros requests retries pd pd' n.
  - simpl. destruct (retries <? MAX_RETRIES); [done|]. by intros [= <- <-].
  - cbn [retry_loop]. destruct (retries <? MAX_RETRIES); [|by intros [= <- <-]].
    assert (forall pd1,
              retry_loop fuel responses (S requests) (retries + 1) pd1 = Some (pd', n) ->
              requests <= n) as Hnext.
    { intros pd1 Hrun. apply IH in Hrun. lia. }
    destruct (responses requests) as [|status pg]; [by apply Hnext|].
    destruct (status =? 429)%Z; [by apply Hnext|].
    destruct (status =? 200)%Z; simpl; [|by apply Hnext].
    destruct (extract_page pg pd) as [[[|]|] pd1]; [|by apply Hnext..].
    intros [= <- <-]. lia.
Qed.

(** The loop only scrapes the pages it requests: a property that scraping
    each of them keeps is kept by the loop. *)
Lemma retry_loop_keeps (I : gmap string pyval -> Prop) responses :
  forall fuel requests retries pd pd' n,
    retry_loop fuel responses requests retries pd = Some (pd', n) ->
    (forall i pg, requests <= i < n -> scraped_page (responses i) = Some pg ->
                  preserves I (extract_page pg)) ->
    I pd -> I pd'.
Proof.
  induction fuel as [|fuel IH]; intros requests retries pd pd' n.
  - simpl. destruct (retries <? MAX_RETRIES); [done|]. by intros [= <- <-].
  - cbn [retry_loop]. destruct (retries <? MAX_RETRIES); [|by intros [= <- <-]].
    assert (forall pd1,
              retry_loop fuel responses (S requests) (retries + 1) pd1 = Some (pd', n) ->
              (forall i pg, requests <= i < n -> scraped_page (responses i) = Some pg ->
                            preserves I (extract_page pg)) ->
              I pd1 -> I pd') as Hnext.
    { intros pd1 Hrun Hpage H1. apply (IH _ _ _ _ _ Hrun); [|done].
      intros i pg Hi. apply Hpage. lia. }
    destruct (responses requests) as [|status pg] eqn:Hresp; [by apply Hnext|].
    destruct (status =? 429)%Z eqn:E429; [by apply Hnext|].
    destruct (status =? 200)%Z eqn:E200; simpl; [|by apply Hnext].
    assert (forall n', requests < n' ->
              (forall i pg, requests <= i < n' -> scraped_page (responses i) = Some pg ->
                            preserves I (extract_page pg)) ->
              I pd -> I (extract_page pg pd).2) as Hhere.
    { intros n' Hlt Hpage Hpd. apply (Hpage requests pg); [lia| |done].
      rewrite Hresp. simpl. by rewrite E200. }
    destruct (extract_page pg pd) as [[[|]|] pd1] eqn:Hex; simpl in Hhere.
    + intros [= <- <-] Hpage Hpd. apply (Hhere (S requests)); [lia|done..].
    + intros Hrun Hpage Hpd. apply (Hnext pd1 Hrun Hpage).
      apply (Hhere n); [|done..].
      apply retry_loop_requests in Hrun. lia.
    + intros Hrun Hpage Hpd. apply (Hnext pd1 Hrun Hpage).
      apply (Hhere n); [|done..].
      apply retry_loop_requests in Hrun. lia.
Qed.

End WithDb.
End ScraperFacts.

(** ** Fields a page does not yield *)

Module FieldFacts.
Import ReAux Notions ReFacts RowFacts Scraper ScraperFacts.

Lemma preserves_set_other k k' v (w : option pyval) :
  k' <> k -> preserves (fun pd => pd !! k = w) (set_field k' v).
Proof. intros Hne pd H. simpl. by rewrite lookup_insert_ne. Qed.

Lemma preserves_set_same k v :
  preserves (fun pd => pd !! k = Some v) (set_field k v).
Proof. intros pd H. simpl. apply lookup_insert_eq. Qed.

(** Assignments that give the field [k] no value other than [v]. *)
Lemma assign_all_keeps k v (l : list assignment) :
  (forall v', (k, v') ∈ l -> v' = v) ->
  forall pd, pd !! k = Some v -> assign_all pd l !! k = Some v.
Proof.
  unfold assign_all. induction l as [|[k' v'] l IH]; intros Hl pd H; simpl; [done|].
  apply IH.
  - intros v'' Hin. apply Hl. by apply list_elem_of_further.
  - destruct (decide (k' = k)) as [->|Hne].
    + rewrite (Hl v') by apply list_elem_of_here. apply lookup_insert_eq.
    + by rewrite lookup_insert_ne.
Qed.

Lemma preserves_set_fields k v l :
  (forall v', (k, v') ∈ l -> v' = v) ->
  preserves (fun pd => pd !! k = Some v) (set_fields l).
Proof. intros Hl pd H. simpl. by apply assign_all_keeps. Qed.

Lemma preserves_enter_bind {B} I pg st (m : Try B) :
  (p_fault pg <> Some st -> preserves I m) ->
  preserves I (try_bind (enter pg st) (fun _ => m)).
Proof.
  intros Hm pd H. unfold try_bind, enter. case_bool_decide; simpl; [done|].
  by apply Hm.
Qed.

Section WithDb.
Context {U : UnicodeDb}.

Lemma country_loop_keeps sections :
  existsb (fun section_text => found (first_group country_patterns section_text))
          sections = false ->
  preserves (fun pd => pd !! "country_of_origin"%string = Some PNone)
            (country_loop sections).
Proof.
  induction sections as [|section_text rest IH]; intros Hnone; cbn [country_loop].
  - apply preserves_ret.
  - cbn [existsb] in Hnone. apply orb_false_elim in Hnone as [Hhere Hrest].
    destruct (first_group country_patterns section_text); [done|].
    intros pd H. unfold try_bind, try_ret, get_field, row_get. simpl.
    rewrite H. simpl. by apply IH.
Qed.

Lemma country_loop_other k (w : option pyval) sections :
  k <> "country_of_origin"%string ->
  preserves (fun pd => pd !! k = w) (country_loop sections).
Proof.
  intros Hne. apply (touches_preserves ["country_of_origin"%string]).
  - apply touches_country_loop, list_elem_of_here.
  - rewrite elem_of_cons, elem_of_nil. by intros [?|?].
Qed.

(** What the ingredients block assigns to a field. *)
Lemma ingredients_fields_assigned found k v :
  (k, v) ∈ ingredients_fields found ->
  (k = "ingredients"%string /\ v = opt_str found)
  \/ (exists text, found = Some text /\ truthy text = true
        /\ (k = "ingredients_count"%string \/ k = "ingredients_list"%string)).
Proof.
  unfold ingredients_fields, count_fields. rewrite elem_of_cons.
  intros [[= -> ->]|Hin]; [by left|]. right.
  destruct found as [text|]; [|by apply elem_of_nil in Hin].
  destruct (truthy text) eqn:E; [|by apply elem_of_nil in Hin].
  exists text. split_and!; [done..|].
  rewrite !elem_of_cons, elem_of_nil in Hin.
  destruct Hin as [[= -> _]|[[= -> _]|[]]]; auto.
Qed.


Lemma ingredients_block_keeps found_text k :
  match found_text with
  | Some text =>
      k <> "ingredients"%string
      /\ (k = "ingredients_count"%string -> truthy text = false)
  | None => True
  end ->
  k <> "ingredients_list"%string ->
  preserves (fun pd => pd !! k = Some PNone)
            (set_fields (ingredients_fields found_text)).
Proof.
  intros Hf Hk. apply preserves_set_fields. intros v Hin.
  apply ingredients_fields_assigned in Hin as [[-> ->]|(text & -> & Ht & Hin)].
  - destruct found_text; [by destruct Hf|done].
  - destruct Hf as [_ Hf]. destruct Hin as [->| ->]; [|done].
    rewrite Hf in Ht; done.
Qed.

Ltac keeps_leaf :=
  first
    [ apply preserves_ret
    | apply preserves_get
    | apply preserves_set_same
    | apply preserves_set_other; done
    | apply country_loop_other; done
    | apply country_loop_keeps; assumption
    | apply ingredients_block_keeps; [|done];
      lazy beta iota; try case_match;
      first [ exact I | split; [done|]; first [done | intros _; assumption] ] ].

Ltac keeps_block :=
  try match goal with
      | |- preserves _ (match ?o with _ => _ end) => destruct o
      end;
  keeps_leaf.

Ltac keeps_steps :=
  lazymatch goal with
  | |- preserves _ (try_bind (enter _ _) _) =>
      apply preserves_enter_bind; intros ?; first [done | keeps_steps]
  | |- preserves _ (try_bind _ _) =>
      apply preserves_bind; [keeps_block | intros ?; keeps_steps]
  | |- _ => keeps_block
  end.

Ltac absent Hy :=
  unfold found in Hy;
  repeat match type of Hy with
         | context [match ?o with _ => _ end] =>
             destruct o eqn:?; try discriminate Hy
         end.

Lemma extract_page_keeps pg k :
  k ∈ optional_fields -> yields pg k = false ->
  preserves (fun pd => pd !! k = Some PNone) (extract_page pg).
Proof.
  intros Hk Hy. destruct pg as [s fault].
  unfold optional_fields in Hk. rewrite !elem_of_cons, elem_of_nil in Hk.
  unfold yields, yields_by, reached in Hy. cbn [p_soup p_fault] in Hy.
  unfold extract_page. cbn [p_soup].
  repeat destruct Hk as [->|Hk]; try done;
    cbn [field_source String.eqb Ascii.eqb Bool.eqb] in Hy;
    destruct fault as [[]|]; cbn [stage_index Nat.ltb Nat.leb andb] in Hy;
    absent Hy; try keeps_steps.
Qed.

Lemma brand_from_name_touches : touches_only ["brand"%string] brand_from_name.
Proof.
  unfold brand_from_name.
  repeat (apply touches_bind; [apply touches_get|intros ?]).
  repeat case_match;
    first [apply touches_ret | apply touches_set, list_elem_of_here].
Qed.

Lemma brand_from_name_other k (w : option pyval) :
  k <> "brand"%string -> preserves (fun pd => pd !! k = w) brand_from_name.
Proof.
  intros Hne. apply (touches_preserves ["brand"%string]).
  - apply brand_from_name_touches.
  - rewrite elem_of_cons, elem_of_nil. by intros [?|?].
Qed.

Ltac keeps_leaf_extended :=
  first [ keeps_leaf | apply brand_from_name_other; done ].

Ltac keeps_block_extended :=
  lazy beta iota;
  try match goal with
      | |- preserves _ (match ?o with _ => _ end) => destruct o
      end;
  keeps_leaf_extended.

Ltac keeps_steps_extended :=
  lazymatch goal with
  | |- preserves _ (try_bind (enter _ _) _) =>
      apply preserves_enter_bind; intros ?; first [done | keeps_steps_extended]
  | |- preserves _ (try_bind _ _) =>
      apply preserves_bind; [keeps_block_extended | intros ?; keeps_steps_extended]
  | |- _ => keeps_block_extended
  end.

Lemma extract_page_extended_keeps pg k :
  k ∈ optional_fields -> k <> "brand"%string -> yields_extended pg k = false ->
  preserves (fun pd => pd !! k = Some PNone) (extract_page_extended pg).
Proof.
  intros Hk Hb Hy. destruct pg as [s fault].
  unfold optional_fields in Hk. rewrite !elem_of_cons, elem_of_nil in Hk.
  unfold yields_extended, yields_by, reached in Hy. cbn [p_soup p_fault] in Hy.
  unfold extract_page_extended, product_name_of, brand_of. cbn [p_soup].
  repeat destruct Hk as [->|Hk]; try done;
    cbn [field_source_extended String.eqb Ascii.eqb Bool.eqb] in Hy;
    destruct fault as [[]|]; cbn [stage_index Nat.ltb Nat.leb andb] in Hy;
    absent Hy; try keeps_steps_extended.
Qed.

Lemma ingredients_fields_other found_text k pd :
  k ∉ ["ingredients"; "ingredients_count"; "ingredients_list"]%string ->
  assign_all pd (ingredients_fields found_text) !! k = pd !! k.
Proof.
  intros Hk. apply assign_all_other. intros Hin. apply Hk.
  apply list_elem_of_fmap in Hin as ([k' v] & -> & Hin). simpl.
  apply ingredients_fields_assigned in Hin as [[-> _]|(_ & _ & _ & [->| ->])];
    repeat first [apply list_elem_of_here | apply list_elem_of_further].
Qed.

(** The brand stays unset when no brand selector finds an element and the
    name, if the page has one, holds no brand. *)
Lemma extract_page_extended_keeps_brand pg :
  yields_extended pg "brand" = false ->
  preserves
    (fun pd =>
       pd !! "brand"%string = Some PNone
       /\ (pd !! "product_name"%string = Some PNone
           \/ exists name, product_name_of (p_soup pg) = Some name
                 /\ pd !! "product_name"%string = Some (PStr name)))
    (extract_page_extended pg).
Proof.
  intros Hy. destruct pg as [s fault].
  unfold yields_extended, yields_by, reached in Hy.
  cbn [p_soup p_fault field_source_extended String.eqb Ascii.eqb Bool.eqb] in Hy.
  unfold extract_page_extended. cbn [p_soup].
  apply preserves_enter_bind. intros Hname.
  apply preserves_bind.
  { destruct (product_name_of s) as [name|] eqn:E; [|apply preserves_ret].
    intros pd [Hb Hn]. simpl. split; [by rewrite lookup_insert_ne|].
    right. exists name. split; [done|]. apply lookup_insert_eq. }
  intros _. apply preserves_enter_bind. intros Hbrand.
  assert (found (first_selected s brand_selectors)
          || match product_name_of s with
             | Some name => brand_in_name name
             | None => false
             end = false) as Hsrc.
  { destruct fault as [[]|]; try done. }
  clear Hy. apply orb_false_elim in Hsrc as [Hsel Hguess].
  apply preserves_bind.
  { unfold brand_of. destruct (first_selected s brand_selectors) as [[]|]; [done|].
    apply preserves_ret. }
  intros _. apply preserves_bind.
  { intros pd [Hb Hn]. unfold brand_from_name, try_bind, get_field, row_get.
    rewrite Hb.
    destruct Hn as [Hn|(name & Hname' & Hn)]; rewrite Hn;
      cbn [default from_option id].
    - cbn [try_ret snd]. auto.
    - rewrite Hname' in Hguess. unfold brand_in_name in Hguess.
      cbn [truthy_val negb andb].
      destruct (truthy name); cbn [andb] in *;
        [|cbn [try_ret snd]; split; [done|eauto]].
      apply orb_false_elim in Hguess as [Hm Hc].
      destruct (match_start brand_prefix name); [done|]. rewrite Hc.
      cbn [try_ret snd]. split; [done|eauto]. }
  intros _. apply preserves_enter_bind. intros _.
  intros pd [Hb Hn]. cbn [set_fields snd].
  rewrite !ingredients_fields_other; [done|..];
    rewrite !elem_of_cons, elem_of_nil; intros [?|[?|[?|[]]]]; done.
Qed.

(** *** The initial record *)

Lemma initial_url url timestamp :
  initial_product_data url timestamp !! "url"%string = Some (PStr url).
Proof. unfold initial_product_data, assign_all. simpl. by simplify_map_eq. Qed.

Lemma initial_timestamp url timestamp :
  initial_product_data url timestamp !! "scrape_timestamp"%string
  = Some (PStr timestamp).
Proof. unfold initial_product_data, assign_all. simpl. by simplify_map_eq. Qed.

Lemma initial_optional url timestamp k :
  k ∈ optional_fields -> initial_product_data url timestamp !! k = Some PNone.
Proof.
  unfold optional_fields. rewrite !elem_of_cons, elem_of_nil. intros H.
  unfold initial_product_data, assign_all. simpl.
  repeat destruct H as [->|H]; try done; by simplify_map_eq.
Qed.

(** Scraping a page leaves the fields that are not scraped. *)
Lemma extract_page_frame pg k (w : option pyval) :
  k ∉ scraped_keys -> preserves (fun pd => pd !! k = w) (extract_page pg).
Proof. apply touches_preserves, extract_page_touches. Qed.

Lemma extract_page_extended_frame pg k (w : option pyval) :
  k ∉ scraped_keys -> preserves (fun pd => pd !! k = w) (extract_page_extended pg).
Proof. apply touches_preserves, extract_page_extended_touches. Qed.

Lemma unscraped_key k :
  k = "url"%string \/ k = "scrape_timestamp"%string -> k ∉ scraped_keys.
Proof.
  unfold scraped_keys. rewrite !elem_of_cons, elem_of_nil.
  intros [->| ->] H; repeat destruct H as [H|H]; done.
Qed.

(** What [scrape_with_extended_timeout] returns keeps a property of the
    initial record that scraping the page keeps. *)
Lemma scrape_with_extended_timeout_keeps (I : gmap string pyval -> Prop)
    url timestamp r :
  (forall pg, scraped_page r = Some pg -> preserves I (extract_page_extended pg)) ->
  I (initial_product_data url timestamp) ->
  I (scrape_with_extended_timeout url timestamp r).
Proof.
  intros Hpage H0. unfold scrape_with_extended_timeout.
  destruct r as [|status pg]; [done|]. simpl in Hpage.
  destruct (status =? 200)%Z; simpl; [|done]. by apply Hpage.
Qed.

End WithDb.
End FieldFacts.

(** ** navigate_with_retry *)

Module NavigateFacts.
Import Notions Advanced.

Lemma attempts_made_nil : attempts_made [] = 0.
Proof. done. Qed.

Lemma attempts_made_cons e events :
  attempts_made (e :: events)
  = (if is_attempt e then 1 else 0) + attempts_made events.
Proof.
  unfold attempts_made. destruct (is_attempt e) eqn:E.
  - by rewrite filter_cons_True.
  - rewrite filter_cons_False; [done|]. by rewrite E.
Qed.

Lemma attempts_made_app l1 l2 :
  attempts_made (l1 ++ l2) = attempts_made l1 + attempts_made l2.
Proof.
  induction l1 as [|e l1 IH]; [done|].
  change ((e :: l1) ++ l2) with (e :: (l1 ++ l2)).
  rewrite !attempts_made_cons, IH. lia.
Qed.

(** [k] failed attempts and one more make [k + 1] attempts. *)
Lemma attempts_made_retried k : attempts_made (retried k) = S k.
Proof.
  unfold retried. rewrite attempts_made_app, attempts_made_cons, attempts_made_nil.
  cbn [is_attempt].
  assert (forall a, attempts_made
            (flat_map (fun i => [Attempt i; Backoff (2 ^ Z.of_nat i) i]) (seq a k))
          = k) as ->; [|lia].
  induction k as [|k IH]; intros a; [done|].
  cbn [seq flat_map app]. rewrite !attempts_made_cons, IH. cbn [is_attempt]. lia.
Qed.

(** The loop makes at most one attempt per element of the range. *)
Lemma attempts_loop_bound max_retries succeeds attempts :
  attempts_made (attempts_loop max_retries succeeds attempts).2 <= length attempts.
Proof.
  induction attempts as [|attempt rest IH]; cbn [attempts_loop]; [done|].
  destruct (succeeds attempt).
  { cbn [snd length]. rewrite attempts_made_cons, attempts_made_nil.
    cbn [is_attempt]. lia. }
  destruct (Z.of_nat attempt <? max_retries)%Z.
  - destruct (attempts_loop max_retries succeeds rest) as [result events].
    cbn [snd length] in *. rewrite !attempts_made_cons. cbn [is_attempt]. lia.
  - cbn [snd length]. rewrite attempts_made_cons, attempts_made_nil.
    cbn [is_attempt]. lia.
Qed.

(** The events of the loop over the attempts [a], ..., [a + d], the last
    of which is the number of retries allowed. *)
Lemma attempts_loop_shape (retries : nat) succeeds :
  forall d a, a + d = retries ->
    exists j,
      j <= d
      /\ (forall i, a <= i < a + j -> succeeds i = false)
      /\ (succeeds (a + j) = false -> j = d)
      /\ attempts_loop (Z.of_nat retries) succeeds (seq a (S d))
         = (if succeeds (a + j) then Some true else None,
            flat_map (fun i => [Attempt i; Backoff (2 ^ Z.of_nat i) i]) (seq a j)
            ++ [Attempt (a + j)]).
Proof.
  induction d as [|d IH]; intros a Ha.
  - exists 0. rewrite Nat.add_0_r in *. subst a. split_and!; [done|lia|done|].
    cbn [seq attempts_loop]. destruct (succeeds retries); [done|].
    by rewrite Z.ltb_irrefl.
  - change (seq a (S (S d))) with (a :: seq (S a) (S d)).
    cbn [attempts_loop]. destruct (succeeds a) eqn:Hs.
    + exists 0. rewrite Nat.add_0_r, Hs. split_and!; [lia|lia|done..].
    + assert ((Z.of_nat a <? Z.of_nat retries)%Z = true) as ->
        by (apply Z.ltb_lt; lia).
      destruct (IH (S a)) as (j & Hj & Hfail & Hlast & Hrun); [lia|].
      exists (S j). replace (a + S j) with (S a + j) by lia.
      split_and!.
      * lia.
      * intros i Hi. destruct (decide (i = a)) as [->|Hne]; [done|].
        apply Hfail. lia.
      * intros H. rewrite (Hlast H). done.
      * rewrite Hrun. done.
Qed.

End NavigateFacts.

(** ** read_product_urls_from_boots_csv *)

Module CsvFacts.
Import Py Scraper.

(** [unique] keeps one copy of each value, and drops the values seen. *)
Lemma unique_from_spec l :
  forall seen,
    NoDup (unique_from seen l)
    /\ forall x, x ∈ unique_from seen l <-> x ∈ l /\ x ∉ seen.
Proof.
  induction l as [|y t IH]; intros seen; cbn [unique_from].
  - split; [constructor|]. intros x. rewrite elem_of_nil. tauto.
  - case_bool_decide as Hseen.
    + destruct (IH seen) as [Hnd Hin]. split; [done|].
      intros x. rewrite Hin, elem_of_cons. split; [tauto|].
      intros [[->|Hx] Hn]; [done|tauto].
    + destruct (IH (y :: seen)) as [Hnd Hin]. split.
      * constructor; [|done]. rewrite Hin, elem_of_cons. tauto.
      * intros x. rewrite elem_of_cons, Hin, !elem_of_cons.
        split.
        -- intros [->|[Hx Hn]]; [tauto|]. tauto.
        -- intros [[->|Hx] Hn]; [tauto|].
           destruct (decide (x = y)) as [->|Hne]; [tauto|]. right. tauto.
Qed.

Lemma unique_dropna_spec cells :
  NoDup (unique (dropna cells))
  /\ forall x, x ∈ unique (dropna cells) <-> x ∈ cells /\ x <> CNull.
Proof.
  unfold unique, dropna. destruct (unique_from_spec (filter (fun c => c <> CNull) cells) [])
    as [Hnd Hin].
  split; [done|]. intros x. rewrite Hin, list_elem_of_filter, elem_of_nil. tauto.
Qed.

Section WithDb.
Context {U : UnicodeDb}.

(** The column chosen is one of the table. *)
Lemma url_column_found columns name :
  url_column columns = Some name -> is_Some (column name columns).
Proof.
  intros H.
  assert (name ∈ map fst columns) as Hin.
  { unfold url_column in H. case_bool_decide as Hd; [by injection H as <-|].
    apply head_Some_elem_of in H. by apply list_elem_of_filter in H as [_ ?]. }
  clear H. induction columns as [|[n cells] rest IH]; simpl in *.
  - by apply elem_of_nil in Hin.
  - case_bool_decide as Hn; [done|]. apply IH.
    apply elem_of_cons in Hin as [->|?]; done.
Qed.

End WithDb.
End CsvFacts.

(** ** The count of ingredients and the list *)

Module CountFacts.
Import ReAux Notions ReFacts RowFacts ListFacts SplitFacts.
Import BatchFix BatchFixRows Scraper ScraperFacts FieldFacts.

Lemma count_matches_insert k v pd :
  k <> "ingredients_list"%string -> k <> "ingredients_count"%string ->
  count_matches pd -> count_matches (<[k := v]> pd).
Proof.
  intros Hl Hc H v'. rewrite !lookup_insert_ne by done. apply H.
Qed.

Lemma count_matches_set n v pd :
  list_length v = Some n ->
  count_matches
    (<["ingredients_list"%string := v]>
       (<["ingredients_count"%string := PInt (Z.of_nat n)]> pd)).
Proof.
  intros Hn v'. rewrite lookup_insert_eq. intros [= <-]. exists n. split; [done|].
  rewrite lookup_insert_ne by done. apply lookup_insert_eq.
Qed.

(** The invariant only reads the two fields. *)
Lemma count_matches_touches {A} keys (m : Try A) :
  touches_only keys m ->
  "ingredients_list"%string ∉ keys -> "ingredients_count"%string ∉ keys ->
  preserves count_matches m.
Proof.
  intros Hm Hl Hc pd H v. rewrite !Hm by done. apply H.
Qed.

Lemma touches_mono {A} keys keys' (m : Try A) :
  keys ⊆ keys' -> touches_only keys m -> touches_only keys' m.
Proof. intros Hsub Hm pd k Hk. apply Hm. intros Hin. by apply Hk, Hsub. Qed.

Lemma other_keys_list : "ingredients_list"%string ∉ other_keys.
Proof.
  unfold other_keys.
  repeat (apply not_elem_of_cons; split; [done|]). apply not_elem_of_nil.
Qed.

Lemma other_keys_count : "ingredients_count"%string ∉ other_keys.
Proof.
  unfold other_keys.
  repeat (apply not_elem_of_cons; split; [done|]). apply not_elem_of_nil.
Qed.

Section WithDb.
Context {U : UnicodeDb}.

(** The list and its count, as the scraper computes them. *)
Lemma count_fields_matches text pd :
  count_matches (assign_all pd (count_fields text)).
Proof. unfold count_fields, assign_all. simpl. by apply count_matches_set. Qed.

Lemma count_fields_with_count text : list_with_count (count_fields text).
Proof.
  intros v Hin. unfold count_fields in *.
  rewrite !elem_of_cons, elem_of_nil in Hin.
  destruct Hin as [[=]|[[= ->]|[]]]. eexists. split; [done|].
  apply list_elem_of_here.
Qed.

(** The three assignments of the clean-up scripts, for a list of
    normalized names. *)
Lemma fixed_fields_matches cleaned_text items pd :
  Forall normalized_name items ->
  count_matches (assign_all pd (fixed_fields cleaned_text items)).
Proof.
  intros Hn. unfold fixed_fields, assign_all. simpl.
  apply count_matches_set. simpl. by rewrite comma_items_normalized.
Qed.

Lemma fixed_fields_with_count cleaned_text items :
  Forall normalized_name items ->
  list_with_count (fixed_fields cleaned_text items).
Proof.
  intros Hn v Hin. unfold fixed_fields in *.
  rewrite !elem_of_cons, elem_of_nil in Hin.
  destruct Hin as [[=]|[[=]|[[= ->]|[]]]]. exists (length items). split.
  - simpl. by rewrite comma_items_normalized.
  - apply list_elem_of_further, list_elem_of_here.
Qed.

Lemma extract_ingredients_list_normalized text :
  Forall normalized_name (extract_ingredients_list text).
Proof.
  unfold extract_ingredients_list.
  destruct (truthy text); [|constructor]. apply kept_items_normalized.
Qed.

Lemma extract_and_clean_normalized patterns v :
  Forall normalized_name (FinalFix.extract_and_clean_with patterns v).2.
Proof.
  destruct v as [| | | | |s|]; try constructor.
  unfold FinalFix.extract_and_clean_with.
  destruct (truthy (strip s)); [|constructor]. apply kept_items_normalized.
Qed.

Lemma ingredients_fields_matches found_text pd :
  count_matches pd -> count_matches (assign_all pd (ingredients_fields found_text)).
Proof.
  intros H. unfold ingredients_fields.
  change (assign_all pd (?a :: ?l)) with (assign_all (<[a.1 := a.2]> pd) l).
  destruct found_text as [text|]; [destruct (truthy text)|];
    first [apply count_fields_matches | by apply count_matches_insert].
Qed.

Lemma ingredients_fields_with_count found_text :
  list_with_count (ingredients_fields found_text).
Proof.
  intros v Hin. unfold ingredients_fields in *.
  apply elem_of_cons in Hin as [[=]|Hin].
  destruct found_text as [text|]; [destruct (truthy text)|];
    try (by apply elem_of_nil in Hin).
  destruct (count_fields_with_count text v Hin) as (n & Hn & Hc).
  exists n. split; [done|]. by apply list_elem_of_further.
Qed.

Lemma backfill_fields_matches product :
  count_matches product -> count_matches (assign_all product (backfill_fields product)).
Proof.
  intros H. unfold backfill_fields. repeat case_match; try done.
  apply count_fields_matches.
Qed.

Lemma backfill_fields_with_count product : list_with_count (backfill_fields product).
Proof.
  unfold backfill_fields.
  repeat case_match; first [apply count_fields_with_count | by intros v ?%elem_of_nil].
Qed.

Lemma process_row_matches row :
  (process_row row).2 = true \/ count_matches row ->
  count_matches (process_row row).1.
Proof.
  unfold process_row. destruct (missing_text (row_get "ingredients" row)).
  { by intros [?|?]. }
  pose proof (extract_ingredients_list_normalized
                (clean_ingredients_text (row_get "ingredients" row))) as Hn.
  destruct (extract_ingredients_list _) as [|item items]; [by intros [?|?]|].
  intros _. by apply fixed_fields_matches.
Qed.

Lemma final_row_fields_with_count v : list_with_count (FinalFix.row_fields v).
Proof.
  unfold FinalFix.row_fields, FinalFix.extract_and_clean_ingredients.
  pose proof (extract_and_clean_normalized
                [Patterns.pattern1; Patterns.pattern2; Patterns.pattern3;
                 Patterns.pattern4] v) as Hn.
  destruct (FinalFix.extract_and_clean_with _ v) as [cleaned_text [|item items]].
  - by intros w ?%elem_of_nil.
  - by apply fixed_fields_with_count.
Qed.

Lemma final_row_fields_matches v pd :
  count_matches pd -> count_matches (assign_all pd (FinalFix.row_fields v)).
Proof.
  intros H. unfold FinalFix.row_fields, FinalFix.extract_and_clean_ingredients.
  pose proof (extract_and_clean_normalized
                [Patterns.pattern1; Patterns.pattern2; Patterns.pattern3;
                 Patterns.pattern4] v) as Hn.
  destruct (FinalFix.extract_and_clean_with _ v) as [cleaned_text [|item items]];
    [done|]. by apply fixed_fields_matches.
Qed.

Lemma fix_row_fields_with_count v : list_with_count (FixIngredientsList.row_fields v).
Proof.
  unfold FixIngredientsList.row_fields.
  destruct (missing_text v); [by intros w ?%elem_of_nil|].
  pose proof (extract_ingredients_list_normalized (clean_ingredients_text v)) as Hn.
  destruct (extract_ingredients_list _) as [|item items].
  - by intros w ?%elem_of_nil.
  - by apply fixed_fields_with_count.
Qed.

Lemma fix_row_fields_matches v pd :
  count_matches pd -> count_matches (assign_all pd (FixIngredientsList.row_fields v)).
Proof.
  intros H. unfold FixIngredientsList.row_fields.
  destruct (missing_text v); [done|].
  pose proof (extract_ingredients_list_normalized (clean_ingredients_text v)) as Hn.
  destruct (extract_ingredients_list _) as [|item items]; [done|].
  by apply fixed_fields_matches.
Qed.

(** *** The scraper keeps the invariant *)

Ltac other_block :=
  apply (count_matches_touches other_keys);
  [ try match goal with
        | |- touches_only _ (match ?o with _ => _ end) => destruct o
        end;
    first [ apply touches_ret | apply touches_get | apply touches_enter
          | apply touches_set; in_list
          | apply touches_country_loop; in_list
          | apply (touches_mono ["brand"%string]);
            [ intros k Hk; apply elem_of_cons in Hk as [->|Hk];
              [in_list|by apply elem_of_nil in Hk]
            | apply brand_from_name_touches ] ]
  | apply other_keys_list
  | apply other_keys_count ].

Ltac count_block :=
  first [ by intros pd H; apply ingredients_fields_matches | other_block ].

Ltac count_steps :=
  lazymatch goal with
  | |- preserves _ (try_bind _ _) =>
      apply preserves_bind; [count_block | intros ?; count_steps]
  | |- _ => count_block
  end.

Lemma extract_page_matches pg : preserves count_matches (extract_page pg).
Proof. unfold extract_page. count_steps. Qed.

Lemma extract_page_extended_matches pg :
  preserves count_matches (extract_page_extended pg).
Proof. unfold extract_page_extended. count_steps. Qed.

Lemma initial_matches url timestamp :
  count_matches (initial_product_data url timestamp).
Proof.
  intros v. unfold initial_product_data, assign_all. simpl. by simplify_map_eq.
Qed.

End WithDb.
End CountFacts.

(** * The claims *)

Module Claims.
Import ReAux Notions ReFacts CharFacts ItemFacts ListFacts RowFacts.
Import SplitFacts SettledFacts ScraperFacts FieldFacts NavigateFacts CsvFacts.
Import CountFacts.
Import Patterns BatchFix BatchFixRows Scraper Advanced.

(** C1, as stated, fails: the characters deleted one by one leave two
    blanks behind in "a . b", which a second clean-up collapses. *)
Lemma clean_ingredients_text_not_idempotent :
  @clean_ingredients_text ascii_db
     (PStr (@clean_ingredients_text ascii_db (PStr (str "a . b"))))
  <> @clean_ingredients_text ascii_db (PStr (str "a . b")).
Proof. vm_compute. discriminate. Qed.

(** C1, amended.  [clean_ingredients_text] is idempotent on every input
    whose cleaned text is settled (no opening angle bracket, single blanks
    only, no five digits in a row, neither "active" nor "ingredients" in
    any letter case): a second clean-up returns that text unchanged, and
    the list extracted from it is the same.  So is the cleaned text of
    [extract_and_clean_ingredients], which is not stripped, when it is
    settled and not blank. *)
Theorem clean_ingredients_text_idempotent_settled `{U : UnicodeDb} (v : pyval) :
  (settled (clean_ingredients_text v) = true ->
   clean_ingredients_text (PStr (clean_ingredients_text v))
   = clean_ingredients_text v
   /\ extract_ingredients_list
        (clean_ingredients_text (PStr (clean_ingredients_text v)))
      = extract_ingredients_list (clean_ingredients_text v))
  /\ (let cleaned_text := (FinalFix.extract_and_clean_ingredients v).1 in
      settled cleaned_text = true ->
      cleaned_text = [] \/ truthy (strip cleaned_text) = true ->
      (FinalFix.extract_and_clean_ingredients (PStr cleaned_text)).1 = cleaned_text).
Proof.
  split.
  - intros H. destruct (clean_output v) as [Hdel Hstrip].
    by rewrite clean_settled.
  - intros cleaned_text Hs Hblank.
    apply extract_and_clean_settled; [done..| |done].
    apply extract_and_clean_output.
Qed.

Lemma clean_ingredients_text_idempotent_settled_witness :
  settled (@clean_ingredients_text ascii_db
             (PStr (str "Ingredients: Aqua (Water), Glycerin, <b>Parfum</b>.")))
  = true
  /\ @clean_ingredients_text ascii_db
       (PStr (str "Ingredients: Aqua (Water), Glycerin, <b>Parfum</b>."))
     = str "Aqua (Water), Glycerin, Parfum"
  /\ @clean_ingredients_text ascii_db
       (PStr (@clean_ingredients_text ascii_db
                (PStr (str "Ingredients: Aqua (Water), Glycerin, <b>Parfum</b>."))))
     = @clean_ingredients_text ascii_db
         (PStr (str "Ingredients: Aqua (Water), Glycerin, <b>Parfum</b>.")).
Proof.
  split; [vm_compute; reflexivity|]. split; [vm_compute; reflexivity|].
  apply (@clean_ingredients_text_idempotent_settled ascii_db).
  vm_compute; reflexivity.
Defined.




(** C7.  Every element of the list that [extract_ingredients_list] returns
    (batch_fix_ingredients.py, fix_ingredients_list.py), and of the list
    that [extract_and_clean_ingredients] returns (final_fix_ingredients.py,
    fix_sample.py), is a normalized name: it holds no comma, has at least
    two characters, and starts and ends with a letter or digit. *)
Theorem ingredients_list_items_normalized `{U : UnicodeDb} :
  (forall text, Forall normalized_name (extract_ingredients_list text))
  /\ (forall v, Forall normalized_name (FinalFix.extract_and_clean_ingredients v).2)
  /\ (forall v, Forall normalized_name (FinalFix.extract_and_clean_ingredients_sample v).2).
Proof.
  split_and!.
  - intros text. unfold extract_ingredients_list.
    destruct (truthy text); [|constructor]. apply kept_items_normalized.
  - intros [| | | | |s|]; try constructor.
    unfold FinalFix.extract_and_clean_ingredients, FinalFix.extract_and_clean_with.
    destruct (truthy (strip s)); [|constructor]. apply kept_items_normalized.
  - intros [| | | | |s|]; try constructor.
    unfold FinalFix.extract_and_clean_ingredients_sample, FinalFix.extract_and_clean_with.
    destruct (truthy (strip s)); [|constructor]. apply kept_items_normalized.
Qed.

(** C9.  [process_batch] returns one record per row, in the rows' order;
    each differs from its row at most in the fields [ingredients],
    [ingredients_count] and [ingredients_list], and is the row itself when
    the ingredients text is missing or yields an empty list. *)
Theorem process_batch_frame `{U : UnicodeDb} (batch_df : list (gmap string pyval)) :
  length (process_batch batch_df).1 = length batch_df
  /\ Forall2 row_frame batch_df (process_batch batch_df).1.
Proof.
  rewrite process_batch_results. split; [by rewrite length_map|].
  induction batch_df as [|row rows IH]; simpl; constructor; [|done].
  apply process_row_frame.
Qed.

Lemma ingredients_missing_guard (row : gmap string pyval) :
  ingredients_missing row -> missing_text (row_get "ingredients" row) = true.
Proof.
  unfold ingredients_missing, row_get.
  destruct (row !! "ingredients"%string) as [[| | | | |s|]|]; try done.
  intros H. simpl. by rewrite strip_blank.
Qed.

(** C3.  For a row whose ingredients field is absent, not a string, or
    white space only: [clean_ingredients_text] returns the empty string,
    [extract_and_clean_ingredients] the empty string and the empty list,
    and [process_batch] puts the row, unchanged, at the row's place in its
    results.  The functions are total: none of them subscripts the row or
    calls a string operation on a value that is not a string. *)
Theorem missing_ingredients_skipped `{U : UnicodeDb} (row : gmap string pyval) :
  ingredients_missing row ->
  clean_ingredients_text (row_get "ingredients" row) = []
  /\ FinalFix.extract_and_clean_ingredients (row_get "ingredients" row) = ([], [])
  /\ process_row row = (row, false)
  /\ forall batch_df i,
       batch_df !! i = Some row -> (process_batch batch_df).1 !! i = Some row.
Proof.
  intros H%ingredients_missing_guard. split_and!.
  - by apply clean_missing.
  - unfold FinalFix.extract_and_clean_ingredients, FinalFix.extract_and_clean_with.
    destruct (row_get "ingredients" row) as [| | | | |s|]; try done.
    simpl in H. by destruct (truthy (strip s)).
  - by apply process_row_missing.
  - intros batch_df i Hi. rewrite process_batch_results.
    change (map ?f ?l) with (f <$> l). rewrite list_lookup_fmap, Hi. simpl.
    by rewrite process_row_missing.
Qed.

(** A row with no ingredients field at all, alone in its batch. *)
Lemma missing_ingredients_skipped_witness :
  ingredients_missing ∅
  /\ @clean_ingredients_text ascii_db (row_get "ingredients" ∅) = []
  /\ @FinalFix.extract_and_clean_ingredients ascii_db (row_get "ingredients" ∅) = ([], [])
  /\ @process_row ascii_db ∅ = (∅, false)
  /\ forall batch_df i,
       batch_df !! i = Some ∅ -> (@process_batch ascii_db batch_df).1 !! i = Some ∅.
Proof.
  split; [exact I|].
  apply (@missing_ingredients_skipped ascii_db ∅). exact I.
Defined.

(** C5, as stated, fails for the cascade of [extract_ingredients]: on a
    page where the first ingredients selector matches an element that does
    not mention ingredients, the later selectors are consulted and the
    text of the second is returned. *)
Lemma earlier_selector_match_skipped :
  head ingredients_selectors = Some ".product-ingredients"%string
  /\ select Examples.two_selector_page ".product-ingredients" = [str "Contains nuts"]
  /\ @from_selectors ascii_db Examples.two_selector_page ingredients_selectors
     = Some (str "Aqua, Glycerin, Parfum, Alcohol")
  /\ @extract_ingredients ascii_db Examples.two_selector_page
     = Some (str "Aqua, Glycerin, Parfum, Alcohol").
Proof. vm_compute. done. Qed.

(** C5, amended.  The cascades for the product name and the brand in
    [scrape_with_extended_timeout] try their selectors in order and stop
    at the first that finds an element, whose stripped text is the value
    (the page title cut at the shop's suffix).  The cascade of
    [extract_ingredients] tries its selectors in order, and the elements
    of each in document order, and stops at the first element that passes
    validation; elements that do not pass are skipped, and the cascade is
    consulted only when no ingredients heading gave a text. *)
Theorem selector_cascade_first_accepted `{U : UnicodeDb} (s : soup) :
  (forall pre sel post text,
      product_name_selectors = pre ++ sel :: post ->
      Forall (fun x => select_one s x = None) pre ->
      select_one s sel = Some text ->
      product_name_of s
      = Some (if bool_decide (sel = "title"%string)
              then sub boots_suffix [] (strip text) else strip text))
  /\ (forall pre sel post text,
      brand_selectors = pre ++ sel :: post ->
      Forall (fun x => select_one s x = None) pre ->
      select_one s sel = Some text ->
      brand_of s = Some (strip text))
  /\ (Forall (fun x => select_one s x = None) product_name_selectors ->
      product_name_of s = None)
  /\ (Forall (fun x => select_one s x = None) brand_selectors ->
      brand_of s = None)
  /\ (forall pre sel post before text after ingredients_text,
      Forall (fun x => Forall (fun t => from_selected t = None) (select s x)) pre ->
      select s sel = before ++ text :: after ->
      Forall (fun t => from_selected t = None) before ->
      from_selected text = Some ingredients_text ->
      from_selectors s (pre ++ sel :: post) = Some ingredients_text)
  /\ (forall selectors,
      Forall (fun x => Forall (fun t => from_selected t = None) (select s x)) selectors ->
      from_selectors s selectors = None)
  /\ (first_some from_header
        (filter (fun h => is_ingredient_header h = true) (headers s)) = None ->
      forall ingredients_text,
        from_selectors s ingredients_selectors = Some ingredients_text ->
        extract_ingredients s = Some ingredients_text).
Proof.
  split_and!.
  - intros pre sel post text Hl Hpre Hsel. unfold product_name_of.
    by rewrite Hl, (first_selected_first s pre sel post text).
  - intros pre sel post text Hl Hpre Hsel. unfold brand_of.
    by rewrite Hl, (first_selected_first s pre sel post text).
  - intros H. unfold product_name_of. by rewrite first_selected_none.
  - intros H. unfold brand_of. by rewrite first_selected_none.
  - intros pre sel post before text after ingredients_text Hpre Hsel Hbefore Htext.
    unfold from_selectors. rewrite first_some_app.
    rewrite (first_some_none _ pre).
    + cbn [or_else first_some]. rewrite Hsel, first_some_app.
      rewrite (first_some_none _ before) by done.
      cbn [or_else first_some]. by rewrite Htext.
    + eapply Forall_impl; [exact Hpre|]. intros x Hx. by apply first_some_none.
  - intros selectors H. unfold from_selectors. apply first_some_none.
    eapply Forall_impl; [exact H|]. intros x Hx. by apply first_some_none.
  - intros Hh ingredients_text Hsel. unfold extract_ingredients.
    rewrite Hh, Hsel. done.
Qed.

(** The page title is the fifth selector of the name cascade, the brand
    name the third of the brand cascade. *)
Lemma selector_cascade_first_accepted_witness :
  @product_name_of ascii_db Examples.titled_page = Some (str "Day Cream")
  /\ brand_of Examples.titled_page = Some (str "No7").
Proof.
  destruct (@selector_cascade_first_accepted ascii_db Examples.titled_page)
    as (Hname & Hbrand & _).
  split.
  - exact (Hname [ "h1.product-details-tile__title"; "h1.product-title";
                   "h1.product-name"; "h1.product__title" ]%string
                 "title"%string [] (str "Day Cream | Boots") eq_refl
                 ltac:(repeat constructor) eq_refl).
  - exact (Hbrand [ "a.product-details-tile__brand"; ".product-brand" ]%string
                  ".brand-name"%string [ ".product-info__brand"%string ]
                  (str " No7 ") eq_refl ltac:(repeat constructor) eq_refl).
Defined.

(** C4.  Given the fuel for [MAX_RETRIES] executions of its loop body,
    [scrape_boots_product] returns a record whatever the requests meet
    (network errors, other statuses than 200, pages in which a block of
    the [try] body raises, pages without the elements looked for).  The
    record holds the URL and the time stamp; every optional field that
    none of the pages scraped yields holds [None]; when no request meets a
    page with status 200 the record is the initial one.  The same holds of
    [scrape_with_extended_timeout], which makes one request. *)
Theorem scrape_returns_record `{U : UnicodeDb}
    (fuel : nat) (url timestamp : pystr) (responses : nat -> response) :
  MAX_RETRIES <= fuel ->
  (exists product_data n,
      scrape_boots_product fuel url timestamp responses = Some (product_data, n)
      /\ product_data !! "url"%string = Some (PStr url)
      /\ product_data !! "scrape_timestamp"%string = Some (PStr timestamp)
      /\ (forall k, k ∈ optional_fields ->
            (forall i pg, i < n -> scraped_page (responses i) = Some pg ->
                          yields pg k = false) ->
            product_data !! k = Some PNone)
      /\ ((forall i, i < n -> scraped_page (responses i) = None) ->
          product_data = initial_product_data url timestamp))
  /\ (forall r,
        let product_data := scrape_with_extended_timeout url timestamp r in
        product_data !! "url"%string = Some (PStr url)
        /\ product_data !! "scrape_timestamp"%string = Some (PStr timestamp)
        /\ (forall k, k ∈ optional_fields ->
              (forall pg, scraped_page r = Some pg -> yields_extended pg k = false) ->
              product_data !! k = Some PNone)
        /\ (scraped_page r = None ->
            product_data = initial_product_data url timestamp)).
Proof.
  intros Hfuel. split.
  - destruct (retry_loop_ends responses fuel 0 0 (initial_product_data url timestamp))
      as (product_data & n & Hrun & _); [lia|].
    exists product_data, n. split; [done|].
    pose proof (fun I => retry_loop_keeps I responses _ _ _ _ _ _ Hrun) as Hkeeps.
    split_and!.
    + apply (Hkeeps (fun pd => pd !! "url"%string = Some (PStr url)));
        [|apply initial_url].
      intros i pg _ _. apply extract_page_frame, unscraped_key. by left.
    + apply (Hkeeps (fun pd => pd !! "scrape_timestamp"%string = Some (PStr timestamp)));
        [|apply initial_timestamp].
      intros i pg _ _. apply extract_page_frame, unscraped_key. by right.
    + intros k Hk Hpages.
      apply (Hkeeps (fun pd => pd !! k = Some PNone)); [|by apply initial_optional].
      intros i pg Hi Hpg. apply extract_page_keeps; [done|].
      apply (Hpages i); [lia|done].
    + intros Hnone.
      apply (Hkeeps (fun pd => pd = initial_product_data url timestamp)); [|done].
      intros i pg Hi Hpg. rewrite Hnone in Hpg by lia. done.
  - intros r product_data. subst product_data. split_and!.
    + apply (scrape_with_extended_timeout_keeps
               (fun pd => pd !! "url"%string = Some (PStr url))); [|apply initial_url].
      intros pg _. apply extract_page_extended_frame, unscraped_key. by left.
    + apply (scrape_with_extended_timeout_keeps
               (fun pd => pd !! "scrape_timestamp"%string = Some (PStr timestamp)));
        [|apply initial_timestamp].
      intros pg _. apply extract_page_extended_frame, unscraped_key. by right.
    + intros k Hk Hpage. destruct (decide (k = "brand"%string)) as [->|Hne].
      * refine (proj1 (scrape_with_extended_timeout_keeps
                  (fun pd => pd !! "brand"%string = Some PNone
                             /\ (pd !! "product_name"%string = Some PNone
                                 \/ exists name,
                                      match scraped_page r with
                                      | Some pg => product_name_of (p_soup pg) = Some name
                                      | None => False
                                      end
                                      /\ pd !! "product_name"%string = Some (PStr name)))
                  url timestamp r _ _)).
        -- intros pg Hpg. rewrite Hpg.
           by apply extract_page_extended_keeps_brand, Hpage.
        -- split; [by apply initial_optional|left].
           apply initial_optional. unfold optional_fields.
           apply list_elem_of_here.
      * apply (scrape_with_extended_timeout_keeps (fun pd => pd !! k = Some PNone));
          [|by apply initial_optional].
        intros pg Hpg. apply extract_page_extended_keeps; [done..|]. by apply Hpage.
    + intros Hnone.
      apply (scrape_with_extended_timeout_keeps
               (fun pd => pd = initial_product_data url timestamp)); [|done].
      intros pg Hpg. by rewrite Hnone in Hpg.
Qed.

(** A network error, then a page that has a name and nothing else: the
    second request ends the loop, and the brand keeps its default. *)
Lemma scrape_returns_record_witness :
  MAX_RETRIES <= 3
  /\ (p ← @scrape_boots_product ascii_db 3 (str "https://x/1")
             (str "2025-01-01 00:00:00") Examples.error_then_named;
      name ← p.1 !! "product_name"%string; Some (name, p.2))
     = Some (PStr (str "Day Cream"), 2)
  /\ (exists product_data n,
        @scrape_boots_product ascii_db 3 (str "https://x/1") (str "2025-01-01 00:00:00")
          Examples.error_then_named = Some (product_data, n)
        /\ product_data !! "url"%string = Some (PStr (str "https://x/1"))
        /\ product_data !! "scrape_timestamp"%string
           = Some (PStr (str "2025-01-01 00:00:00"))
        /\ (forall k, k ∈ optional_fields ->
              (forall i pg, i < n ->
                 scraped_page (Examples.error_then_named i) = Some pg ->
                 @yields ascii_db pg k = false) ->
              product_data !! k = Some PNone)
        /\ ((forall i, i < n -> scraped_page (Examples.error_then_named i) = None) ->
            product_data
            = initial_product_data (str "https://x/1") (str "2025-01-01 00:00:00"))).
Proof.
  split; [unfold MAX_RETRIES; lia|]. split.
  - vm_compute; reflexivity.
  - apply (@scrape_returns_record ascii_db 3 (str "https://x/1")
             (str "2025-01-01 00:00:00") Examples.error_then_named).
    unfold MAX_RETRIES; lia.
Defined.

(** C6.  The loop of [scrape_boots_product] is bounded by [MAX_RETRIES],
    which is 3: each execution of its body returns the record or goes on
    with one retry less, so that with fuel for [MAX_RETRIES] executions
    the call returns, and a call that returns has executed the body at
    most [MAX_RETRIES] times.  [navigate_with_retry] attempts to navigate
    at most [max_retries + 1] times (no time when that number is
    negative); when the URL is allowed and [max_retries] is not negative,
    it waits once, then makes the attempts 0 to [k], each failed attempt
    [i] before the last followed by a sleep of [2 ^ i] times the factor
    drawn, and it returns [True] when the attempt [k] succeeds and [None]
    when it fails, [k] then being [max_retries]. *)
Theorem retry_loops_bounded `{U : UnicodeDb} :
  MAX_RETRIES = 3
  /\ (forall fuel url timestamp responses,
        MAX_RETRIES <= fuel ->
        exists product_data n,
          scrape_boots_product fuel url timestamp responses = Some (product_data, n)
          /\ n <= MAX_RETRIES)
  /\ (forall fuel url timestamp responses product_data n,
        scrape_boots_product fuel url timestamp responses = Some (product_data, n) ->
        n <= MAX_RETRIES)
  /\ (forall fuel responses requests retries product_data,
        retries < MAX_RETRIES ->
        (exists pd', retry_loop (S fuel) responses requests retries product_data
                     = Some (pd', S requests))
        \/ (exists pd', retry_loop (S fuel) responses requests retries product_data
                        = retry_loop fuel responses (S requests) (retries + 1) pd'))
  /\ (forall self_max_retries allowed max_retries succeeds,
        let limit := default self_max_retries max_retries in
        let run := navigate_with_retry self_max_retries allowed max_retries succeeds in
        attempts_made run.2 <= Z.to_nat (limit + 1)
        /\ (allowed = false -> run = (None, []))
        /\ (allowed = true -> (0 <= limit)%Z ->
            exists k,
              (Z.of_nat k <= limit)%Z
              /\ run.2 = Delay :: retried k
              /\ attempts_made run.2 = S k
              /\ (forall i, i < k -> succeeds i = false)
              /\ run.1 = (if succeeds k then Some true else None)
              /\ (succeeds k = false -> Z.of_nat k = limit))).
Proof.
  split_and!.
  - done.
  - intros fuel url timestamp responses Hfuel.
    destruct (retry_loop_ends responses fuel 0 0 (initial_product_data url timestamp))
      as (product_data & n & Hrun & Hn); [lia|].
    exists product_data, n. split; [done|lia].
  - intros fuel url timestamp responses product_data n Hrun.
    apply retry_loop_bound in Hrun. lia.
  - intros fuel responses requests retries product_data.
    apply retry_loop_step.
  - intros self_max_retries allowed max_retries succeeds limit run.
    subst run. unfold navigate_with_retry. fold limit.
    destruct allowed.
    2:{ cbn [snd]. split_and!; [rewrite attempts_made_nil; lia|done|done]. }
    pose proof (attempts_loop_bound limit succeeds (range (limit + 1))) as Hbound.
    unfold range in *. rewrite length_seq in Hbound.
    destruct (attempts_loop limit succeeds (seq 0 (Z.to_nat (limit + 1))))
      as [result events] eqn:Hrun.
    cbn [fst snd] in *. split_and!.
    + rewrite attempts_made_cons. cbn [is_attempt]. lia.
    + done.
    + intros _ Hlimit.
      destruct (attempts_loop_shape (Z.to_nat limit) succeeds (Z.to_nat limit) 0)
        as (k & Hk & Hfail & Hlast & Hshape); [lia|].
      rewrite Z2Nat.id in Hshape by done.
      replace (S (Z.to_nat limit)) with (Z.to_nat (limit + 1)) in Hshape by lia.
      rewrite Hrun in Hshape. injection Hshape as -> ->.
      exists k. cbn [Nat.add] in *. split_and!.
      * lia.
      * done.
      * rewrite attempts_made_cons. cbn [is_attempt]. apply attempts_made_retried.
      * intros i Hi. apply Hfail. lia.
      * done.
      * intros H. apply Hlast in H. lia.
Qed.

(** Three retries allowed; the first two attempts fail, the third goes
    through. *)
Lemma retry_loops_bounded_witness :
  (navigate_with_retry 3 true None (fun attempt => 2 <=? attempt)).2
  = [ Delay; Attempt 0; Backoff 1 0; Attempt 1; Backoff 2 1; Attempt 2 ]
  /\ attempts_made
       (navigate_with_retry 3 true None (fun attempt => 2 <=? attempt)).2
     <= Z.to_nat (3 + 1)
  /\ exists product_data n,
       @scrape_boots_product ascii_db 3 (str "https://x/1") (str "2025-01-01 00:00:00")
         Examples.error_then_named = Some (product_data, n)
       /\ n <= MAX_RETRIES.
Proof.
  destruct (@retry_loops_bounded ascii_db) as (_ & Hscrape & _ & _ & Hnav).
  split; [reflexivity|]. split.
  - exact (proj1 (Hnav 3%Z true None (fun attempt => 2 <=? attempt))).
  - apply Hscrape. unfold MAX_RETRIES; lia.
Defined.

(** C10.  [read_product_urls_from_boots_csv] returns a list in every
    case: the empty list when the file is missing, when reading it raises,
    and when the table has neither the column 'oct-link href 2' nor one
    whose name holds 'oct-link' and 'href'; otherwise the values of the
    column chosen that are not null, each once. *)
Theorem read_product_urls_total `{U : UnicodeDb} (f : csv_file) :
  NoDup (read_product_urls_from_boots_csv f)
  /\ (CNull ∉ read_product_urls_from_boots_csv f)
  /\ (f = Missing \/ f = Unreadable -> read_product_urls_from_boots_csv f = [])
  /\ (forall columns,
        f = Table columns -> url_column columns = None ->
        read_product_urls_from_boots_csv f = [])
  /\ (forall columns name,
        f = Table columns -> url_column columns = Some name ->
        exists cells,
          column name columns = Some cells
          /\ read_product_urls_from_boots_csv f = unique (dropna cells)
          /\ forall url, url ∈ read_product_urls_from_boots_csv f
                         <-> url ∈ cells /\ url <> CNull).
Proof.
  assert (forall columns name,
            f = Table columns -> url_column columns = Some name ->
            exists cells,
              column name columns = Some cells
              /\ read_product_urls_from_boots_csv f = unique (dropna cells)) as Hread.
  { intros columns name -> Hname.
    destruct (url_column_found columns name Hname) as [cells Hcells].
    exists cells. split; [done|].
    unfold read_product_urls_from_boots_csv, read_urls_body.
    by rewrite Hname, Hcells. }
  assert (read_product_urls_from_boots_csv f = []
          \/ exists cells, read_product_urls_from_boots_csv f = unique (dropna cells))
    as Hcases.
  { destruct f as [| |columns]; [by left..|].
    destruct (url_column columns) as [name|] eqn:Hname.
    - destruct (Hread columns name eq_refl Hname) as (cells & _ & ->). eauto.
    - left. unfold read_product_urls_from_boots_csv, read_urls_body. by rewrite Hname. }
  split_and!.
  - destruct Hcases as [->|[cells ->]]; [constructor|apply unique_dropna_spec].
  - destruct Hcases as [->|[cells ->]]; [apply not_elem_of_nil|].
    intros Hin. apply unique_dropna_spec in Hin as [_ Hne]. done.
  - by intros [->| ->].
  - intros columns -> Hname.
    unfold read_product_urls_from_boots_csv, read_urls_body. by rewrite Hname.
  - intros columns name Hf Hname.
    destruct (Hread columns name Hf Hname) as (cells & Hcells & Heq).
    exists cells. split_and!; [done..|].
    intros url. rewrite Heq. apply unique_dropna_spec.
Qed.

(** A table whose URL column has a missing value and a repeated URL. *)
Lemma read_product_urls_total_witness :
  @read_product_urls_from_boots_csv ascii_db Examples.url_table
  = [CStr (str "https://x/1"); CStr (str "https://x/2")]
  /\ NoDup (@read_product_urls_from_boots_csv ascii_db Examples.url_table)
  /\ (CNull ∉ @read_product_urls_from_boots_csv ascii_db Examples.url_table).
Proof.
  destruct (@read_product_urls_total ascii_db Examples.url_table)
    as (Hnodup & Hnull & _).
  split; [vm_compute; reflexivity|]. split; [exact Hnodup|exact Hnull].
Defined.

(** C8, as stated, fails: the conversion for the JSON file at the end of
    the clean-up scripts writes [ingredients_list] and not
    [ingredients_count].  A row that has a list and no count, which
    [process_batch] skips for want of an ingredients text, comes out with
    a list of two names and no count. *)
Lemma json_conversion_list_without_count :
  (@process_row ascii_db Examples.listed_row).1 = Examples.listed_row
  /\ json_fields Examples.listed_row
     = [("ingredients_list"%string, PList [str "Aqua"; str "Glycerin"])]
  /\ ~ list_with_count (json_fields Examples.listed_row)
  /\ to_serializable Examples.listed_row !! "ingredients_list"%string
     = Some (PList [str "Aqua"; str "Glycerin"])
  /\ to_serializable Examples.listed_row !! "ingredients_count"%string = Some PNaN.
Proof.
  split; [vm_compute; reflexivity|]. split; [vm_compute; reflexivity|].
  split; [|split; vm_compute; reflexivity].
  intros H.
  destruct (H (PList [str "Aqua"; str "Glycerin"])) as (n & _ & Hin).
  - vm_compute. apply list_elem_of_here.
  - vm_compute in Hin. apply elem_of_cons in Hin as [[=]|Hin].
    by apply elem_of_nil in Hin.
Qed.

(** C8, amended.  Every code path that computes the ingredients list from
    an ingredients text writes [ingredients_count] together with
    [ingredients_list], as the number of elements of the list written (of
    the list, or of its comma-joined string as it is read back): the
    ingredients block of [scrape_boots_product] and
    [scrape_with_extended_timeout], the back-fill of the progress file,
    and the assignments of the three clean-up scripts.  So the records
    these functions return have a count that matches their list.  The
    conversion for the JSON file writes the list alone; it gives back the
    list that [extract_ingredients_list] returned. *)
Theorem ingredients_count_with_list `{U : UnicodeDb} :
  (forall found_text, list_with_count (ingredients_fields found_text))
  /\ (forall product, list_with_count (backfill_fields product))
  /\ (forall cleaned_text text,
        list_with_count (fixed_fields cleaned_text (extract_ingredients_list text)))
  /\ (forall v, list_with_count (FinalFix.row_fields v))
  /\ (forall v, list_with_count (FixIngredientsList.row_fields v))
  /\ (forall fuel url timestamp responses product_data n,
        scrape_boots_product fuel url timestamp responses = Some (product_data, n) ->
        count_matches product_data)
  /\ (forall url timestamp r,
        count_matches (scrape_with_extended_timeout url timestamp r))
  /\ (forall product,
        count_matches product ->
        count_matches (assign_all product (backfill_fields product)))
  /\ (forall row,
        (process_row row).2 = true \/ count_matches row ->
        count_matches (process_row row).1)
  /\ (forall batch_df,
        Forall count_matches batch_df ->
        Forall count_matches (process_batch batch_df).1)
  /\ (forall v row,
        count_matches row ->
        count_matches (assign_all row (FinalFix.row_fields v))
        /\ count_matches (assign_all row (FixIngredientsList.row_fields v)))
  /\ (forall text,
        comma_items (join (str ", ") (extract_ingredients_list text))
        = extract_ingredients_list text).
Proof.
  split_and!.
  - apply ingredients_fields_with_count.
  - apply backfill_fields_with_count.
  - intros cleaned_text text.
    apply fixed_fields_with_count, extract_ingredients_list_normalized.
  - apply final_row_fields_with_count.
  - apply fix_row_fields_with_count.
  - intros fuel url timestamp responses product_data n Hrun.
    apply (retry_loop_keeps count_matches responses _ _ _ _ _ _ Hrun).
    + intros i pg _ _. apply extract_page_matches.
    + apply initial_matches.
  - intros url timestamp r.
    apply (scrape_with_extended_timeout_keeps count_matches).
    + intros pg _. apply extract_page_extended_matches.
    + apply initial_matches.
  - apply backfill_fields_matches.
  - apply process_row_matches.
  - intros batch_df H. rewrite process_batch_results.
    induction H as [|row rows Hrow H IH]; simpl; constructor; [|done].
    apply process_row_matches. by right.
  - intros v row H. split;
      [by apply final_row_fields_matches|by apply fix_row_fields_matches].
  - intros text. apply comma_items_normalized, extract_ingredients_list_normalized.
Qed.

(** A row with an ingredients text: [process_batch] writes the list of
    three names and the count 3. *)
Lemma ingredients_count_with_list_witness :
  (@process_row ascii_db Examples.raw_row).1 !! "ingredients_list"%string
  = Some (PStr (str "Aqua, Glycerin, Parfum"))
  /\ (@process_row ascii_db Examples.raw_row).1 !! "ingredients_count"%string
     = Some (PInt 3)
  /\ count_matches (@process_row ascii_db Examples.raw_row).1.
Proof.
  destruct (@ingredients_count_with_list ascii_db)
    as (_ & _ & _ & _ & _ & _ & _ & _ & Hrow & _).
  split; [vm_compute; reflexivity|]. split; [vm_compute; reflexivity|].
  apply Hrow. left. vm_compute; reflexivity.
Defined.

End Claims.

(** * Facts about the rest of the scripts *)

(** ** The cleaned text *)

Module CleanedFacts.
Import ReAux Notions ReFacts CharFacts ItemFacts SettledFacts.
Import Patterns BatchFix.

Section WithDb.
Context {U : UnicodeDb}.

(** After [re.sub(r'\s+', ' ', text)] the only white space is the blank. *)
Lemma sub_spaces_blanks : forall rest prev pos skip,
  Forall (fun c => is_space c = true -> c = 32%N)
         (sub_from spaces (str " ") prev pos rest skip).
Proof.
  induction rest as [|c t IH]; intros prev pos skip.
  - destruct skip; [|done]. done.
  - destruct skip as [|skip]; cbn [sub_from]; [|by apply IH].
    unfold match_here, spaces, plus, space.
    rewrite run_Seq, run_Chr. cbn [m_rest].
    destruct (is_space c) eqn:Ec.
    + rewrite run_star_chr. unfold advance; cbn [m_prev m_pos m_rest m_cap].
      destruct (greedy_chr_accept is_space t (Some c) (S pos) None)
        as (e & -> & Hpos & _ & _).
      pose proof (drop_while_length is_space t).
      rewrite Hpos.
      replace (S pos + length t - length (drop_while is_space t) - pos)
        with (S (length t - length (drop_while is_space t))) by lia.
      change (str " " ++ ?x) with (32%N :: x). constructor; [done|]. apply IH.
    + constructor; [by rewrite Ec|]. apply IH.
Qed.

Lemma substitutions_characters text :
  Forall (fun c => is_deleted c = false /\ (is_space c = true -> c = 32%N))
         (sub boilerplate [] (sub spaces (str " ") text)).
Proof.
  apply Forall_and. split.
  - unfold sub at 1. apply sub_boilerplate_deleted.
  - apply (Forall_sublist _ _ (sub spaces (str " ") text)).
    + unfold sub at 1. apply sub_from_sublist.
    + apply sub_spaces_blanks.
Qed.

End WithDb.
End CleanedFacts.

(** ** What extract_ingredients returns *)

Module FoundFacts.
Import Notions Scraper ScraperFacts.

Lemma first_some_Some {A B} (f : A -> option B) l y :
  first_some f l = Some y -> exists x, x ∈ l /\ f x = Some y.
Proof.
  induction l as [|x l IH]; simpl; [done|].
  destruct (f x) as [z|] eqn:E.
  - intros [= ->]. exists x. split; [apply list_elem_of_here|done].
  - intros (x' & Hin & Hx')%IH. exists x'. split; [by apply list_elem_of_further|done].
Qed.

Lemma or_else_Some {A} (a b : option A) y :
  or_else a b = Some y -> a = Some y \/ (a = None /\ b = Some y).
Proof. destruct a; simpl; auto. Qed.

Lemma keep_if_Some ok text y : keep_if ok text = Some y -> y = text /\ ok text = true.
Proof. unfold keep_if. destruct (ok text) eqn:E; [|done]. by intros [= ->]. Qed.

Lemma looks_like_validated text :
  looks_like_ingredients text = true ->
  contains [44%N] text = true /\ 20 < length text < 3000.
Proof.
  unfold looks_like_ingredients. rewrite !andb_true_iff.
  intros [[? ?%Nat.ltb_lt] ?%Nat.ltb_lt]. auto.
Qed.

Section WithDb.
Context {U : UnicodeDb}.

Lemma from_header_validated h text :
  from_header h = Some text -> contains [44%N] text = true /\ 20 < length text < 3000.
Proof.
  unfold from_header. intros [H|[_ H]]%or_else_Some.
  - destruct (h_parent_div h) as [parent_text|]; [|done].
    destruct (index _ _); [|done].
    apply keep_if_Some in H as [-> H]. by apply looks_like_validated.
  - destruct (h_next h) as [[name next_text]|]; [|done].
    case_bool_decide; [|done].
    apply keep_if_Some in H as [-> H]. by apply looks_like_validated.
Qed.

Lemma from_selected_validated elem_text text :
  from_selected elem_text = Some text ->
  contains [44%N] text = true /\ length text < 3000.
Proof.
  unfold from_selected. destruct (contains _ (lower elem_text)); [|done].
  intros [H|[_ H]]%or_else_Some.
  - destruct (search labelled_ingredients elem_text) as [[? e]|]; [|done].
    apply keep_if_Some in H as [-> H].
    apply looks_like_validated in H as [? [? ?]]. auto.
  - apply keep_if_Some in H as [-> H].
    rewrite !andb_true_iff in H. destruct H as [[? ?%Nat.ltb_lt] _]. auto.
Qed.

Lemma from_accordion_validated item text :
  from_accordion item = Some text ->
  contains [44%N] text = true /\ 20 < length text < 3000.
Proof.
  unfold from_accordion. destruct (a_title item); [|done].
  destruct (a_content item); [|done]. destruct (contains _ _); [|done].
  intros [-> H]%keep_if_Some. by apply looks_like_validated.
Qed.

Lemma from_paragraph_validated p_text text :
  from_paragraph p_text = Some text ->
  contains [44%N] text = true /\ 20 < length text < 3000.
Proof.
  unfold from_paragraph. destruct (_ && _); [|done].
  destruct (search labelled_rest p_text) as [[? e]|]; [|done].
  intros [-> H]%keep_if_Some. by apply looks_like_validated.
Qed.

Lemma from_text_block_validated elem_text text :
  from_text_block elem_text = Some text ->
  contains [44%N] text = true /\ 20 < length text < 3000.
Proof.
  unfold from_text_block.
  destruct (_ && _ && _) eqn:E; [|done].
  destruct (3 <=? _); [|done]. intros [= <-].
  rewrite !andb_true_iff in E. destruct E as [[? ?%Nat.ltb_lt] ?%Nat.ltb_lt]. auto.
Qed.

End WithDb.
End FoundFacts.

(** ** Joining a list and splitting it again *)

Module RoundTripFacts.
Import ReAux Notions CharFacts ItemFacts SplitFacts SettledFacts.

(** A piece of a split text, stripped and not empty: no comma inside, no
    white space at either end. *)
Lemma comma_items_tidy text :
  Forall (fun item => (44%N ∉ item)
                      /\ match head item with
                         | Some c => is_space c = false | None => False end
                      /\ match last item with
                         | Some c => is_space c = false | None => False end)
         (comma_items text).
Proof.
  unfold comma_items. apply Forall_forall. intros item Hin.
  apply list_elem_of_filter in Hin as [Htruthy Hin].
  change (map strip ?l) with (strip <$> l) in Hin.
  apply list_elem_of_fmap in Hin as (piece & -> & Hin).
  pose proof (split_no_sep 44 text) as Hsep.
  rewrite Forall_forall in Hsep. specialize (Hsep piece Hin).
  split_and!.
  - intros H44. apply (strip_Forall _ piece) in Hsep.
    rewrite Forall_forall in Hsep. by apply (Hsep 44%N).
  - pose proof (strip_head piece). destruct (strip piece); [done|]. done.
  - pose proof (strip_last piece).
    destruct (strip piece) as [|c t] eqn:E; [done|].
    destruct (last (c :: t)) eqn:El; [done|].
    by apply last_None in El.
Qed.

Lemma padded_strip_tidy pieces names :
  Forall2 padded pieces names ->
  Forall (fun item => (44%N ∉ item)
                      /\ match head item with
                         | Some c => is_space c = false | None => False end
                      /\ match last item with
                         | Some c => is_space c = false | None => False end)
         names ->
  filter (fun ing => truthy ing = true) (map strip pieces) = names.
Proof.
  intros H. induction H as [|piece name pieces names Hp H IH]; intros Hn; [done|].
  apply Forall_cons in Hn as [(_ & Hh & Hl) Hn].
  destruct Hp as (l & r & -> & Hl' & Hr').
  cbn [map]. rewrite strip_pad by done.
  rewrite filter_cons_True.
  - by rewrite IH.
  - by destruct name.
Qed.

(** Splitting the comma-joined pieces of a text gives the pieces back. *)
Lemma comma_items_join_items text :
  comma_items (join (str ", ") (comma_items text)) = comma_items text.
Proof.
  pose proof (comma_items_tidy text) as Htidy.
  destruct (comma_items text) as [|x names] eqn:E; [done|].
  unfold comma_items at 1.
  apply padded_strip_tidy; [|done].
  apply (split_join [] (str " ") eq_refl eq_refl (x :: names) []); [done..|].
  eapply Forall_impl; [exact Htidy|]. by intros item (? & _).
Qed.

End RoundTripFacts.

(** ** The records the scraper returns *)

Module RecordFacts.
Import Notions MoreNotions Scraper ScraperFacts FieldFacts RowFacts CountFacts.
Import RoundTripFacts Saving ScraperMain.

(** A property of the field [k] that a computation keeps when it does not
    assign to [k]. *)
Lemma touches_preserves_at {A} keys (m : Try A) k (P : option pyval -> Prop) :
  touches_only keys m -> k ∉ keys -> preserves (fun pd => P (pd !! k)) m.
Proof. intros Hm Hk pd H. by rewrite Hm. Qed.

Lemma try_bind_Some {A B} (m : Try A) (f : A -> Try B) pd y pd' :
  try_bind m f pd = (Some y, pd') ->
  exists x pd1, m pd = (Some x, pd1) /\ f x pd1 = (Some y, pd').
Proof.
  unfold try_bind. destruct (m pd) as [[x|] pd1]; [|done]. eauto.
Qed.

Section WithDb.
Context {U : UnicodeDb}.

Ltac block_touches :=
  try match goal with
      | |- touches_only _ (match ?o with _ => _ end) => destruct o
      end;
  first [ apply touches_ret | apply touches_get | apply touches_enter
        | apply touches_set; in_list
        | apply touches_country_loop; in_list
        | apply (touches_mono ["brand"%string]);
          [ intros k Hk; apply elem_of_cons in Hk as [->|Hk];
            [in_list|by apply elem_of_nil in Hk]
          | apply brand_from_name_touches ] ].

Ltac page_steps Hother Hblock :=
  lazymatch goal with
  | |- preserves _ (try_bind _ _) =>
      apply preserves_bind;
      [ first [ apply Hblock | apply Hother; block_touches ]
      | intros ?; page_steps Hother Hblock ]
  | |- _ => first [ apply Hblock | apply Hother; block_touches ]
  end.

(** A property of the record that the ingredients block keeps, and that
    no assignment to another field breaks, is kept by scraping a page. *)
Lemma extract_page_preserves (I : gmap string pyval -> Prop) pg :
  (forall A (m : Try A), touches_only other_keys m -> preserves I m) ->
  (forall found_text, preserves I (set_fields (ingredients_fields found_text))) ->
  preserves I (extract_page pg).
Proof.
  intros Hother Hblock. unfold extract_page. page_steps Hother Hblock.
Qed.

Lemma extract_page_extended_preserves (I : gmap string pyval -> Prop) pg :
  (forall A (m : Try A), touches_only other_keys m -> preserves I m) ->
  (forall found_text, preserves I (set_fields (ingredients_fields found_text))) ->
  preserves I (extract_page_extended pg).
Proof.
  intros Hother Hblock. unfold extract_page_extended. page_steps Hother Hblock.
Qed.

(** Scraping a page keeps the shape of [ingredients_list]. *)
Lemma ingredients_block_list found_text :
  preserves scraper_list (set_fields (ingredients_fields found_text)).
Proof.
  intros pd H. unfold scraper_list in *. cbn [set_fields snd].
  unfold ingredients_fields.
  change (assign_all pd (?a :: ?l)) with (assign_all (<[a.1 := a.2]> pd) l).
  destruct found_text as [text|]; [destruct (truthy text)|];
    unfold count_fields, assign_all; cbn [foldl fst snd].
  - rewrite lookup_insert_eq. eauto.
  - by rewrite lookup_insert_ne.
  - by rewrite lookup_insert_ne.
Qed.

Lemma other_keys_preserve_list A (m : Try A) :
  touches_only other_keys m -> preserves scraper_list m.
Proof.
  intros Hm. unfold scraper_list.
  apply (touches_preserves_at other_keys m "ingredients_list"
           (fun o => match o with
                     | None => True
                     | Some (PList items) => exists text, items = comma_items text
                     | Some _ => False
                     end)); [done|apply other_keys_list].
Qed.

Lemma initial_scraper_list url timestamp :
  scraper_list (initial_product_data url timestamp).
Proof.
  unfold scraper_list, initial_product_data, assign_all. simpl.
  by simplify_map_eq.
Qed.

(** What the final test of the [try] body yields is what [main] tests. *)
Lemma extract_page_result pg pd b pd' :
  extract_page pg pd = (Some b, pd') ->
  b = truthy_val (row_get "product_name" pd') || truthy_val (row_get "brand" pd')
      || truthy_val (row_get "ingredients" pd').
Proof.
  unfold extract_page. intros H.
  do 14 (apply try_bind_Some in H as (? & ? & _ & H)).
  unfold try_bind, get_field, try_ret in H. by injection H as <- <-.
Qed.

(** The loop ends on a page with data, or when the retries are used up. *)
Lemma retry_loop_gives_up responses :
  forall fuel requests retries pd pd' n,
    retry_loop fuel responses requests retries pd = Some (pd', n) ->
    retries <= MAX_RETRIES ->
    (truthy_val (row_get "product_name" pd') || truthy_val (row_get "brand" pd')
     || truthy_val (row_get "ingredients" pd') = true /\ requests < n)
    \/ n = requests + (MAX_RETRIES - retries).
Proof.
  induction fuel as [|fuel IH]; intros requests retries pd pd' n.
  - simpl. destruct (retries <? MAX_RETRIES) eqn:E; [done|].
    apply Nat.ltb_ge in E. intros [= <- <-] ?. right. lia.
  - cbn [retry_loop]. destruct (retries <? MAX_RETRIES) eqn:E.
    2:{ apply Nat.ltb_ge in E. intros [= <- <-] ?. right. lia. }
    apply Nat.ltb_lt in E.
    assert (forall pd1,
              retry_loop fuel responses (S requests) (retries + 1) pd1 = Some (pd', n) ->
              retries <= MAX_RETRIES ->
              (truthy_val (row_get "product_name" pd') || truthy_val (row_get "brand" pd')
               || truthy_val (row_get "ingredients" pd') = true /\ requests < n)
              \/ n = requests + (MAX_RETRIES - retries)) as Hnext.
    { intros pd1 Hrun _. apply IH in Hrun as [[? ?]|?]; [left; split; [done|lia]|right; lia|lia]. }
    destruct (responses requests) as [|status pg]; [by apply Hnext|].
    destruct (status =? 429)%Z; [by apply Hnext|].
    destruct (status =? 200)%Z; simpl; [|by apply Hnext].
    destruct (extract_page pg pd) as [[[|]|] pd1] eqn:Hex; [|by apply Hnext..].
    intros [= <- <-] _. left. split; [|lia].
    by apply extract_page_result in Hex.
Qed.

Lemma scraped_scraper_list pd : scraped pd -> scraper_list pd.
Proof.
  intros [(fuel & url & timestamp & responses & n & H)|(url & timestamp & r & ->)].
  - unfold scrape_boots_product in H.
    apply (retry_loop_keeps scraper_list) in H; [done| |apply initial_scraper_list].
    intros i pg _ _. apply extract_page_preserves.
    + apply other_keys_preserve_list.
    + apply ingredients_block_list.
  - apply scrape_with_extended_timeout_keeps; [|apply initial_scraper_list].
    intros pg _. apply extract_page_extended_preserves.
    + apply other_keys_preserve_list.
    + apply ingredients_block_list.
Qed.

End WithDb.

(** Saving a record whose list the scraper made. *)
Lemma scraper_list_json pd :
  scraper_list pd -> serializable_product pd = Some pd.
Proof.
  unfold scraper_list, serializable_product.
  destruct (pd !! "ingredients_list"%string) as [[]|] eqn:E; try done.
  intros _. cbn. by rewrite insert_id.
Qed.

Lemma scraper_list_csv pd :
  scraper_list pd ->
  exists row, csv_copy pd = Some row /\ BatchFixRows.to_serializable row = pd.
Proof.
  unfold scraper_list, csv_copy.
  destruct (pd !! "ingredients_list"%string) as [[| | | | | |items]|] eqn:E; try done.
  - intros [text ->]. cbn. eexists. split; [done|].
    unfold BatchFixRows.to_serializable, json_fields.
    rewrite lookup_insert_eq. unfold assign_all. cbn [foldl fst snd].
    rewrite insert_insert_eq, comma_items_join_items. by apply insert_id.
  - intros _. exists pd. split; [done|].
    unfold BatchFixRows.to_serializable, json_fields. by rewrite E.
Qed.

Lemma mapM_fixed {A} (f : A -> option A) (l : list A) :
  Forall (fun x => f x = Some x) l -> mapM f l = Some l.
Proof.
  induction 1 as [|x l Hx _ IH]; [done|].
  cbn. rewrite Hx. cbn. by rewrite IH.
Qed.

Lemma mapM_related {A B} (R : A -> B -> Prop) (f : A -> option B) (l : list A) :
  Forall (fun x => exists y, f x = Some y /\ R x y) l ->
  exists k, mapM f l = Some k /\ Forall2 R l k.
Proof.
  induction 1 as [|x l (y & Hy & HR) _ (k & Hk & IH)].
  - exists []. by split.
  - exists (y :: k). split; [|by constructor].
    cbn. rewrite Hy. cbn. by rewrite Hk.
Qed.

Lemma mapM_None_Exists {A B} (f : A -> option B) (l : list A) :
  mapM f l = None <-> Exists (fun x => f x = None) l.
Proof.
  induction l as [|x l IH].
  - split; [done|]. by intros H%Exists_nil.
  - rewrite Exists_cons, <- IH. cbn.
    destruct (f x) as [y|]; cbn; [|by intuition].
    destruct (mapM f l); cbn; split; try done.
    + by intros [|].
    + by right.
Qed.


Lemma save_with_None copy pds :
  save_with copy pds = None <-> Exists (fun pd => copy pd = None) pds.
Proof.
  unfold save_with. destruct pds as [|pd pds].
  - split; [done|]. by intros H%Exists_nil.
  - rewrite <- mapM_None_Exists. by destruct (mapM copy (pd :: pds)).
Qed.

End RecordFacts.

(** ** The batches of the clean-up scripts *)

Module BatchFacts.
Import Notions MoreNotions BatchFix BatchFixRows Batches RowFacts.

Lemma range_by_covers stop step :
  0 < step -> stop <= (stop + step - 1) / step * step.
Proof.
  intros Hs.
  pose proof (Nat.div_mod_eq (stop + step - 1) step).
  pose proof (Nat.mod_upper_bound (stop + step - 1) step ltac:(lia)).
  nia.
Qed.

Lemma range_by_below stop step k :
  0 < step -> k < (stop + step - 1) / step -> k * step < stop.
Proof.
  intros Hs Hk.
  pose proof (Nat.div_mod_eq (stop + step - 1) step).
  pose proof (Nat.mod_upper_bound (stop + step - 1) step ltac:(lia)).
  nia.
Qed.

Lemma take_min_length {A} (l : list A) a : take (a `min` length l) l = take a l.
Proof.
  destruct (Nat.le_ge_cases a (length l)).
  - by rewrite Nat.min_l.
  - rewrite Nat.min_r by done. by rewrite !take_ge.
Qed.

Lemma drop_min_length {A} (l : list A) a : drop (a `min` length l) l = drop a l.
Proof.
  destruct (Nat.le_ge_cases a (length l)).
  - by rewrite Nat.min_l.
  - rewrite Nat.min_r by done. by rewrite !drop_ge.
Qed.

(** The batch that starts at [i] is the next [step] rows. *)
Lemma iloc_batch {A} (df : list A) i step :
  i <= length df ->
  iloc df i ((i + step) `min` length df) = take step (drop i df).
Proof.
  intros Hi. unfold iloc. rewrite take_min_length.
  by rewrite take_drop_commute.
Qed.

Section WithDb.
Context {U : UnicodeDb}.

Lemma process_batch_shift batch : forall acc n,
  foldl (fun acc row =>
           let '(product_data, fixed) := process_row row in
           (acc.1 ++ [product_data], if fixed then S acc.2 else acc.2))
        (acc, n) batch
  = (acc ++ (process_batch batch).1, n + (process_batch batch).2).
Proof.
  unfold process_batch.
  induction batch as [|row batch IH] using rev_ind; intros acc n.
  - cbn. by rewrite app_nil_r, Nat.add_0_r.
  - rewrite !foldl_app. cbn [foldl]. rewrite (IH acc n).
    destruct (process_row row) as [pd fixed]. cbn [fst snd].
    f_equal; [by rewrite app_assoc|]. destruct fixed; lia.
Qed.

Lemma process_batch_app a b :
  process_batch (a ++ b)
  = ((process_batch a).1 ++ (process_batch b).1,
     (process_batch a).2 + (process_batch b).2).
Proof.
  unfold process_batch at 1. rewrite foldl_app.
  fold (process_batch a). destruct (process_batch a) as [ra na] eqn:E.
  by rewrite process_batch_shift.
Qed.

Lemma process_batch_length batch : length (process_batch batch).1 = length batch.
Proof. by rewrite process_batch_results, length_map. Qed.

Lemma main_loop_steps (df : list (gmap string pyval)) step :
  0 < step ->
  forall m, m <= (length df + step - 1) / step ->
    foldl (fun '(all_results, total_processed, total_success) i =>
             let end_ := (i + step) `min` length df in
             let batch_df := iloc df i end_ in
             let '(batch_results, success_count) := process_batch batch_df in
             (all_results ++ batch_results,
              total_processed + length batch_results,
              total_success + success_count))
          ([], 0, 0) (map (fun k => k * step) (seq 0 m))
    = ((process_batch (take (m * step) df)).1,
       length (take (m * step) df),
       (process_batch (take (m * step) df)).2).
Proof.
  intros Hs. induction m as [|m IH]; intros Hm; [done|].
  rewrite seq_S, map_app, foldl_app, IH by lia. cbn [foldl map "+"].
  assert (m * step < length df) as Hlt by (apply range_by_below; [done|lia]).
  rewrite iloc_batch by lia.
  destruct (process_batch (take step (drop (m * step) df))) as [rs n] eqn:E.
  replace (take (S m * step) df)
    with (take (m * step) df ++ take step (drop (m * step) df)).
  - rewrite process_batch_app, E. cbn [fst snd].
    rewrite length_app. do 2 f_equal.
    change rs with (rs, n).1. by rewrite <- E, process_batch_length.
  - rewrite take_take_drop. f_equal. lia.
Qed.

Lemma main_loop_whole (df : list (gmap string pyval)) :
  BatchFixMain.main_loop df
  = ((process_batch df).1, length df, (process_batch df).2).
Proof.
  unfold BatchFixMain.main_loop, range_by.
  assert (0 < BatchFixMain.batch_size) as Hs by (unfold BatchFixMain.batch_size; lia).
  rewrite (main_loop_steps df _ Hs) by done.
  by rewrite take_ge by by apply range_by_covers.
Qed.

End WithDb.
End BatchFacts.

Module FinalBatchFacts.
Import Notions MoreNotions BatchFix FinalFix FinalFixMain Batches RowFacts BatchFacts.

Section WithDb.
Context {U : UnicodeDb}.

Lemma updated_rows_app a b : updated_rows (a ++ b) = updated_rows a + updated_rows b.
Proof. unfold updated_rows. by rewrite filter_app, length_app. Qed.

Lemma updated_rows_cons row df :
  updated_rows (row :: df) = (if final_updated row then 1 else 0) + updated_rows df.
Proof.
  unfold updated_rows. rewrite filter_cons.
  destruct (final_updated row); [by rewrite decide_True|by rewrite decide_False].
Qed.

(** What the loop body does with a row that has an [ingredients] cell. *)
Lemma final_row_cell row v :
  row !! "ingredients"%string = Some v ->
  match (extract_and_clean_ingredients v).2 with
  | [] => final_row row = row /\ final_updated row = false
  | _ =>
      final_row row
      = assign_all row (fixed_fields (extract_and_clean_ingredients v).1
                                     (extract_and_clean_ingredients v).2)
      /\ final_updated row = true
  end.
Proof.
  intros Hv. unfold final_row, final_updated, row_fields, row_get. rewrite Hv.
  cbn [default from_option id].
  destruct (extract_and_clean_ingredients v) as [cleaned_text [|item items]]; by cbn.
Qed.

Lemma batch_rows_spec post : forall batch pre updated_count,
  Forall (fun row => is_Some (row !! "ingredients"%string)) batch ->
  batch_rows (zip (seq (length pre) (length batch)) batch) updated_count
             (pre ++ batch ++ post)
  = (Some (updated_count + updated_rows batch),
     pre ++ map final_row batch ++ post).
Proof.
  induction batch as [|row batch IH]; intros pre updated_count Hall.
  - cbn. by rewrite Nat.add_0_r.
  - apply Forall_cons in Hall as [[v Hv] Hall].
    assert (forall row' c,
              batch_rows (zip (seq (S (length pre)) (length batch)) batch) c
                         (pre ++ row' :: batch ++ post)
              = (Some (c + updated_rows batch),
                 pre ++ row' :: map final_row batch ++ post)) as Hrest.
    { intros row' c. specialize (IH (pre ++ [row']) c Hall).
      rewrite length_app, Nat.add_1_r, <- !app_assoc in IH. exact IH. }
    pose proof (final_row_cell row v Hv) as Hrow.
    cbn [length seq zip zip_with batch_rows app map]. rewrite Hv.
    rewrite updated_rows_cons.
    destruct (extract_and_clean_ingredients v) as [cleaned_text [|item items]];
      cbn [fst snd] in Hrow; destruct Hrow as [-> ->].
    + by rewrite Hrest.
    + rewrite alter_app_r_alt by done. rewrite Nat.sub_diag.
      cbn [alter list_alter]. rewrite Hrest. do 2 f_equal. lia.
Qed.

Lemma batch_rows_at df pre batch post start updated_count :
  df = pre ++ batch ++ post ->
  start = length pre ->
  Forall (fun row => is_Some (row !! "ingredients"%string)) batch ->
  batch_rows (zip (seq start (length batch)) batch) updated_count df
  = (Some (updated_count + updated_rows batch),
     pre ++ map final_row batch ++ post).
Proof. intros -> ->. apply batch_rows_spec. Qed.

Lemma process_batch_spec df n start step :
  n = length df ->
  start <= n ->
  Forall (fun row => is_Some (row !! "ingredients"%string)) (take step (drop start df)) ->
  process_batch df start ((start + step) `min` n)
  = (Some (updated_rows (take step (drop start df))),
     take start df ++ map final_row (take step (drop start df))
       ++ drop step (drop start df)).
Proof.
  intros -> Hstart Hall. unfold process_batch.
  rewrite iloc_batch by done.
  rewrite (batch_rows_at df (take start df) (take step (drop start df))
             (drop step (drop start df)) start 0);
    [done| |by rewrite length_take_le|done].
  by rewrite !take_drop.
Qed.

Lemma batches_spec df :
  Forall (fun row => is_Some (row !! "ingredients"%string)) df ->
  forall d j total_updated,
    j + d = (length df + batch_size - 1) / batch_size ->
    batches (length df) (map (fun k => k * batch_size) (seq j d)) total_updated
            (map final_row (take (j * batch_size) df) ++ drop (j * batch_size) df)
    = (Some (total_updated + updated_rows (drop (j * batch_size) df)),
       map final_row df).
Proof.
  intros Hall.
  assert (0 < batch_size) as Hs by (unfold batch_size; lia).
  induction d as [|d IH]; intros j total_updated Hj.
  - cbn [seq map batches].
    pose proof (range_by_covers (length df) batch_size Hs) as Hcover.
    rewrite Nat.add_0_r in Hj. subst j.
    rewrite take_ge, drop_ge by done.
    by rewrite app_nil_r, Nat.add_0_r.
  - cbn [seq map batches].
    assert (j * batch_size < length df) as Hlt by (apply range_by_below; [done|lia]).
    set (start := j * batch_size) in *.
    assert (length (map final_row (take start df)) = start) as Hpre
      by (rewrite length_map, length_take_le; lia).
    rewrite (process_batch_spec _ (length df)).
    + rewrite take_app_length' by done.
      rewrite drop_app_length' by done.
      specialize (IH (S j) (total_updated + updated_rows (take batch_size (drop start df)))).
      replace (S j * batch_size) with (start + batch_size) in IH by (unfold start; lia).
      rewrite <- take_take_drop, map_app, <- drop_drop, <- app_assoc in IH.
      rewrite IH by lia. f_equal. f_equal.
      rewrite <- (take_drop batch_size (drop start df)) at 3.
      rewrite updated_rows_app. lia.
    + rewrite length_app, Hpre, length_drop. lia.
    + lia.
    + rewrite drop_app_length' by done.
      apply Forall_take, Forall_drop, Hall.
Qed.

Lemma main_loop_spec df :
  Forall (fun row => is_Some (row !! "ingredients"%string)) df ->
  main_loop df = (Some (updated_rows df), map final_row df).
Proof.
  intros Hall. unfold main_loop, range_by.
  pose proof (batches_spec df Hall ((length df + batch_size - 1) / batch_size) 0 0
                eq_refl) as H.
  cbn [Nat.mul take drop map app "+"] in H. exact H.
Qed.

(** A table without the column: the first row raises, nothing is changed. *)
Lemma main_loop_raises row df :
  row !! "ingredients"%string = None ->
  main_loop (row :: df) = (None, row :: df).
Proof.
  intros Hrow. unfold main_loop, range_by.
  assert (0 < batch_size) as Hs by (unfold batch_size; lia).
  pose proof (range_by_covers (length (row :: df)) batch_size Hs) as Hcover.
  destruct ((length (row :: df) + batch_size - 1) / batch_size) as [|m];
    [cbn in Hcover; lia|].
  cbn [seq map batches Nat.mul "+"].
  unfold process_batch, iloc, batch_size. cbn [length "+" Nat.min take drop].
  cbn [length seq zip zip_with batch_rows]. by rewrite Hrow.
Qed.

End WithDb.
End FinalBatchFacts.

(** ** The rows for the JSON file *)

Module JsonFacts.
Import Notions MoreNotions BatchFix BatchFixRows FinalFix JsonRows RowFacts.
Import SplitFacts CountFacts RecordFacts FinalBatchFacts.

Lemma nan_to_none_fold_None empty_array (items : list (string * pyval)) :
  foldl (nan_step empty_array) None items = None.
Proof. by induction items. Qed.

Lemma nan_to_none_fold_raises empty_array (items : list (string * pyval)) :
  forall acc,
    Exists (fun item => isna_test empty_array item.2 = None) items ->
    foldl (nan_step empty_array) acc items = None.
Proof.
  induction items as [|item items IH]; intros acc H.
  - by apply Exists_nil in H.
  - apply Exists_cons in H as [H|H]; cbn [foldl].
    + unfold nan_step at 2. rewrite H.
      destruct acc; cbn; apply nan_to_none_fold_None.
    + by apply IH.
Qed.

(** A value that makes the test raise makes the conversion raise. *)
Lemma nan_to_none_raises empty_array row_dict k v :
  row_dict !! k = Some v -> isna_test empty_array v = None ->
  nan_to_none empty_array row_dict = None.
Proof.
  intros Hk Hv. apply nan_to_none_fold_raises, Exists_exists.
  exists (k, v). split; [by apply elem_of_map_to_list|done].
Qed.

Lemma isna_test_list empty_array items :
  2 <= length items -> isna_test empty_array (PList items) = None.
Proof. destruct items as [|a [|b items]]; cbn; [lia..|done]. Qed.

Lemma json_row_raises empty_array row s :
  row !! "ingredients_list"%string = Some (PStr s) ->
  2 <= length (comma_items s) ->
  json_row empty_array row = None.
Proof.
  intros Hrow Hlen. unfold json_row.
  apply (nan_to_none_raises _ _ "ingredients_list"%string (PList (comma_items s)));
    [|by apply isna_test_list].
  unfold to_serializable, json_fields. rewrite Hrow.
  unfold assign_all. cbn [foldl fst snd]. by rewrite lookup_insert_eq.
Qed.

Section WithDb.
Context {U : UnicodeDb}.

(** The list cell of a row the script has updated. *)
Lemma final_row_list row :
  (extract_and_clean_ingredients (row_get "ingredients" row)).2 <> [] ->
  final_row row !! "ingredients_list"%string
  = Some (PStr (join (str ", ")
                     (extract_and_clean_ingredients (row_get "ingredients" row)).2)).
Proof.
  unfold final_row, row_fields.
  destruct (extract_and_clean_ingredients (row_get "ingredients" row))
    as [cleaned_text [|item items]]; [done|].
  intros _. unfold fixed_fields, assign_all. cbn [foldl fst snd].
  by rewrite lookup_insert_eq.
Qed.

Lemma final_row_raises empty_array row :
  2 <= length (extract_and_clean_ingredients (row_get "ingredients" row)).2 ->
  json_row empty_array (final_row row) = None.
Proof.
  intros Hlen.
  eapply json_row_raises.
  - apply final_row_list. intros E. rewrite E in Hlen. cbn in Hlen. lia.
  - rewrite comma_items_normalized; [done|]. apply extract_and_clean_normalized.
Qed.

End WithDb.
End JsonFacts.

(** ** The loop of main that collects the results *)

Module CollectFacts.
Import Notions MoreNotions Scraper Saving ScraperMain.

Ltac list_grows :=
  first [ by (exists []; rewrite app_nil_r)
        | by eexists
        | by (rewrite <- app_assoc; eexists) ].

Ltac url_recorded :=
  first [ by intros [=]
        | intros _; rewrite ?elem_of_app, ?list_elem_of_singleton; tauto ].

Lemma iteration_grows i c l l' :
  iteration i c l = Some l' ->
  all_product_data l' = all_product_data l ++ option_list (with_data c)
  /\ (exists urls, failed_urls l' = failed_urls l ++ urls)
  /\ (exists urls, redirect_urls l' = redirect_urls l ++ urls)
  /\ (with_data c = None ->
      c_url c ∈ failed_urls l' \/ c_url c ∈ redirect_urls l').
Proof.
  unfold iteration, try_body, with_data.
  destruct (c_result c) as [product_data|];
    [destruct (has_data product_data); [|destruct (is_redirect (c_url c))]|];
    repeat case_match; simplify_eq/=; intros; simplify_eq/=;
    (split_and!; [by rewrite ?app_nil_r|list_grows|list_grows|url_recorded]).
Qed.

Lemma collect_spec tasks : forall i l l',
  collect i tasks l = Some l' ->
  all_product_data l' = all_product_data l ++ omap with_data tasks
  /\ (exists urls, failed_urls l' = failed_urls l ++ urls)
  /\ (exists urls, redirect_urls l' = redirect_urls l ++ urls)
  /\ Forall (fun c => with_data c = None ->
                      c_url c ∈ failed_urls l' \/ c_url c ∈ redirect_urls l') tasks.
Proof.
  induction tasks as [|c tasks IH]; intros i l l'; cbn [collect].
  - intros [= <-]. cbn [omap list_omap].
    split_and!; [by rewrite app_nil_r|list_grows..|constructor].
  - destruct (iteration i c l) as [l1|] eqn:E; [|done].
    intros H. apply IH in H as (Hall & [fs Hf] & [rs Hr] & Hrest).
    apply iteration_grows in E as (Hall1 & [fs1 Hf1] & [rs1 Hr1] & Hc).
    split_and!.
    + rewrite Hall, Hall1, <- app_assoc. f_equal. cbn [omap list_omap].
      by destruct (with_data c).
    + exists (fs1 ++ fs). by rewrite Hf, Hf1, <- app_assoc.
    + exists (rs1 ++ rs). by rewrite Hr, Hr1, <- app_assoc.
    + constructor; [|done]. intros Hnone. rewrite Hf, Hr, !elem_of_app.
      destruct (Hc Hnone); tauto.
Qed.

Lemma save_to_csv_Some pds :
  Forall (fun pd => is_Some (csv_copy pd)) pds -> is_Some (save_to_csv pds).
Proof.
  intros H. destruct (save_to_csv pds) eqn:E; [done|].
  apply RecordFacts.save_with_None, Exists_exists in E as (pd & Hin & Hpd).
  rewrite Forall_forall in H. apply H in Hin. rewrite Hpd in Hin.
  by destruct Hin.
Qed.

Lemma iteration_quiet i c l :
  quiet c ->
  Forall (fun pd => is_Some (csv_copy pd)) (all_product_data l) ->
  iteration i c l
  = Some (Lists (all_product_data l ++ option_list (with_data c))
                (failed_urls l ++ (if to_failed c then [c_url c] else []))
                (redirect_urls l ++ (if to_redirect c then [c_url c] else []))).
Proof.
  intros ((product_data & Hres & Hcopy) & Hlog & Hsave) Hall.
  destruct l as [all failed redirect]. cbn [all_product_data] in Hall.
  unfold iteration, try_body, to_failed, to_redirect, with_data.
  rewrite Hres, Hlog, Hsave. cbn [negb].
  destruct (has_data product_data) eqn:Hdata; cbn.
  - assert (is_Some (save_to_csv (all ++ [product_data]))) as [saved ->].
    { apply save_to_csv_Some, Forall_app. split; [done|]. by constructor. }
    rewrite !app_nil_r. by destruct (_ =? 0).
  - assert (is_Some (save_to_csv all)) as [saved Hs] by by apply save_to_csv_Some.
    destruct (is_redirect (c_url c)); cbn; rewrite Hs, !app_nil_r;
      by destruct (_ =? 0).
Qed.

Lemma collect_quiet tasks : forall i l,
  Forall quiet tasks ->
  Forall (fun pd => is_Some (csv_copy pd)) (all_product_data l) ->
  collect i tasks l
  = Some (Lists (all_product_data l ++ omap with_data tasks)
                (failed_urls l
                   ++ map c_url (filter (fun c => to_failed c = true) tasks))
                (redirect_urls l
                   ++ map c_url (filter (fun c => to_redirect c = true) tasks))).
Proof.
  induction tasks as [|c tasks IH]; intros i l Hq Hall.
  - cbn. rewrite !app_nil_r. by destruct l.
  - apply Forall_cons in Hq as [Hc Hq]. cbn [collect].
    rewrite iteration_quiet by done. rewrite IH; [|done|].
    + cbn [all_product_data failed_urls redirect_urls omap list_omap].
      rewrite !filter_cons, <- !app_assoc.
      unfold to_failed, to_redirect.
      destruct (with_data c); cbn.
      * by rewrite !decide_False by done.
      * destruct (is_redirect (c_url c)); cbn;
          [rewrite decide_False, decide_True by done
          |rewrite decide_True, decide_False by done]; done.
    + cbn [all_product_data]. apply Forall_app. split; [done|].
      destruct Hc as ((product_data & Hres & Hcopy) & _).
      unfold with_data. rewrite Hres.
      destruct (has_data product_data); cbn; by repeat constructor.
Qed.

Section WithDb.
Context {U : UnicodeDb}.




End WithDb.
End CollectFacts.

(** ** What a match reads *)

Module ReSemFacts.
Import ReAux ReFacts ReSem.

Section WithDb.
Context {U : UnicodeDb}.

Implicit Types (r : regex) (s : mstate) (k : cont) (p : N -> bool).

Lemma star_loop_sound g r :
  (forall s k e, run r s k = Some e -> exists s', Matches r s s' /\ k s' = Some e) ->
  forall fuel s k e,
    star_loop g (run r) fuel s k = Some e ->
    exists s', Matches (Star g r) s s' /\ k s' = Some e.
Proof.
  intros IHr. induction fuel as [|fuel IH]; intros s k e H.
  - exists s. split; [constructor|done].
  - rewrite star_loop_S in H. cbv zeta in H. destruct g.
    + destruct (run r s _) as [x|] eqn:E.
      * injection H as ->. apply IHr in E as (s1 & Hm & Hk).
        destruct (_ <? _); [|done].
        apply IH in Hk as (s2 & Hm2 & Hk2).
        exists s2. split; [by eapply M_StarS|done].
      * exists s. split; [constructor|done].
    + destruct (k s) as [x|] eqn:Ek.
      * injection H as ->. exists s. split; [constructor|done].
      * apply IHr in H as (s1 & Hm & Hk).
        destruct (_ <? _); [|done].
        apply IH in Hk as (s2 & Hm2 & Hk2).
        exists s2. split; [by eapply M_StarS|done].
Qed.

(** Whatever the matcher hands to its continuation is a match. *)
Lemma run_sound r : forall s k e,
  run r s k = Some e -> exists s', Matches r s s' /\ k s' = Some e.
Proof.
  induction r as [|p|r1 IH1 r2 IH2|r1 IH1 r2 IH2|g r IH|r IH| | |];
    intros s k e H; cbn [run] in H.
  - exists s. split; [constructor|done].
  - destruct (m_rest s) as [|c t] eqn:E; [done|].
    destruct (p c) eqn:Hp; [|done].
    exists (advance c t s). split; [by constructor|done].
  - apply IH1 in H as (s1 & H1 & H). apply IH2 in H as (s2 & H2 & H).
    exists s2. split; [by econstructor|done].
  - destruct (run r1 s k) as [x|] eqn:E.
    + injection H as ->. apply IH1 in E as (s1 & H1 & H).
      exists s1. split; [by apply M_AltL|done].
    + apply IH2 in H as (s1 & H1 & H). exists s1. split; [by apply M_AltR|done].
  - by apply star_loop_sound in H.
  - apply IH in H as (s1 & H1 & H).
    exists (set_cap (m_pos s) s1). split; [by constructor|done].
  - destruct (m_prev s) eqn:E; [done|]. exists s. split; [by constructor|done].
  - destruct (at_eol s) eqn:E; [|done]. exists s. split; [by constructor|done].
  - destruct (at_wordb s) eqn:E; [|done]. exists s. split; [by constructor|done].
Qed.

(** A match reads a word of the subject, whose characters lie in every
    class that holds the classes of the pattern. *)
Lemma matches_reads r s s' :
  Matches r s s' ->
  exists w, m_rest s = w ++ m_rest s' /\ m_pos s' = m_pos s + length w
            /\ forall p, chars_in p r -> Forall (fun c => p c = true) w.
Proof.
  induction 1 as [s|q c t s Hrest Hq|r1 r2 s s1 s2 _ (w1 & E1 & P1 & C1) _ (w2 & E2 & P2 & C2)
                 |r1 r2 s s' _ (w & E & P & C)|r1 r2 s s' _ (w & E & P & C)
                 |g r s|g r s s1 s2 _ (w1 & E1 & P1 & C1) _ (w2 & E2 & P2 & C2)
                 |r s s' _ (w & E & P & C)|s|s|s].
  - exists []. split_and!; [done|cbn; lia|by constructor].
  - exists [c]. split_and!; [done|cbn; lia|].
    intros p Hp. constructor; [by apply Hp|constructor].
  - exists (w1 ++ w2). split_and!.
    + by rewrite E1, E2, app_assoc.
    + rewrite P2, P1, length_app. lia.
    + intros p [H1 H2]. apply Forall_app. split; [by apply C1|by apply C2].
  - exists w. split_and!; [done..|]. intros p [H1 _]. by apply C.
  - exists w. split_and!; [done..|]. intros p [_ H2]. by apply C.
  - exists []. split_and!; [done|cbn; lia|by constructor].
  - exists (w1 ++ w2). split_and!.
    + by rewrite E1, E2, app_assoc.
    + rewrite P2, P1, length_app. lia.
    + intros p Hp. apply Forall_app. split; [by apply C1|by apply C2].
  - exists w. split_and!; [done..|]. intros p Hp. by apply C.
  - exists []. split_and!; [done|cbn; lia|by constructor].
  - exists []. split_and!; [done|cbn; lia|by constructor].
  - exists []. split_and!; [done|cbn; lia|by constructor].
Qed.

Lemma matches_at_text text r s s' :
  Matches r s s' -> at_text text s -> at_text text s'.
Proof.
  intros (w & E & P & _)%matches_reads [Hpos Hrest].
  rewrite Hrest in E.
  assert (length (drop (m_pos s) text) = length w + length (m_rest s')) as Hlen
    by by rewrite E, length_app.
  rewrite length_drop in Hlen. split; [lia|].
  rewrite P, <- drop_drop, E. by rewrite drop_app_length.
Qed.


(** Group 1 holds characters of [p] only after a match of a pattern whose
    group reads such characters only. *)
Lemma matches_cap text p r s s' :
  Matches r s s' -> at_text text s -> group_in p r ->
  cap_in p text s -> cap_in p text s'.
Proof.
  induction 1 as [s|q c t s Hrest Hq|r1 r2 s s1 s2 H1 IH1 H2 IH2
                 |r1 r2 s s' _ IH|r1 r2 s s' _ IH
                 |g r s|g r s s1 s2 H1 IH1 H2 IH2|r s s' H IH|s|s|s];
    cbn [group_in]; intros Htext Hgroup Hcap; try done.
  - destruct Hgroup as [G1 G2].
    apply IH2; [by eapply matches_at_text|done|by apply IH1].
  - destruct Hgroup as [G1 _]. by apply IH.
  - destruct Hgroup as [_ G2]. by apply IH.
  - apply IH2; [by eapply matches_at_text|done|by apply IH1].
  - apply matches_reads in H as (w & E & P & C).
    unfold cap_in, set_cap. cbn [m_cap].
    destruct Htext as [_ Hrest]. rewrite <- Hrest, E, P.
    replace (m_pos s + length w - m_pos s) with (length w) by lia.
    rewrite take_app_length. by apply C.
Qed.

Lemma search_from_sound text r : forall rest prev pos start e,
  search_from r prev pos rest = Some (start, e) ->
  pos <= length text -> rest = drop pos text ->
  exists s0, Matches r s0 e /\ at_text text s0 /\ m_cap s0 = None
             /\ m_pos s0 = start.
Proof.
  induction rest as [|c t IH]; intros prev pos start e; cbn [search_from];
    unfold match_here.
  - destruct (run r _ Some) as [x|] eqn:E; [|done].
    intros [= <- <-] Hpos Hrest. apply run_sound in E as (s' & Hm & [= ->]).
    eexists. split_and!; [exact Hm|split; [done|by cbn]|done..].
  - destruct (run r _ Some) as [x|] eqn:E.
    + intros [= <- <-] Hpos Hrest. apply run_sound in E as (s' & Hm & [= ->]).
      eexists. split_and!; [exact Hm|split; [done|by cbn]|done..].
    + intros H Hpos Hrest.
      assert (pos < length text) as Hlt.
      { destruct (decide (pos < length text)); [done|].
        rewrite drop_ge in Hrest by lia. done. }
      apply IH in H; [done|lia|].
      replace (S pos) with (pos + 1) by lia.
      by rewrite <- drop_drop, <- Hrest.
Qed.

(** The group of a match found by [re.search] or [re.match]. *)
Lemma search_group_in p r text start e :
  search r text = Some (start, e) -> group_in p r ->
  Forall (fun c => p c = true) (group1 text e).
Proof.
  intros H Hg. unfold search in H.
  apply (search_from_sound text) in H as (s0 & Hm & Htext & Hcap & _);
    [|lia|done].
  pose proof (matches_cap text p r s0 e Hm Htext Hg) as He.
  unfold cap_in in He. rewrite Hcap in He. specialize (He I).
  unfold group1. destruct (m_cap e) as [[a b]|]; [done|constructor].
Qed.


End WithDb.
End ReSemFacts.

(** ** What the groups of the scraper's patterns hold *)

Module GroupFacts.
Import ReAux ReFacts ReSem ReSemFacts CharFacts ItemFacts SplitFacts SettledFacts.
Import Notions MoreNotions Scraper ScraperFacts FieldFacts RecordFacts.




Section WithDb.
Context {U : UnicodeDb}.

Lemma seq_of_lit_ci_group p (w : pystr) : group_in p (seq_of lit_ci w).
Proof.
  induction w as [|c [|c' w] IH]; [done..|]. split; [done|apply IH].
Qed.

Lemma country_patterns_group :
  Forall (group_in is_letter_or_space) country_patterns.
Proof.
  unfold country_patterns, lits_ci.
  repeat constructor; try apply seq_of_lit_ci_group; by intros c Hc.
Qed.

Lemma first_group_in p patterns text g :
  Forall (group_in p) patterns ->
  first_group patterns text = Some g ->
  Forall (fun c => p c = true) g.
Proof.
  induction 1 as [|r patterns Hr _ IH]; cbn [first_group]; [done|].
  destruct (search r text) as [[start e]|] eqn:E; [|done].
  intros [= <-]. by eapply search_group_in.
Qed.

Lemma country_loop_value sections :
  preserves (fun pd => country_value (pd !! "country_of_origin"%string))
            (country_loop sections).
Proof.
  induction sections as [|section_text rest IH]; cbn [country_loop].
  - apply preserves_ret.
  - apply preserves_bind.
    + destruct (first_group country_patterns section_text) as [g|] eqn:E;
        [|apply preserves_ret].
      intros pd _. cbn. rewrite lookup_insert_eq. cbn. split.
      * apply strip_Forall. by eapply first_group_in, E; apply country_patterns_group.
      * apply strip_idem.
    + intros _. apply preserves_bind; [apply preserves_get|].
      intros c. destruct (truthy_val c); [apply preserves_ret|done].
Qed.

Lemma ingredients_fields_within keys found :
  "ingredients"%string ∈ keys -> "ingredients_count"%string ∈ keys ->
  "ingredients_list"%string ∈ keys ->
  (ingredients_fields found).*1 ⊆ keys.
Proof.
  intros H1 H2 H3. unfold ingredients_fields, count_fields.
  destruct found as [text|]; [destruct (truthy text)|]; cbn [fmap list_fmap fst];
    intros k Hk; rewrite ?elem_of_cons, elem_of_nil in Hk;
    (repeat destruct Hk as [->|Hk]; done).
Qed.

Ltac leaf_touches :=
  try match goal with
      | |- touches_only _ (match ?o with _ => _ end) => destruct o
      end;
  first [ apply touches_ret | apply touches_get | apply touches_enter
        | apply touches_set; in_list
        | apply touches_set_fields, ingredients_fields_within; in_list ].

Ltac country_steps :=
  lazymatch goal with
  | |- preserves _ (try_bind _ _) =>
      apply preserves_bind; [country_leaf|intros ?; country_steps]
  | |- _ => country_leaf
  end
with country_leaf :=
  first [ apply country_loop_value
        | apply (touches_preserves_at
                   [ "product_name"; "brand"; "ingredients"; "ingredients_count";
                     "ingredients_list"; "hazards_and_cautions"; "how_to_use";
                     "product_details" ]%string _ "country_of_origin"%string country_value);
          [ leaf_touches
          | repeat (apply not_elem_of_cons; split; [done|]); apply not_elem_of_nil ] ].

Lemma extract_page_country pg :
  preserves (fun pd => country_value (pd !! "country_of_origin"%string))
            (extract_page pg).
Proof. unfold extract_page. country_steps. Qed.

Lemma scrape_country fuel url timestamp responses pd n :
  scrape_boots_product fuel url timestamp responses = Some (pd, n) ->
  country_value (pd !! "country_of_origin"%string).
Proof.
  unfold scrape_boots_product. intros H.
  apply (retry_loop_keeps
           (fun pd => country_value (pd !! "country_of_origin"%string))) in H;
    [done| |].
  - intros i pg _ _. apply extract_page_country.
  - rewrite initial_optional; [done|]. unfold optional_fields. in_list.
Qed.






Lemma brand_prefix_requires : Requires (N.eqb 45) brand_prefix.
Proof. unfold brand_prefix. cbn. right. right. right. left. by intros c. Qed.


End WithDb.
End GroupFacts.

(** ** Loading the progress *)

Module ProgressFacts.
Import Notions MoreNotions Scraper ScraperMain RecordFacts.

Section WithDb.
Context {U : UnicodeDb}.

(** A product the loop has passed has a list when it has ingredients, and
    passes the loop again unchanged. *)
Lemma backfill_done product r :
  backfill product = Some r ->
  (truthy_val (row_get "ingredients" r) = true ->
   is_Some (r !! "ingredients_list"%string))
  /\ backfill r = Some r
  /\ row_get "url" r = row_get "url" product.
Proof.
  unfold backfill, row_get.
  destruct (product !! "ingredients"%string) as [v|] eqn:Ev;
    [destruct (product !! "ingredients_list"%string) as [w|] eqn:Ew;
     [|destruct (truthy_val v) eqn:Et; [destruct v; try done|]]|];
    intros [= <-].
  - rewrite Ev, Ew. split_and!; [intros _; by eexists|done..].
  - unfold count_fields, assign_all. cbn [foldl fst snd].
    rewrite lookup_insert_eq.
    do 2 (rewrite (lookup_insert_ne _ _ "ingredients"%string) by done).
    do 2 (rewrite (lookup_insert_ne _ _ "url"%string) by done).
    rewrite Ev. split_and!; [intros _; by eexists|done..].
  - rewrite Ev, Ew, Et. cbn. split_and!; [by rewrite Et|done..].
  - rewrite Ev. cbn. split_and!; done.
Qed.

Lemma backfill_raises product v :
  product !! "ingredients"%string = Some v ->
  product !! "ingredients_list"%string = None ->
  truthy_val v = true -> (forall s, v <> PStr s) ->
  backfill product = None.
Proof.
  intros Ev Ew Et Hs. unfold backfill. rewrite Ev, Ew, Et.
  destruct v; try done. by destruct (Hs s).
Qed.

Lemma mapM_backfill_done products loaded :
  mapM backfill products = Some loaded ->
  Forall (fun r => truthy_val (row_get "ingredients" r) = true ->
                   is_Some (r !! "ingredients_list"%string)) loaded
  /\ mapM backfill loaded = Some loaded.
Proof.
  intros H%mapM_Some. induction H as [|product r products loaded Hr _ [IH1 IH2]].
  - by split.
  - apply backfill_done in Hr as (H1 & H2 & _). split; [by constructor|].
    cbn. rewrite H2. cbn. by rewrite IH2.
Qed.

Lemma load_progress_cases progress backup_raises :
  load_progress progress backup_raises = []
  \/ exists products,
       progress = Some products
       /\ mapM backfill products = Some (load_progress progress backup_raises)
       /\ forallb (fun product => hashable (row_get "url" product))
                  (load_progress progress backup_raises) = true.
Proof.
  unfold load_progress. destruct progress as [products|]; [|by left].
  destruct (mapM backfill products) as [loaded|] eqn:E; [|by left].
  destruct (forallb _ loaded) eqn:Eh; [|by left].
  destruct backup_raises; [by left|]. right. exists products. by cbn.
Qed.

End WithDb.
End ProgressFacts.

(** ** fix_sample.py and fix_database *)

Module SampleFacts.
Import Notions MoreNotions BatchFix FinalFix FixSampleMain RowFacts.

Section WithDb.
Context {U : UnicodeDb}.

(** The loop never writes into the sample. *)
Lemma sample_loop_frame rows : forall updated_count t,
  df_sample (sample_loop rows updated_count t).2 = df_sample t.
Proof.
  induction rows as [|[idx row] rows IH]; intros updated_count t;
    cbn [sample_loop]; [done|].
  destruct (row !! "ingredients"%string) as [v|]; [|done].
  destruct (extract_and_clean_ingredients_sample v) as [cleaned_text [|item items]].
  - apply IH.
  - by rewrite IH.
Qed.

Lemma sample_loop_count rows : forall updated_count t n t',
  sample_loop rows updated_count t = (Some n, t') ->
  n = updated_count
      + length (filter (fun row => sample_updated row = true) rows.*2).
Proof.
  induction rows as [|[idx row] rows IH]; intros updated_count t n t';
    cbn [sample_loop].
  - intros [= <- <-]. cbn. lia.
  - destruct (row !! "ingredients"%string) as [v|] eqn:Ev; [|done].
    assert (sample_updated row
            = match (extract_and_clean_ingredients_sample v).2 with
              | [] => false
              | _ => true
              end) as Hu by (unfold sample_updated, row_get; by rewrite Ev).
    cbn [fmap list_fmap snd]. rewrite filter_cons.
    destruct (extract_and_clean_ingredients_sample v) as [cleaned_text [|item items]];
      cbn [snd] in Hu; intros H%IH.
    + by rewrite decide_False by by rewrite Hu.
    + rewrite decide_True by done. cbn [length]. lia.
Qed.

Lemma picked_rows (table : list (gmap string pyval)) picked :
  (omap (fun i => pair i <$> table !! i) picked).*2 = omap (fun i => table !! i) picked.
Proof.
  induction picked as [|i picked IH]; [done|]. cbn [omap list_omap].
  destruct (table !! i) as [row|]; cbn; [by rewrite IH|done].
Qed.

End WithDb.
End SampleFacts.

Module FixDatabaseFacts.
Import Notions MoreNotions BatchFix FixDatabase RowFacts.

Lemma update_label_other idx f (l : list (nat * gmap string pyval)) :
  idx ∉ l.*1 -> update_label idx f l = l.
Proof.
  unfold update_label. induction l as [|[i r] l IH]; [done|].
  cbn [fmap list_fmap fst map]. intros [Hne Hl]%not_elem_of_cons.
  rewrite decide_False by (cbn; congruence). by rewrite <- IH at 2.
Qed.

Lemma update_label_here idx f row (pre post : list (nat * gmap string pyval)) :
  idx ∉ pre.*1 -> idx ∉ post.*1 ->
  update_label idx f (pre ++ (idx, row) :: post) = pre ++ (idx, f row) :: post.
Proof.
  intros Hpre Hpost. unfold update_label. rewrite map_app. cbn [map].
  rewrite decide_True by done.
  fold (update_label idx f pre). fold (update_label idx f post).
  by rewrite !update_label_other.
Qed.

Lemma imap_pair_labels {A} (l : list A) : forall n,
  (imap (fun i => pair (n + i)) l).*1 = seq n (length l)
  /\ (imap (fun i => pair (n + i)) l).*2 = l.
Proof.
  induction l as [|x l IH]; intros n; [done|].
  cbn [imap fmap list_fmap fst snd length seq]. rewrite Nat.add_0_r.
  destruct (IH (S n)) as [H1 H2]. split; f_equal.
  - rewrite <- H1. f_equal. apply imap_ext. intros i y _. cbn. f_equal. lia.
  - rewrite <- H2 at 2. f_equal. apply imap_ext. intros i y _. cbn. f_equal. lia.
Qed.

Lemma imap_pair_spec {A} (l : list A) :
  (imap pair l).*1 = seq 0 (length l) /\ (imap pair l).*2 = l.
Proof. apply (imap_pair_labels l 0). Qed.

Section WithDb.
Context {U : UnicodeDb}.

Lemma with_text_cons row rows :
  with_text (row :: rows) = (if has_text row then 1 else 0) + with_text rows.
Proof.
  unfold with_text. rewrite filter_cons.
  destruct (has_text row); [by rewrite decide_True|by rewrite decide_False].
Qed.

Lemma with_list_cons row rows :
  with_list (row :: rows) = (if has_list row then 1 else 0) + with_list rows.
Proof.
  unfold with_list. rewrite filter_cons.
  destruct (has_list row); [by rewrite decide_True|by rewrite decide_False].
Qed.

Lemma with_list_le rows : with_list rows <= with_text rows <= length rows.
Proof.
  induction rows as [|row rows IH]; [done|].
  rewrite with_text_cons, with_list_cons. cbn [length].
  unfold has_list. destruct (has_text row); cbn; [|lia].
  destruct (extract_ingredients_list _); lia.
Qed.

(** What the loop body does with a row that has an [ingredients] cell. *)
Lemma fixed_row_cell row v :
  row !! "ingredients"%string = Some v ->
  if missing_text v then
    fixed_row row = row /\ has_text row = false /\ has_list row = false
  else
    match extract_ingredients_list (clean_ingredients_text v) with
    | [] => fixed_row row = row /\ has_text row = true /\ has_list row = false
    | _ =>
        fixed_row row
        = assign_all row (fixed_fields (clean_ingredients_text v)
                            (extract_ingredients_list (clean_ingredients_text v)))
        /\ has_text row = true /\ has_list row = true
    end.
Proof.
  intros Hv. unfold fixed_row, has_list, has_text, FixIngredientsList.row_fields, row_get.
  rewrite Hv. cbn [default from_option id].
  destruct (missing_text v); [done|].
  by destruct (extract_ingredients_list (clean_ingredients_text v)).
Qed.

Lemma fix_rows_spec post : forall rows pre updated_count success_count,
  NoDup (pre ++ rows ++ post).*1 ->
  Forall (fun labelled => is_Some (labelled.2 !! "ingredients"%string)) rows ->
  fix_rows rows updated_count success_count (pre ++ rows ++ post)
  = (Some (updated_count + with_text rows.*2, success_count + with_list rows.*2),
     pre ++ map (fun labelled => (labelled.1, fixed_row labelled.2)) rows ++ post).
Proof.
  induction rows as [|[idx row] rows IH]; intros pre updated_count success_count Hdup Hall.
  - cbn. by rewrite !Nat.add_0_r.
  - apply Forall_cons in Hall as [[v Hv] Hall]. cbn [snd] in Hv.
    assert (forall row' u s,
              fix_rows rows u s (pre ++ (idx, row') :: rows ++ post)
              = (Some (u + with_text rows.*2, s + with_list rows.*2),
                 pre ++ (idx, row')
                     :: map (fun labelled => (labelled.1, fixed_row labelled.2)) rows
                     ++ post)) as Hrest.
    { intros row' u s. specialize (IH (pre ++ [(idx, row')]) u s).
      rewrite <- !app_assoc in IH. cbn [app] in IH. apply IH; [|done].
      revert Hdup. rewrite !fmap_app. cbn [fmap list_fmap fst]. by rewrite !fmap_app. }
    assert ((idx ∉ pre.*1) /\ (idx ∉ (rows ++ post).*1)) as [Hpre Hpost].
    { revert Hdup. rewrite fmap_app. cbn [app fmap list_fmap fst].
      intros Hdup. apply NoDup_app in Hdup as (_ & Hdis & Hd).
      apply NoDup_cons in Hd as [Hd _]. split; [|done].
      intros Hin. apply (Hdis idx Hin). apply list_elem_of_here. }
    pose proof (fixed_row_cell row v Hv) as Hrow.
    cbn [fix_rows app map fst snd fmap list_fmap]. rewrite Hv.
    rewrite with_text_cons, with_list_cons.
    destruct (missing_text v).
    + destruct Hrow as (-> & -> & ->). by rewrite Hrest.
    + destruct (extract_ingredients_list (clean_ingredients_text v)) as [|item items].
      * destruct Hrow as (-> & -> & ->). rewrite Hrest. do 2 f_equal; f_equal; lia.
      * destruct Hrow as (-> & -> & ->).
        rewrite update_label_here by done. rewrite Hrest.
        do 2 f_equal; f_equal; lia.
Qed.

Lemma fix_rows_cells rows : forall updated_count success_count working_df r working_df',
  fix_rows rows updated_count success_count working_df = (Some r, working_df') ->
  Forall (fun labelled => is_Some (labelled.2 !! "ingredients"%string)) rows.
Proof.
  induction rows as [|[idx row] rows IH];
    intros updated_count success_count working_df r working_df'; [by constructor|].
  cbn [fix_rows]. destruct (row !! "ingredients"%string) as [v|] eqn:Ev; [|done].
  intros H. constructor; [by eexists|].
  destruct (missing_text v); [by eapply IH|].
  destruct (extract_ingredients_list _); by eapply IH.
Qed.

Lemma Forall_of_sublist {A} (P : A -> Prop) (l1 l2 : list A) :
  l1 `sublist_of` l2 -> Forall P l2 -> Forall P l1.
Proof.
  induction 1 as [|x l1 l2 _ IH|x l1 l2 _ IH]; [done|..];
    intros [Hx Hl]%Forall_cons; [constructor|]; auto.
Qed.

Lemma head_rows_sublist {A} n (l : list A) : head_rows n l `sublist_of` l.
Proof. unfold head_rows. destruct (0 <=? n)%Z; apply sublist_take. Qed.

Lemma head_rows_length {A} n (l : list A) :
  (0 <= n)%Z -> length (head_rows n l) <= Z.to_nat n.
Proof.
  intros Hn. unfold head_rows. rewrite (proj2 (Z.leb_le 0 n)) by done.
  rewrite length_take. lia.
Qed.

Lemma select_working_spec test_mode sample_size df working :
  select_working test_mode sample_size df = Some working ->
  NoDup working.*1
  /\ working.*2 `sublist_of` df
  /\ if test_mode then
       Forall (fun row => notna (row_get "ingredients" row) = true) working.*2
       /\ ((0 <= sample_size)%Z -> length working.*2 <= Z.to_nat sample_size)
     else working.*2 = df.
Proof.
  pose proof (imap_pair_spec df) as [Hlabels Hrows].
  unfold select_working. destruct test_mode.
  - destruct (forallb _ df); [|done]. intros [= <-].
    set (kept := filter _ (imap pair df)).
    assert (kept `sublist_of` imap pair df) as Hkept by apply sublist_filter.
    pose proof (head_rows_sublist sample_size kept) as Hhead.
    assert (head_rows sample_size kept `sublist_of` imap pair df) as Hsub by by etrans.
    split_and!.
    + eapply sublist_NoDup; [|by apply fmap_sublist]. rewrite Hlabels. apply NoDup_seq.
    + etrans; [by apply fmap_sublist|]. by rewrite Hrows.
    + apply Forall_fmap. eapply Forall_of_sublist; [exact Hhead|].
      unfold kept. apply Forall_forall. intros labelled Hin.
      by apply list_elem_of_filter in Hin as [? _].
    + intros Hn. rewrite length_fmap. by apply head_rows_length.
  - intros [= <-]. split_and!; [|by rewrite Hrows|done].
    rewrite Hlabels. apply NoDup_seq.
Qed.

Lemma fix_database_spec df test_mode sample_size updated_count success_count written :
  fix_database df test_mode sample_size = Some (updated_count, success_count, written) ->
  exists working,
    select_working test_mode sample_size df = Some working
    /\ written = map fixed_row working.*2
    /\ updated_count = with_text working.*2
    /\ success_count = with_list working.*2.
Proof.
  unfold fix_database.
  destruct (select_working test_mode sample_size df) as [working|] eqn:Ew; [|done].
  cbn. destruct (fix_rows working 0 0 working) as [[[u s]|] working'] eqn:E; [|done].
  intros [= <- <- <-]. exists working. split; [done|].
  pose proof (fix_rows_cells _ _ _ _ _ _ E) as Hcells.
  apply select_working_spec in Ew as (Hdup & _).
  pose proof (fix_rows_spec [] working [] 0 0) as Hspec.
  rewrite !app_nil_r in Hspec. cbn [app] in Hspec.
  rewrite Hspec in E by done. injection E as <- <- <-.
  split_and!; [|done..].
  rewrite <- list_fmap_compose. symmetry. rewrite <- (list_fmap_compose snd fixed_row).
  done.
Qed.

End WithDb.
End FixDatabaseFacts.

(** ** The product identifier *)

Module ProductIdFacts.
Import ReAux ReFacts ReSem ReSemFacts Scraper ProductId GroupFacts.

Section WithDb.
Context {U : UnicodeDb}.
Variable uni_isdecimal : N -> bool.

Lemma first_group_requires p patterns text :
  Forall (Requires p) patterns ->
  Forall (fun c => p c = false) text ->
  first_group patterns text = None.
Proof.
  intros Hp Ht. induction Hp as [|r patterns Hr _ IH]; cbn [first_group]; [done|].
  by rewrite (search_requires p r text).
Qed.

(** The group of a match is a part of the subject. *)
Lemma group1_part (text : pystr) e :
  exists pre post, text = pre ++ group1 text e ++ post.
Proof.
  unfold group1. destruct (m_cap e) as [[a b]|].
  - exists (take a text), (drop (b - a) (drop a text)).
    by rewrite !take_drop.
  - by exists [], text.
Qed.

Lemma first_group_part patterns (text : pystr) g :
  first_group patterns text = Some g -> exists pre post, text = pre ++ g ++ post.
Proof.
  induction patterns as [|r patterns IH]; cbn [first_group]; [done|].
  destruct (search r text) as [[start e]|]; [|done].
  intros [= <-]. apply group1_part.
Qed.

Lemma product_id_patterns_group :
  Forall (group_in (is_decimal uni_isdecimal))
         [pattern1 uni_isdecimal; pattern2 uni_isdecimal; pattern3 uni_isdecimal].
Proof. repeat constructor; by intros c Hc. Qed.

Lemma product_id_patterns_require :
  Forall (Requires (is_decimal uni_isdecimal))
         [pattern1 uni_isdecimal; pattern2 uni_isdecimal; pattern3 uni_isdecimal].
Proof.
  apply Forall_cons. split; [|apply Forall_cons; split; [|apply Forall_cons; split; [|done]]].
  - cbn. left. left. by intros c.
  - cbn. right. left. left. by intros c.
  - cbn. right. left. left. by intros c.
Qed.

End WithDb.
End ProductIdFacts.

(** ** The characters of the ingredient names *)

Module NameFacts.
Import ReAux Notions MoreNotions ReFacts CharFacts ItemFacts ListFacts SettledFacts.
Import CleanedFacts Patterns BatchFix.

Lemma split_Forall (P : N -> Prop) sep text :
  Forall P text -> Forall (Forall P) (split sep text).
Proof.
  induction text as [|c t IH]; cbn [split]; [by repeat constructor|].
  intros [Hc Ht]%Forall_cons. specialize (IH Ht).
  destruct (c =? sep)%N; [by constructor|].
  destruct (split sep t) as [|h r]; [by repeat constructor|].
  apply Forall_cons in IH as [Hh Hr]. by repeat constructor.
Qed.

Section WithDb.
Context {U : UnicodeDb}.

(** A substitution puts together characters of the subject and of the
    replacement. *)
Lemma sub_from_chars (P : N -> Prop) r repl :
  Forall P repl ->
  forall rest prev pos skip,
    Forall P rest -> Forall P (sub_from r repl prev pos rest skip).
Proof.
  intros Hrepl. induction rest as [|c t IH]; intros prev pos skip Hrest.
  - destruct skip; cbn [sub_from]; [|done].
    destruct (match_here r prev pos []) as [e|]; [|done].
    destruct (m_pos e - pos); by rewrite app_nil_r.
  - apply Forall_cons in Hrest as [Hc Ht].
    destruct skip as [|skip]; cbn [sub_from]; [|by apply IH].
    destruct (match_here r prev pos (c :: t)) as [e|].
    + destruct (m_pos e - pos) as [|len]; apply Forall_app; (split; [done|]).
      * constructor; [done|]. by apply IH.
      * by apply IH.
    + constructor; [done|]. by apply IH.
Qed.

Lemma sub_chars (P : N -> Prop) r repl text :
  Forall P repl -> Forall P text -> Forall P (sub r repl text).
Proof. intros. by apply sub_from_chars. Qed.

(** The separator pattern matches at every vertical bar. *)
Lemma pipe_at t prev pos :
  exists e, match_here pipe_sep prev pos (124%N :: t) = Some e /\ S pos <= m_pos e.
Proof.
  unfold match_here, pipe_sep, space. rewrite run_Seq, run_star_chr.
  cbn [m_prev m_pos m_rest m_cap greedy_chr].
  change (is_space 124) with false. cbv iota.
  rewrite run_Seq. unfold lit at 1. rewrite run_Chr. cbn [m_rest].
  change (124 =? 124)%N with true. cbv iota.
  rewrite run_star_chr. unfold advance. cbn [m_prev m_pos m_rest m_cap].
  destruct (greedy_chr_accept is_space t (Some 124%N) (S pos) None)
    as (e & -> & Hpos & _).
  exists e. split; [done|].
  pose proof (drop_while_length is_space t). lia.
Qed.

(** After the substitution of the separators no vertical bar is left. *)
Lemma sub_pipe_none : forall rest prev pos skip,
  Forall (fun c => c <> 124%N) (sub_from pipe_sep (str ", ") prev pos rest skip).
Proof.
  assert (Forall (fun c => c <> 124%N) (str ", ")) as Hrepl by by repeat constructor.
  induction rest as [|c t IH]; intros prev pos skip.
  - destruct skip; cbn [sub_from]; [|done].
    destruct (match_here pipe_sep prev pos []) as [e|]; [|done].
    destruct (m_pos e - pos); by rewrite app_nil_r.
  - destruct skip as [|skip]; cbn [sub_from]; [|by apply IH].
    destruct (decide (c = 124%N)) as [->|Hc].
    + destruct (pipe_at t prev pos) as (e & -> & Hpos).
      replace (m_pos e - pos) with (S (m_pos e - S pos)) by lia.
      apply Forall_app. split; [done|]. apply IH.
    + destruct (match_here pipe_sep prev pos (c :: t)) as [e|].
      * destruct (m_pos e - pos) as [|len]; apply Forall_app; (split; [done|]).
        -- constructor; [done|]. apply IH.
        -- apply IH.
      * constructor; [done|]. apply IH.
Qed.

(** The names kept from a text hold characters of the text, and neither a
    comma nor a vertical bar. *)
Lemma kept_items_chars (P : N -> Prop) text :
  P 44%N -> P 32%N -> Forall P text ->
  Forall (Forall (fun c => P c /\ c <> 44%N /\ c <> 124%N))
         (filter (fun item => keep_item item = true)
                 (map clean_item
                      (split 44 (sub pipe_sep (str ", ")
                                     (sub bullet_sep (str ", ") text))))).
Proof.
  intros H44 H32 Htext.
  assert (Forall P (str ", ")) as Hrepl by by repeat constructor.
  set (normalized := sub pipe_sep (str ", ") (sub bullet_sep (str ", ") text)).
  assert (Forall (fun c => P c /\ c <> 124%N) normalized) as Hn.
  { apply Forall_and. split.
    - by apply sub_chars, sub_chars.
    - apply sub_pipe_none. }
  apply Forall_forall. intros item Hin.
  apply list_elem_of_filter in Hin as [_ Hin].
  change (map clean_item ?l) with (clean_item <$> l) in Hin.
  apply list_elem_of_fmap in Hin as (piece & -> & Hpiece).
  pose proof (split_no_sep 44 normalized) as Hsep.
  pose proof (split_Forall _ 44 normalized Hn) as Hchars.
  rewrite Forall_forall in Hsep, Hchars.
  specialize (Hsep _ Hpiece). specialize (Hchars _ Hpiece).
  rewrite clean_item_eq.
  eapply Forall_sublist; [apply drop_trailing_sublist|].
  apply drop_while_Forall, strip_Forall.
  apply Forall_forall. intros c Hc.
  rewrite Forall_forall in Hsep, Hchars.
  destruct (Hchars c Hc). split_and!; [done| |done]. by apply Hsep.
Qed.

Lemma name_char_spec c :
  name_char c = true
  <-> (is_deleted c = false /\ (is_space c = true -> c = 32%N))
      /\ c <> 44%N /\ c <> 124%N.
Proof.
  unfold name_char.
  rewrite !andb_true_iff, orb_true_iff, !negb_true_iff, !N.eqb_neq, N.eqb_eq.
  split.
  - intros [[[? ?] ?] Hs]. split_and!; try done.
    intros Ec. destruct Hs as [Hs|Hs]; [congruence|done].
  - intros [[? Hs] [? ?]]. split_and!; try done.
    destruct (is_space c); auto.
Qed.

End WithDb.
End NameFacts.

(** * Further properties of the scripts *)

Module Extras.
Import ReAux Notions ReFacts CharFacts ItemFacts ListFacts RowFacts.
Import SplitFacts SettledFacts ScraperFacts FieldFacts NavigateFacts CsvFacts.
Import CountFacts CleanedFacts FoundFacts RoundTripFacts RecordFacts.
Import Patterns BatchFix BatchFixRows Scraper Advanced.
Import Saving ScraperMain MoreNotions Batches.
Import BatchFacts FinalBatchFacts JsonRows JsonFacts CollectFacts.
Import ReSem ReSemFacts GroupFacts ProgressFacts.
Import FixDatabase SampleFacts FixDatabaseFacts ProductId ProductIdFacts NameFacts.

(** X1.  The text [clean_ingredients_text] returns holds none of the
    characters ':', '*', '+' and '.', no white space other than the
    blank, and no white space at either end.  The same holds, the ends
    apart, of the cleaned text [extract_and_clean_ingredients] returns. *)
Theorem cleaned_text_characters `{U : UnicodeDb} (v : pyval) :
  Forall (fun c => is_deleted c = false /\ (is_space c = true -> c = 32%N))
         (clean_ingredients_text v)
  /\ strip (clean_ingredients_text v) = clean_ingredients_text v
  /\ Forall (fun c => is_deleted c = false /\ (is_space c = true -> c = 32%N))
            (FinalFix.extract_and_clean_ingredients v).1.
Proof.
  split_and!.
  - destruct v as [| | | | |s|]; try constructor.
    unfold clean_ingredients_text, scrub.
    apply strip_Forall, substitutions_characters.
  - apply clean_output.
  - destruct v as [| | | | |s|]; try constructor.
    unfold FinalFix.extract_and_clean_ingredients, FinalFix.extract_and_clean_with.
    destruct (truthy (strip s)); [|constructor].
    cbn [fst]. apply substitutions_characters.
Qed.

(** X2.  A text that [extract_ingredients] returns was validated, unless
    it comes from a JSON-LD description: it holds a comma and has fewer
    than 3000 characters.  The description of a JSON-LD product is
    returned as it is found after the label. *)
Theorem extract_ingredients_validated `{U : UnicodeDb} (s : soup) (text : pystr) :
  extract_ingredients s = Some text ->
  (contains [44%N] text = true /\ length text < 3000)
  \/ first_some from_json_script (json_ld s) = Some text.
Proof.
  unfold extract_ingredients, from_selectors. intros H.
  apply or_else_Some in H as [H|[_ H]].
  { apply first_some_Some in H as (h & _ & H).
    apply from_header_validated in H as [? [? ?]]. auto. }
  apply or_else_Some in H as [H|[_ H]].
  { apply first_some_Some in H as (selector & _ & H).
    apply first_some_Some in H as (elem_text & _ & H).
    left. by apply (from_selected_validated elem_text). }
  apply or_else_Some in H as [H|[_ H]].
  { apply first_some_Some in H as (item & _ & H).
    apply from_accordion_validated in H as [? [? ?]]. auto. }
  apply or_else_Some in H as [H|[_ H]].
  { apply first_some_Some in H as (p_text & _ & H).
    apply from_paragraph_validated in H as [? [? ?]]. auto. }
  apply or_else_Some in H as [H|[_ H]]; [by right|].
  apply first_some_Some in H as (elem_text & _ & H).
  apply from_text_block_validated in H as [? [? ?]]. auto.
Qed.

Lemma extract_ingredients_validated_witness :
  @extract_ingredients ascii_db MoreExamples.accordion_page
  = Some (str "Aqua, Glycerin, Parfum, Alcohol Denat")
  /\ ((contains [44%N] (str "Aqua, Glycerin, Parfum, Alcohol Denat") = true
       /\ length (str "Aqua, Glycerin, Parfum, Alcohol Denat") < 3000)
      \/ first_some (@from_json_script ascii_db) (json_ld MoreExamples.accordion_page)
         = Some (str "Aqua, Glycerin, Parfum, Alcohol Denat")).
Proof.
  split; [vm_compute; reflexivity|].
  apply (@extract_ingredients_validated ascii_db MoreExamples.accordion_page).
  vm_compute; reflexivity.
Defined.

(** X3.  The list comprehension of the scraper,
    [[ing.strip() for ing in text.split(',') if ing.strip()]], undoes
    [', '.join] on every list it produces: joining the list of a text with
    [', '] and splitting the result gives the list back. *)
Theorem comma_list_round_trip (text : pystr) :
  comma_items (join (str ", ") (comma_items text)) = comma_items text.
Proof. apply comma_items_join_items. Qed.

(** X4.  Saving never raises on scraped records.  For a non-empty list of
    records returned by [scrape_boots_product] or
    [scrape_with_extended_timeout], [save_to_json] writes the records
    unchanged, and [save_to_csv] writes one row per record, from which the
    JSON conversion of the clean-up scripts gives the record back. *)
Theorem scraped_records_saved `{U : UnicodeDb}
    (product_data_list : list (gmap string pyval)) :
  Forall scraped product_data_list ->
  product_data_list <> [] ->
  save_to_json product_data_list = Some (Saved product_data_list)
  /\ exists rows,
       save_to_csv product_data_list = Some (Saved rows)
       /\ Forall2 (fun product row => to_serializable row = product)
                  product_data_list rows.
Proof.
  intros Hall Hne. unfold save_to_json, save_to_csv, save_with.
  destruct product_data_list as [|pd pds]; [done|]. split.
  - rewrite mapM_fixed; [done|].
    eapply Forall_impl; [exact Hall|].
    intros x Hx. by apply scraper_list_json, scraped_scraper_list.
  - destruct (mapM_related (fun product row => to_serializable row = product)
                csv_copy (pd :: pds)) as (rows & -> & Hrows).
    + eapply Forall_impl; [exact Hall|].
      intros x Hx. by apply scraper_list_csv, scraped_scraper_list.
    + by exists rows.
Qed.

Lemma scraped_records_saved_witness :
  let product :=
    @scrape_with_extended_timeout ascii_db (str "https://www.boots.com/p")
      (str "2025-01-01 00:00:00") (Http 200 (Page MoreExamples.accordion_page None)) in
  save_to_json [product] = Some (Saved [product])
  /\ exists rows,
       save_to_csv [product] = Some (Saved rows)
       /\ Forall2 (fun product row => to_serializable row = product) [product] rows.
Proof.
  intros product.
  apply (@scraped_records_saved ascii_db [product]); [|done].
  constructor; [|constructor]. right. by eexists _, _, _.
Defined.

(** X5.  [scrape_boots_product] makes at least one request, and it returns
    before its retries are used up only with a record that passes the test
    [main] makes of it (a product name, a brand or an ingredients text): a
    record without data has cost [MAX_RETRIES] requests.  The record is
    never empty. *)
Theorem scrape_returns_early_with_data `{U : UnicodeDb} fuel url timestamp responses
    (product_data : gmap string pyval) (requests : nat) :
  scrape_boots_product fuel url timestamp responses = Some (product_data, requests) ->
  1 <= requests
  /\ product_data <> ∅
  /\ (has_data product_data = true \/ requests = MAX_RETRIES).
Proof.
  intros H. unfold scrape_boots_product in H.
  assert (product_data !! "url"%string = Some (PStr url)) as Hurl.
  { apply (retry_loop_keeps (fun pd => pd !! "url"%string = Some (PStr url))) in H;
      [done| |apply initial_url].
    intros i pg _ _. apply extract_page_frame, unscraped_key. by left. }
  assert (product_data <> ∅) as Hne.
  { intros ->. by rewrite lookup_empty in Hurl. }
  split_and!; [|done|].
  - apply retry_loop_gives_up in H as [[_ ?]| ->]; [lia| |]; unfold MAX_RETRIES; lia.
  - apply retry_loop_gives_up in H as [[Hdata _]| ->]; [|unfold MAX_RETRIES; lia|].
    + left. unfold has_data. rewrite Hdata.
      by rewrite bool_decide_eq_false_2.
    + right. lia.
Qed.

Lemma scrape_returns_early_with_data_witness :
  match @scrape_boots_product ascii_db 3 (str "https://www.boots.com/p")
          (str "2025-01-01 00:00:00") MoreExamples.refused_then_page with
  | Some (product_data, requests) =>
      requests = 2
      /\ 1 <= requests
      /\ product_data <> ∅
      /\ (has_data product_data = true \/ requests = MAX_RETRIES)
  | None => False
  end.
Proof.
  assert (snd <$> @scrape_boots_product ascii_db 3 (str "https://www.boots.com/p")
                    (str "2025-01-01 00:00:00") MoreExamples.refused_then_page
          = Some 2) as Hrequests by (vm_compute; reflexivity).
  destruct (@scrape_boots_product ascii_db 3 (str "https://www.boots.com/p")
              (str "2025-01-01 00:00:00") MoreExamples.refused_then_page)
    as [[product_data requests]|] eqn:H; [|done].
  split; [by injection Hrequests|].
  exact (@scrape_returns_early_with_data ascii_db 3 _ _ _ product_data requests H).
Defined.


(** X7.  [main] of batch_fix_ingredients.py: processing the table in
    batches of 100 rows gives what one call of [process_batch] on the
    whole table gives, the records in the rows' order and the number of
    rows fixed; [total_processed] is the number of rows. *)
Theorem batches_as_one `{U : UnicodeDb} (df : list (gmap string pyval)) :
  BatchFixMain.main_loop df
  = ((process_batch df).1, length df, (process_batch df).2).
Proof. apply main_loop_whole. Qed.

(** X8.  [main] of final_fix_ingredients.py on a table with an
    [ingredients] column: after the loop over the batches every row of the
    table is updated as the loop body of [process_batch] updates it, the
    rows in between two batches none excepted, and [total_updated] is the
    number of rows whose text yields a list.  On a table without the
    column the first row raises, and the table is unchanged. *)
Theorem final_fix_batches `{U : UnicodeDb} (df : list (gmap string pyval)) :
  (Forall (fun row => is_Some (row !! "ingredients"%string)) df ->
   FinalFixMain.main_loop df = (Some (updated_rows df), map final_row df))
  /\ (forall row rest,
        df = row :: rest -> row !! "ingredients"%string = None ->
        FinalFixMain.main_loop df = (None, df)).
Proof.
  split.
  - apply main_loop_spec.
  - intros row rest -> Hrow. by apply main_loop_raises.
Qed.

Lemma final_fix_batches_witness :
  @FinalFixMain.main_loop ascii_db MoreExamples.two_rows
  = (Some (@updated_rows ascii_db MoreExamples.two_rows),
     map (@final_row ascii_db) MoreExamples.two_rows)
  /\ @FinalFixMain.main_loop ascii_db [∅] = (None, [∅]).
Proof.
  split.
  - apply (proj1 (@final_fix_batches ascii_db MoreExamples.two_rows)).
    repeat constructor; eexists; vm_compute; reflexivity.
  - by apply (proj2 (@final_fix_batches ascii_db [∅]) ∅ []).
Defined.

(** X9.  The conversion of the rows for the JSON file in
    final_fix_ingredients.py and fix_ingredients_list.py raises on every
    row whose [ingredients_list] string holds two names or more: the
    string is turned into a list, on which the test [if pd.isna(val):]
    raises [ValueError].  So when the text of some row of the table yields
    two names or more, the loop of [main] of final_fix_ingredients.py
    that prepares the JSON file raises, after the CSV file was written. *)
Theorem json_conversion_raises `{U : UnicodeDb} (empty_array : option bool)
    (df : list (gmap string pyval)) :
  (forall row s,
      row !! "ingredients_list"%string = Some (PStr s) ->
      2 <= length (comma_items s) ->
      json_row empty_array row = None)
  /\ (Forall (fun row => is_Some (row !! "ingredients"%string)) df ->
      Exists (fun row =>
                2 <= length (FinalFix.extract_and_clean_ingredients
                               (row_get "ingredients" row)).2) df ->
      json_rows empty_array (FinalFixMain.main_loop df).2 = None).
Proof.
  split.
  - intros row s. apply json_row_raises.
  - intros Hall Hex. rewrite main_loop_spec by done. cbn [snd].
    unfold json_rows. apply mapM_None_Exists.
    change (map final_row df) with (final_row <$> df).
    apply Exists_fmap. eapply Exists_impl; [exact Hex|].
    intros row Hrow. by apply final_row_raises.
Qed.

Lemma json_conversion_raises_witness :
  json_row (Some false)
    {[ "ingredients_list"%string := PStr (str "Aqua, Glycerin") ]} = None
  /\ json_rows (Some false)
       (@FinalFixMain.main_loop ascii_db MoreExamples.two_rows).2 = None.
Proof.
  split.
  - apply (proj1 (@json_conversion_raises ascii_db (Some false) [])
             _ (str "Aqua, Glycerin")); vm_compute; [reflexivity|lia].
  - apply (proj2 (@json_conversion_raises ascii_db (Some false) MoreExamples.two_rows)).
    + repeat constructor; eexists; vm_compute; reflexivity.
    + apply Exists_cons_hd. vm_compute. lia.
Defined.

(** X10.  The loop of [main] that collects the results loses no URL,
    whatever raises on the way: when the loop ends, [all_product_data] has
    gained exactly the records with data, in the order of completion, and
    the URL of every task that gave no such record is in [failed_urls] or
    in [redirect_urls], which have only grown. *)
Theorem collect_accounts_for_all (i : nat) (tasks : list completed) (l l' : lists) :
  collect i tasks l = Some l' ->
  all_product_data l' = all_product_data l ++ omap with_data tasks
  /\ (exists urls, failed_urls l' = failed_urls l ++ urls)
  /\ (exists urls, redirect_urls l' = redirect_urls l ++ urls)
  /\ Forall (fun c => with_data c = None ->
                      c_url c ∈ failed_urls l' \/ c_url c ∈ redirect_urls l')
            tasks.
Proof. apply collect_spec. Qed.

Lemma collect_accounts_for_all_witness :
  let l' :=
    Lists [ {[ "brand"%string := PStr (str "Boots") ]} ]
          [ str "https://www.boots.com/c" ]
          [ str "https://www.boots.com/webapp/wcs/stores/servlet/ProductDisplay?productId=1" ] in
  collect 0 MoreExamples.three_tasks (Lists [] [] []) = Some l'
  /\ all_product_data l' = [] ++ omap with_data MoreExamples.three_tasks
  /\ (exists urls, failed_urls l' = [] ++ urls)
  /\ (exists urls, redirect_urls l' = [] ++ urls)
  /\ Forall (fun c => with_data c = None ->
                      c_url c ∈ failed_urls l' \/ c_url c ∈ redirect_urls l')
            MoreExamples.three_tasks.
Proof.
  intros l'.
  assert (collect 0 MoreExamples.three_tasks (Lists [] [] []) = Some l') as H
    by (vm_compute; reflexivity).
  split; [exact H|].
  exact (collect_accounts_for_all 0 MoreExamples.three_tasks (Lists [] [] []) l' H).
Defined.

(** X11.  In a run of the collecting loop in which no call raises (every
    task gives a record that [save_to_csv] can write, and the files are
    written), every URL is recorded once: the records with data go to
    [all_product_data], the other URLs to [redirect_urls] when they hold
    the servlet path and to [failed_urls] when they do not, each list in
    the order of completion. *)
Theorem collect_quiet_run (i : nat) (tasks : list completed) (l : lists) :
  Forall quiet tasks ->
  Forall (fun product => is_Some (csv_copy product)) (all_product_data l) ->
  collect i tasks l
  = Some (Lists (all_product_data l ++ omap with_data tasks)
                (failed_urls l
                   ++ map c_url (filter (fun c => to_failed c = true) tasks))
                (redirect_urls l
                   ++ map c_url (filter (fun c => to_redirect c = true) tasks))).
Proof. apply collect_quiet. Qed.

Lemma collect_quiet_run_witness :
  collect 0 (take 2 MoreExamples.three_tasks) (Lists [] [] [])
  = Some (Lists ([] ++ omap with_data (take 2 MoreExamples.three_tasks))
                ([] ++ map c_url (filter (fun c => to_failed c = true)
                                         (take 2 MoreExamples.three_tasks)))
                ([] ++ map c_url (filter (fun c => to_redirect c = true)
                                         (take 2 MoreExamples.three_tasks)))).
Proof.
  apply (collect_quiet_run 0 (take 2 MoreExamples.three_tasks) (Lists [] [] [])).
  - repeat constructor; eexists; (split; [reflexivity|]); eexists; vm_compute; reflexivity.
  - constructor.
Defined.

(** X12.  The field [country_of_origin] of a record that
    [scrape_boots_product] returns is [None] or a string that consists of
    letters (of the class [[A-Za-z]] under [re.IGNORECASE]) and white
    space, without white space at either end; it may be the empty
    string. *)
Theorem scraped_country_of_origin `{U : UnicodeDb} fuel url timestamp responses
    (product_data : gmap string pyval) (requests : nat) :
  scrape_boots_product fuel url timestamp responses = Some (product_data, requests) ->
  match product_data !! "country_of_origin"%string with
  | Some PNone => True
  | Some (PStr country) =>
      Forall (fun c => is_letter_or_space c = true) country
      /\ strip country = country
  | _ => False
  end.
Proof.
  intros H. apply scrape_country in H. unfold country_value in H.
  by destruct (product_data !! "country_of_origin"%string) as [[]|].
Qed.

Lemma scraped_country_of_origin_witness :
  match @scrape_boots_product ascii_db 3 (str "https://www.boots.com/p")
          (str "2025-01-01 00:00:00") (fun _ => Http 200 MoreExamples.origin_page) with
  | Some (product_data, requests) =>
      product_data !! "country_of_origin"%string = Some (PStr (str "France"))
      /\ match product_data !! "country_of_origin"%string with
         | Some PNone => True
         | Some (PStr country) =>
             Forall (fun c => is_letter_or_space c = true) country
             /\ strip country = country
         | _ => False
         end
  | None => False
  end.
Proof.
  assert ((p ← @scrape_boots_product ascii_db 3 (str "https://www.boots.com/p")
                 (str "2025-01-01 00:00:00") (fun _ => Http 200 MoreExamples.origin_page);
           p.1 !! "country_of_origin"%string) = Some (PStr (str "France"))) as Hcountry
    by (vm_compute; reflexivity).
  destruct (@scrape_boots_product ascii_db 3 (str "https://www.boots.com/p")
              (str "2025-01-01 00:00:00") (fun _ => Http 200 MoreExamples.origin_page))
    as [[product_data requests]|] eqn:H; [|done].
  split; [exact Hcountry|].
  exact (@scraped_country_of_origin ascii_db 3 _ _ _ product_data requests H).
Defined.



(** X14.  What [main] starts from after loading the progress file: every
    product with an ingredients value that is true has an
    [ingredients_list]; loading what was loaded changes nothing; and a
    product with a true ingredients value that is not a string, and no
    list, makes the block raise, so that nothing of the progress is
    kept. *)
Theorem progress_backfilled `{U : UnicodeDb}
    (progress : option (list (gmap string pyval))) (backup_raises : bool) :
  Forall (fun product =>
            truthy_val (row_get "ingredients" product) = true ->
            is_Some (product !! "ingredients_list"%string))
         (load_progress progress backup_raises)
  /\ load_progress (Some (load_progress progress backup_raises)) false
     = load_progress progress backup_raises
  /\ (forall products,
        progress = Some products ->
        Exists (fun product =>
                  exists v, product !! "ingredients"%string = Some v
                            /\ product !! "ingredients_list"%string = None
                            /\ truthy_val v = true /\ forall s, v <> PStr s)
               products ->
        load_progress progress backup_raises = []).
Proof.
  destruct (load_progress_cases progress backup_raises)
    as [->|(products & -> & Hload & Hurls)].
  - split_and!; [constructor|done|done].
  - pose proof (mapM_backfill_done _ _ Hload) as [Hdone Hagain].
    split_and!; [done| |].
    + unfold load_progress at 1. rewrite Hagain, Hurls. done.
    + intros products' [= <-] Hbad. exfalso.
      assert (mapM backfill products = None) as Hnone; [|by rewrite Hnone in Hload].
      apply mapM_None_Exists. eapply Exists_impl; [exact Hbad|].
      intros product (v & Hv & Hl & Ht & Hs). by eapply backfill_raises.
Qed.

Lemma progress_backfilled_witness :
  @load_progress ascii_db (Some MoreExamples.bad_progress) false = []
  /\ (fun product => product !! "ingredients_list"%string)
       <$> @load_progress ascii_db (Some (take 1 MoreExamples.bad_progress)) false
     = [ Some (PList [str "Aqua"; str "Glycerin"]) ].
Proof.
  split.
  - apply (proj2 (proj2 (@progress_backfilled ascii_db
                           (Some MoreExamples.bad_progress) false))
             MoreExamples.bad_progress eq_refl).
    apply Exists_cons_tl, Exists_cons_hd. exists (PInt 5).
    split_and!; [vm_compute; reflexivity..|done].
  - vm_compute. reflexivity.
Defined.

(** X15.  [main] of fix_sample.py writes the sample as it was drawn: the
    updates it counts are made in [df], and the file is written from
    [df_sample], a table of its own, so none of them reaches the file.
    The count it prints is the number of sampled rows whose text yields a
    list.  It needs a table of at least 50 rows. *)
Theorem sample_written_as_drawn `{U : UnicodeDb} (table : list (gmap string pyval))
    (picked : list nat) (updated_count : nat) (written : list (gmap string pyval)) :
  FixSampleMain.main table picked = Some (updated_count, written) ->
  written = omap (fun i => table !! i) picked
  /\ updated_count = length (filter (fun row => sample_updated row = true) written)
  /\ FixSampleMain.sample_size <= length table.
Proof.
  unfold FixSampleMain.main.
  destruct (length table <? FixSampleMain.sample_size) eqn:Elen; [done|].
  apply Nat.ltb_ge in Elen.
  destruct (FixSampleMain.sample_loop _ 0 _) as [[n|] t'] eqn:E; [|done].
  intros [= <- <-].
  pose proof (sample_loop_frame
                (omap (fun i => pair i <$> table !! i) picked) 0
                (FixSampleMain.Tables table
                   (omap (fun i => pair i <$> table !! i) picked))) as Hframe.
  cbn [FixSampleMain.df_sample] in E. rewrite E in Hframe.
  cbn [snd FixSampleMain.df_sample] in Hframe.
  apply sample_loop_count in E. rewrite Hframe, picked_rows.
  rewrite picked_rows in E. by split_and!.
Qed.

Lemma sample_written_as_drawn_witness :
  match @FixSampleMain.main ascii_db MoreExamples.fifty_rows [3; 7] with
  | Some (updated_count, written) =>
      updated_count = 2
      /\ written = omap (fun i => MoreExamples.fifty_rows !! i) [3; 7]
      /\ updated_count
         = length (filter (fun row => @sample_updated ascii_db row = true) written)
      /\ FixSampleMain.sample_size <= length MoreExamples.fifty_rows
  | None => False
  end.
Proof.
  assert (fst <$> @FixSampleMain.main ascii_db MoreExamples.fifty_rows [3; 7] = Some 2)
    as Hcount by (vm_compute; reflexivity).
  destruct (@FixSampleMain.main ascii_db MoreExamples.fifty_rows [3; 7])
    as [[updated_count written]|] eqn:H; [|done].
  split; [by injection Hcount|].
  exact (@sample_written_as_drawn ascii_db MoreExamples.fifty_rows [3; 7]
           updated_count written H).
Defined.

(** X16.  [fix_database] of fix_ingredients_list.py, when it comes to
    write its table: the rows written are rows of the input in their
    order, each updated as the loop body updates it; [updated_count] is the
    number of them with an ingredients text and [success_count] the number
    of them whose text yields a list, so
    [success_count <= updated_count <=] the number of rows written.  In
    test mode the rows written have an ingredients value and, for a
    sample size that is not negative, are at most that many; otherwise all
    the rows of the input are written. *)
Theorem fix_database_rows `{U : UnicodeDb} (df : list (gmap string pyval))
    (test_mode : bool) (sample_size : Z) (updated_count success_count : nat)
    (written : list (gmap string pyval)) :
  fix_database df test_mode sample_size = Some (updated_count, success_count, written) ->
  success_count <= updated_count <= length written
  /\ exists kept,
       written = map fixed_row kept
       /\ updated_count = with_text kept
       /\ success_count = with_list kept
       /\ kept `sublist_of` df
       /\ if test_mode then
            Forall (fun row => notna (row_get "ingredients" row) = true) kept
            /\ ((0 <= sample_size)%Z -> length kept <= Z.to_nat sample_size)
          else kept = df.
Proof.
  intros (working & Hw & -> & -> & ->)%fix_database_spec.
  apply select_working_spec in Hw as (_ & Hsub & Hmode).
  split.
  - rewrite length_map. apply with_list_le.
  - exists working.*2. by split_and!.
Qed.

Lemma fix_database_rows_witness :
  match @fix_database ascii_db MoreExamples.two_rows true 10 with
  | Some (updated_count, success_count, written) =>
      (updated_count, success_count, length written) = (1, 1, 1)
      /\ success_count <= updated_count <= length written
      /\ exists kept,
           written = map (@fixed_row ascii_db) kept
           /\ updated_count = with_text kept
           /\ success_count = @with_list ascii_db kept
           /\ kept `sublist_of` MoreExamples.two_rows
           /\ Forall (fun row => notna (row_get "ingredients" row) = true) kept
           /\ ((0 <= 10)%Z -> length kept <= Z.to_nat 10)
  | None => False
  end.
Proof.
  assert ((fun r => (r.1.1, r.1.2, length r.2))
            <$> @fix_database ascii_db MoreExamples.two_rows true 10
          = Some (1, 1, 1)) as Hcounts by (vm_compute; reflexivity).
  destruct (@fix_database ascii_db MoreExamples.two_rows true 10)
    as [[[updated_count success_count] written]|] eqn:H; [|done].
  split; [by injection Hcounts as -> -> ->|].
  exact (@fix_database_rows ascii_db MoreExamples.two_rows true 10
           updated_count success_count written H).
Defined.

(** X17.  [_extract_product_id] of the advanced scraper returns a part
    of the URL that consists of decimal digits (the class [\d]) only; it
    returns the empty string for a URL without a decimal digit. *)
Theorem product_id_digits `{U : UnicodeDb} (uni_isdecimal : N -> bool) (url : pystr) :
  Forall (fun c => is_decimal uni_isdecimal c = true)
         (_extract_product_id uni_isdecimal url)
  /\ (exists pre post, url = pre ++ _extract_product_id uni_isdecimal url ++ post)
  /\ (Forall (fun c => is_decimal uni_isdecimal c = false) url ->
      _extract_product_id uni_isdecimal url = []).
Proof.
  unfold _extract_product_id. split_and!.
  - destruct (first_group _ url) as [g|] eqn:E; [|constructor].
    eapply first_group_in, E. apply product_id_patterns_group.
  - destruct (first_group _ url) as [g|] eqn:E; [|by exists [], url].
    by apply first_group_part in E.
  - intros Hnone.
    by rewrite (first_group_requires (is_decimal uni_isdecimal))
      by (done || apply product_id_patterns_require).
Qed.

Lemma product_id_digits_witness :
  @_extract_product_id ascii_db (fun _ => false)
    (str "https://www.boots.com/no7-day-cream-10263822") = str "10263822"
  /\ @_extract_product_id ascii_db (fun _ => false)
       (str "https://www.boots.com/skincare") = [].
Proof.
  split; [vm_compute; reflexivity|].
  apply (proj2 (proj2 (@product_id_digits ascii_db (fun _ => false)
                         (str "https://www.boots.com/skincare")))).
  vm_compute. repeat constructor.
Defined.



(** X19.  The ingredient names the clean-up scripts write hold none of
    the characters ':', '*', '+', '.', ',' and '|', and no white space
    other than the blank: the names [extract_ingredients_list] makes from
    a cleaned text, and the names [extract_and_clean_ingredients]
    returns. *)
Theorem ingredient_names_characters `{U : UnicodeDb} (v : pyval) :
  Forall (Forall (fun c => name_char c = true))
         (extract_ingredients_list (clean_ingredients_text v))
  /\ Forall (Forall (fun c => name_char c = true))
            (FinalFix.extract_and_clean_ingredients v).2.
Proof.
  assert (forall text,
            Forall (fun c => is_deleted c = false /\ (is_space c = true -> c = 32%N)) text ->
            Forall (Forall (fun c => name_char c = true))
                   (filter (fun item => keep_item item = true)
                           (map clean_item
                                (split 44 (sub pipe_sep (str ", ")
                                               (sub bullet_sep (str ", ") text))))))
    as Hnames.
  { intros text Htext.
    eapply Forall_impl.
    { apply (kept_items_chars
               (fun c => is_deleted c = false /\ (is_space c = true -> c = 32%N)) text);
        [split; [reflexivity|intros H; vm_compute in H; discriminate]
        |split; [reflexivity|done]
        |exact Htext]. }
    intros item Hitem. eapply Forall_impl; [exact Hitem|].
    intros c Hc. by apply name_char_spec. }
  split.
  - unfold extract_ingredients_list.
    destruct (truthy (clean_ingredients_text v)); [|constructor].
    apply Hnames. destruct v as [| | | | |s|]; try constructor.
    unfold clean_ingredients_text, scrub.
    apply strip_Forall, substitutions_characters.
  - destruct v as [| | | | |s|]; try constructor.
    unfold FinalFix.extract_and_clean_ingredients, FinalFix.extract_and_clean_with.
    destruct (truthy (strip s)); [|constructor].
    cbn [snd]. apply Hnames, substitutions_characters.
Qed.

End Extras.
